(** * Noro browser extension: capture-and-submit pipeline

    A shallow embedding of the background service worker
    ([extension/src/background.ts]) and of the AWS client
    ([extension/src/awsService.ts]).

    Conventions.
    - Instants and counters are JavaScript numbers holding integers
      (milliseconds since the epoch, request counts): they are [Z].
    - [chrome.storage.local] is one key/value store.  The fixed keys are
      fields of the record [Storage] ([None] is an absent key); the keys
      built at run time ([workspace_<ts>], [img_<ts>_<tabId>]) live in the
      finite map [entries].
    - Every [Date.now()] the code reads, and every answer of the outside
      world (the page script, the screenshot API, the HTTPS endpoint) is an
      argument of the function that consumes it.
    - [chrome.storage.local] is taken to answer the calls of the rate
      limiter, of the capture, of the sweep and of the history page.  The
      retry queue is the exception: whether the storage answers or rejects
      the reads and writes of [storeFailedSubmission] and of
      [retryFailedSubmissions] is part of what these functions are given,
      and their [catch] branches are represented. *)

From Stdlib Require Import ZArith Ascii String Bool Lia Sorted DecimalString.
From Stdlib Require HexadecimalString.
From stdpp Require Import base option list gmap strings.

Local Open Scope Z_scope.

(** ** JavaScript helpers *)

Module Js.

(** [v || d] on a number read from storage: an absent key ([undefined])
    and the number [0] are both falsy. *)
Definition or_num (o : option Z) (d : Z) : Z :=
  match o with
  | Some v => if v =? 0 then d else v
  | None => d
  end.

(** [a || []] on an array read from storage (every array is truthy). *)
Definition or_empty {A} (o : option (list A)) : list A :=
  match o with
  | Some l => l
  | None => []
  end.

(** [Array.prototype.slice(-n)]: the last [n] elements. *)
Definition slice_last {A} (n : nat) (l : list A) : list A :=
  drop (length l - n)%nat l.

(** Truthiness of a string: only the empty string is falsy. *)
Definition truthy_string (s : string) : bool :=
  match s with
  | EmptyString => false
  | String _ _ => true
  end.

(** [`${n}`] for an integer. *)
Definition show_int (n : Z) : string :=
  NilZero.string_of_int (Z.to_int n).

End Js.

(** ** Data model ([types.ts]) *)

Inductive PageType :=
| GoogleSheets | GoogleDocs | GoogleSlides | GoogleForms | Gmail
| Article | Search | General | Unknown.

(** The [screenshot] member of the type-specific payload: the member is
    missing (article and search payloads), [null] (set by the page script
    of the Google workspace pages), or a storage key. *)
Inductive ScreenshotField :=
| ShotMissing
| ShotNull
| ShotKey (key : string).

(** Type-specific payload.  The capture core reads and writes only its
    [screenshot] member. *)
Record PageData := { screenshot : ScreenshotField }.

Record PageSnapshot := {
  url : string;
  title : string;
  pageTimestamp : Z;
  type : PageType;
  data : option PageData
}.

Record TabSnapshot := {
  tabId : Z;
  isActive : bool;
  snapshot : PageSnapshot
}.

Record WindowSnapshot := {
  windowId : Z;
  activeTabId : Z;
  tabs : list TabSnapshot
}.

Record WorkspaceCapture := {
  timestamp : Z;
  windows : list WindowSnapshot
}.

Inductive CaptureReason := Idle | Manual.

(** The record pushed by [storeFailedSubmission]. *)
Record FailedSubmission := {
  id : string;
  workspace : WorkspaceCapture;
  userId : string;
  captureReason : CaptureReason;
  failedAt : Z;
  retryCount : Z
}.

(** An insight as the display surfaces consume it; its content is opaque
    to the pipeline. *)
Record AIInsight := {
  insightId : string;
  insightTitle : string
}.

(** A value stored under a key built at run time. *)
Inductive Item :=
| ItemWorkspace (w : WorkspaceCapture)
| ItemImage (dataUrl : string).

(** [chrome.storage.local]. *)
Record Storage := {
  last_aws_submission : option Z;
  aws_requests_minute : option Z;
  aws_requests_hour : option Z;
  aws_minute_start : option Z;
  aws_hour_start : option Z;
  failed_submissions : option (list FailedSubmission);
  cached_insights : option (list AIInsight);
  insights_cached_at : option Z;
  entries : gmap string Item
}.

Definition empty_storage : Storage :=
  {| last_aws_submission := None;
     aws_requests_minute := None;
     aws_requests_hour := None;
     aws_minute_start := None;
     aws_hour_start := None;
     failed_submissions := None;
     cached_insights := None;
     insights_cached_at := None;
     entries := ∅ |}.

(** [chrome.storage.local.set] restricted to the rate-limiter keys. *)
Definition set_rate_limit (m h ms hs last : Z) (st : Storage) : Storage :=
  {| last_aws_submission := Some last;
     aws_requests_minute := Some m;
     aws_requests_hour := Some h;
     aws_minute_start := Some ms;
     aws_hour_start := Some hs;
     failed_submissions := failed_submissions st;
     cached_insights := cached_insights st;
     insights_cached_at := insights_cached_at st;
     entries := entries st |}.

Definition set_failed_submissions (q : list FailedSubmission) (st : Storage) : Storage :=
  {| last_aws_submission := last_aws_submission st;
     aws_requests_minute := aws_requests_minute st;
     aws_requests_hour := aws_requests_hour st;
     aws_minute_start := aws_minute_start st;
     aws_hour_start := aws_hour_start st;
     failed_submissions := Some q;
     cached_insights := cached_insights st;
     insights_cached_at := insights_cached_at st;
     entries := entries st |}.

Definition set_cached_insights (l : list AIInsight) (at_ : Z) (st : Storage) : Storage :=
  {| last_aws_submission := last_aws_submission st;
     aws_requests_minute := aws_requests_minute st;
     aws_requests_hour := aws_requests_hour st;
     aws_minute_start := aws_minute_start st;
     aws_hour_start := aws_hour_start st;
     failed_submissions := failed_submissions st;
     cached_insights := Some l;
     insights_cached_at := Some at_;
     entries := entries st |}.

Definition set_entries (e : gmap string Item) (st : Storage) : Storage :=
  {| last_aws_submission := last_aws_submission st;
     aws_requests_minute := aws_requests_minute st;
     aws_requests_hour := aws_requests_hour st;
     aws_minute_start := aws_minute_start st;
     aws_hour_start := aws_hour_start st;
     failed_submissions := failed_submissions st;
     cached_insights := cached_insights st;
     insights_cached_at := insights_cached_at st;
     entries := e |}.

(** ** Rate limiter ([awsService.ts], [RATE_LIMITS], [shouldSubmitContext],
       [updateRateLimitCounters]) *)

Module RateLimiter.

Definition MAX_REQUESTS_PER_MINUTE : Z := 5.
Definition MAX_REQUESTS_PER_HOUR : Z := 20.
Definition MIN_INTERVAL_MS : Z := 12000.

(** [shouldSubmitContext], with [now] the value of [Date.now()]. *)
Definition shouldSubmitContext (now : Z) (st : Storage) : bool :=
  let lastSubmission := Js.or_num (last_aws_submission st) 0 in
  let minuteStart := Js.or_num (aws_minute_start st) now in
  let hourStart := Js.or_num (aws_hour_start st) now in
  if now - lastSubmission <? MIN_INTERVAL_MS then false
  else
    let requestsThisMinute := Js.or_num (aws_requests_minute st) 0 in
    let requestsThisHour := Js.or_num (aws_requests_hour st) 0 in
    let requestsThisMinute :=
      if now - minuteStart >=? 60000 then 0 else requestsThisMinute in
    let requestsThisHour :=
      if now - hourStart >=? 3600000 then 0 else requestsThisHour in
    if requestsThisMinute >=? MAX_REQUESTS_PER_MINUTE then false
    else if requestsThisHour >=? MAX_REQUESTS_PER_HOUR then false
    else true.

(** [updateRateLimitCounters], with [now] the value of [Date.now()]. *)
Definition updateRateLimitCounters (now : Z) (st : Storage) : Storage :=
  let minuteStart := Js.or_num (aws_minute_start st) now in
  let hourStart := Js.or_num (aws_hour_start st) now in
  let requestsThisMinute := Js.or_num (aws_requests_minute st) 0 in
  let requestsThisHour := Js.or_num (aws_requests_hour st) 0 in
  let requestsThisMinute :=
    if now - minuteStart >=? 60000 then 0 else requestsThisMinute in
  let requestsThisHour :=
    if now - hourStart >=? 3600000 then 0 else requestsThisHour in
  let requestsThisMinute := requestsThisMinute + 1 in
  let requestsThisHour := requestsThisHour + 1 in
  set_rate_limit
    requestsThisMinute
    requestsThisHour
    (if now - minuteStart >=? 60000 then now else minuteStart)
    (if now - hourStart >=? 3600000 then now else hourStart)
    now
    st.

(** *** Runs of the limiter *)

(** An arbitrary interleaving of the two entry points. *)
Inductive Event :=
| CheckAt (now : Z)
| UpdateAt (now : Z).

(** The instants at which [shouldSubmitContext] answered [true]. *)
Fixpoint admitted (st : Storage) (evs : list Event) : list Z :=
  match evs with
  | [] => []
  | CheckAt now :: evs' =>
      if shouldSubmitContext now st then now :: admitted st evs'
      else admitted st evs'
  | UpdateAt now :: evs' => admitted (updateRateLimitCounters now st) evs'
  end.

(** One serial use of the limiter: the check at [checkAt]; when it admits,
    the counters are updated at [updateAt] before anything else runs. *)
Record Cycle := { checkAt : Z; updateAt : Z }.

Record Admission := {
  admittedAt : Z;   (* the check that admitted the submission *)
  countedAt : Z;    (* the update that counted it *)
  hourWindow : Z    (* [aws_hour_start] as persisted by that update *)
}.

Fixpoint serial (st : Storage) (cs : list Cycle) : list Admission :=
  match cs with
  | [] => []
  | c :: cs' =>
      if shouldSubmitContext (checkAt c) st then
        let st' := updateRateLimitCounters (updateAt c) st in
        {| admittedAt := checkAt c;
           countedAt := updateAt c;
           hourWindow := Js.or_num (aws_hour_start st') 0 |} :: serial st' cs'
      else serial st cs'
  end.

(** The same run, as an interleaving of checks and updates. *)
Fixpoint serial_events (st : Storage) (cs : list Cycle) : list Event :=
  match cs with
  | [] => []
  | c :: cs' =>
      if shouldSubmitContext (checkAt c) st then
        CheckAt (checkAt c) :: UpdateAt (updateAt c)
          :: serial_events (updateRateLimitCounters (updateAt c) st) cs'
      else CheckAt (checkAt c) :: serial_events st cs'
  end.

(** How many instants of [l] fall in the span [[lo, hi)]. *)
Definition count_between (lo hi : Z) (l : list Z) : nat :=
  length (List.filter (fun t => (lo <=? t) && (t <? hi)) l).


(** The three numbers the hour window lives on, as the code reads them. *)
Definition last_of (st : Storage) : Z := Js.or_num (last_aws_submission st) 0.
Definition hour_start_of (st : Storage) : Z := Js.or_num (aws_hour_start st) 0.
Definition hour_count_of (st : Storage) : Z := Js.or_num (aws_requests_hour st) 0.


(** Submissions every 12 s, each admitted check followed at once by its
    update: [n] cycles starting at [from]. *)
Fixpoint every_12s (from : Z) (n : nat) : list Cycle :=
  match n with
  | O => []
  | S n' => {| checkAt := from; updateAt := from |} :: every_12s (from + 12000) n'
  end.

(** One submission at 12 s, then 21 submissions 12 s apart straddling the
    end of the hour window that the first one opened (it ends at
    3 612 000 ms). *)
Definition hour_boundary_run : list Cycle :=
  {| checkAt := 12000; updateAt := 12000 |} :: every_12s 3384000 21.

End RateLimiter.

(** ** Submission client, retry queue and insight cache ([awsService.ts]) *)

Module AwsService.

Import RateLimiter.

(** How a [try] body ends. *)
Inductive Completion (A : Type) :=
| Normal (a : A)
| Throw (message : string).
Arguments Normal {A} a.
Arguments Throw {A} message.

(** The answer of [fetch(API_ENDPOINTS.context, {method: "POST", ...})]:
    the promise rejects, or a response arrives with a status and a body
    that [response.json()] can or cannot parse. *)
Inductive PostOutcome :=
| NetworkError
| Response (status : Z) (bodyIsJson : bool).

(** [response.ok]. *)
Definition response_ok (status : Z) : bool :=
  (200 <=? status) && (status <=? 299).

(** What one call of [submitContext] reads from the outside world. *)
Record SubmitEnv := {
  checkNow : Z;               (* [Date.now()] in [shouldSubmitContext] *)
  correlationSuffix : string; (* [`${Date.now()}-${random}`] *)
  post : PostOutcome;
  updateNow : Z;              (* [Date.now()] in [updateRateLimitCounters] *)
  failedSuffix : string;      (* [`${Date.now()}_${random}`] *)
  failedNow : Z;              (* [Date.now()] for the queued record *)
  storageRejects : bool       (* [chrome.storage.local] rejects the [get] or the
                                 [set] of [storeFailedSubmission] *)
}.

Record ContextTab := {
  tab_title : string;
  tab_url : string
}.

(** The body of [POST /context].  The derived members ([url_hash],
    [text_sample], [active_url_hash]) and the constant ones are left out:
    nothing in the pipeline reads them back. *)
Record ContextData := {
  correlation_id : string;
  user_id : string;
  ts : Z;
  event : string;
  context_tabs : list ContextTab;
  idle_sec : Z
}.

(** [new Date(t).toISOString()] throws a [RangeError] outside the range of
    ECMAScript time values. *)
Definition valid_time_value (t : Z) : bool :=
  (-8640000000000000 <=? t) && (t <=? 8640000000000000).

Definition contextData (correlationId : string) (workspace : WorkspaceCapture)
    (userId : string) (captureReason : CaptureReason) : ContextData :=
  {| correlation_id := correlationId;
     user_id := userId;
     ts := timestamp workspace;
     event := match captureReason with
              | Manual => "manual_capture"
              | Idle => "idle_capture"
              end;
     context_tabs :=
       flat_map (fun window =>
         map (fun tab => {| tab_title := title (snapshot tab);
                            tab_url := url (snapshot tab) |}) (tabs window))
         (windows workspace);
     idle_sec := match captureReason with Idle => 15 | Manual => 0 end |}.

(** [storeFailedSubmission].  Its [try] body reads the queue, pushes the
    record and writes the last ten entries back; when the [get] or the
    [set] rejects, its [catch] logs the error and nothing is stored. *)
Definition storeFailedSubmission (env : SubmitEnv) (workspace : WorkspaceCapture)
    (userId : string) (captureReason : CaptureReason) (st : Storage) : Storage :=
  if storageRejects env then st
  else
    let failedSubmissions := Js.or_empty (failed_submissions st) in
    let failedSubmissions :=
      failedSubmissions ++
        [ {| id := "failed_" +:+ failedSuffix env;
             workspace := workspace;
             userId := userId;
             captureReason := captureReason;
             failedAt := failedNow env;
             retryCount := 0 |} ] in
    (* Keep only last 10 failed submissions *)
    let recentFailed := Js.slice_last 10 failedSubmissions in
    set_failed_submissions recentFailed st.

Record SubmitResult := {
  returned : Completion (option string); (* how the call ends for its caller *)
  posted : list ContextData;             (* the POST requests it issued *)
  store : Storage
}.

(** [submitContext]. *)
Definition submitContext (env : SubmitEnv) (workspace : WorkspaceCapture)
    (userId : string) (captureReason : CaptureReason) (st : Storage) : SubmitResult :=
  let try_body : SubmitResult :=
    if negb (shouldSubmitContext (checkNow env) st) then
      {| returned := Normal None; posted := []; store := st |}
    else
      let correlationId := "c-" +:+ correlationSuffix env in
      if negb (valid_time_value (timestamp workspace)) then
        {| returned := Throw "RangeError: Invalid time value"; posted := []; store := st |}
      else
        let body := contextData correlationId workspace userId captureReason in
        match post env with
        | NetworkError =>
            {| returned := Throw "TypeError: Failed to fetch"; posted := [body]; store := st |}
        | Response status bodyIsJson =>
            if negb (response_ok status) then
              {| returned := Throw "API Error"; posted := [body]; store := st |}
            else if negb bodyIsJson then
              {| returned := Throw "SyntaxError"; posted := [body]; store := st |}
            else
              {| returned := Normal (Some correlationId);
                 posted := [body];
                 store := updateRateLimitCounters (updateNow env) st |}
        end in
  match returned try_body with
  | Normal r => try_body
  | Throw _ =>
      (* catch: store failed submission for retry later *)
      {| returned := Normal None;
         posted := posted try_body;
         store := storeFailedSubmission env workspace userId captureReason (store try_body) |}
  end.

(** One turn of the loop of [retryFailedSubmissions]. *)
Record RetryAttempt := {
  attempted : FailedSubmission;     (* the queued entry *)
  sent : list ContextData;          (* the POST requests its [submitContext] issued *)
  contextId : option string         (* what [submitContext] returned, if truthy *)
}.

Record RetryState := {
  retry_store : Storage;
  successfulRetries : list string;
  attempts : list RetryAttempt
}.

(** [if (contextId)]: [null] and the empty string are falsy. *)
Definition truthy_context_id (r : Completion (option string)) : option string :=
  match r with
  | Normal (Some c) => if Js.truthy_string c then Some c else None
  | _ => None
  end.

(** The [for ... of] loop of [retryFailedSubmissions]; [envs i] is what
    the [i]-th resubmission reads. *)
Fixpoint retryLoop (envs : nat -> SubmitEnv) (i : nat)
    (subs : list FailedSubmission) (s : RetryState) : RetryState :=
  match subs with
  | [] => s
  | submission :: subs' =>
      let r := submitContext (envs i) (workspace submission) (userId submission)
                 (captureReason submission) (retry_store s) in
      let cid := truthy_context_id (returned r) in
      retryLoop envs (S i) subs'
        {| retry_store := store r;
           successfulRetries :=
             match cid with
             | Some _ => successfulRetries s ++ [id submission]
             | None => successfulRetries s
             end;
           attempts :=
             attempts s ++
               [ {| attempted := submission;
                    sent := posted r;
                    contextId := cid |} ] |}
  end.

(** [successfulRetries.includes(id)]. *)
Definition includes (ids : list string) (x : string) : bool :=
  existsb (String.eqb x) ids.

Record RetryResult := {
  retried : list RetryAttempt;
  after_retry : Storage
}.

(** How [chrome.storage.local] answers the two calls that
    [retryFailedSubmissions] makes itself: the [get] of the queue and the
    final [set]. *)
Record DrainStorage := {
  getRejects : bool;
  setRejects : bool
}.

Definition storage_answers : DrainStorage :=
  {| getRejects := false; setRejects := false |}.

(** [retryFailedSubmissions].  When its [get] rejects, the [catch] logs
    and nothing is attempted; when its final [set] rejects, the store
    stays as the resubmissions left it. *)
Definition retryFailedSubmissions (storage : DrainStorage) (envs : nat -> SubmitEnv)
    (st : Storage) : RetryResult :=
  if getRejects storage then {| retried := []; after_retry := st |}
  else
    let failedSubmissions := Js.or_empty (failed_submissions st) in
    if (length failedSubmissions =? 0)%nat then
      {| retried := []; after_retry := st |}
    else
      let s := retryLoop envs 0 failedSubmissions
                 {| retry_store := st; successfulRetries := []; attempts := [] |} in
      let remainingFailed :=
        List.filter (fun submission => negb (includes (successfulRetries s) (id submission)))
          failedSubmissions in
      {| retried := attempts s;
         after_retry :=
           if setRejects storage then retry_store s
           else set_failed_submissions remainingFailed (retry_store s) |}.

(** The POST requests a drain issued, in order. *)
Definition drain_posted (d : RetryResult) : list ContextData :=
  flat_map sent (retried d).

(** The persisted retry queue, as every reader sees it. *)
Definition retry_queue (st : Storage) : list FailedSubmission :=
  Js.or_empty (failed_submissions st).

(** The answer of [GET /insights] after conversion: anything that makes the
    [try] body of [getInsights] throw (a rejected [fetch], a status that is
    not 2xx, a body that cannot be parsed or converted), or the converted
    insights. *)
Inductive InsightsOutcome :=
| FetchFails
| FetchReturns (insights : list AIInsight).

(** [getInsights]; [now] is the [Date.now()] it reads (when caching on the
    success path, when testing freshness on the fallback path). *)
Definition getInsights (now : Z) (live : InsightsOutcome) (st : Storage)
    : list AIInsight * Storage :=
  match live with
  | FetchReturns insights =>
      (insights, set_cached_insights insights now st)
  | FetchFails =>
      (* [cached.cached_insights && Date.now() - cached.insights_cached_at < 3600000];
         with [insights_cached_at] absent the difference is [NaN] and the
         comparison is false *)
      match cached_insights st, insights_cached_at st with
      | Some cached, Some cachedAt =>
          if now - cachedAt <? 3600000 then (cached, st) else ([], st)
      | _, _ => ([], st)
      end
  end.

(** The record [storeFailedSubmission] pushes. *)
Definition failed_record (env : SubmitEnv) (workspace : WorkspaceCapture)
    (userId : string) (captureReason : CaptureReason) : FailedSubmission :=
  {| id := "failed_" +:+ failedSuffix env;
     workspace := workspace;
     userId := userId;
     captureReason := captureReason;
     failedAt := failedNow env;
     retryCount := 0 |}.

(** The POST of this call ends in a network error or in a status that is
    not 2xx. *)
Definition post_fails (env : SubmitEnv) : Prop :=
  match post env with
  | NetworkError => True
  | Response status _ => response_ok status = false
  end.

(** Whether a resubmission returned a correlation id. *)
Definition resubmitted (a : RetryAttempt) : bool :=
  match contextId a with Some _ => true | None => false end.

(** "For each entry in order, attempt submit using the stored snapshot,
    userId and reason": the calls of [submitContext] one after the other,
    each on the store the previous one left; [envs i] is what the [i]-th
    call reads. *)
Fixpoint resubmit_in_order (envs : nat -> SubmitEnv) (i : nat)
    (subs : list FailedSubmission) (st : Storage) : list SubmitResult :=
  match subs with
  | [] => []
  | e :: subs' =>
      let r := submitContext (envs i) (workspace e) (userId e) (captureReason e) st in
      r :: resubmit_in_order envs (S i) subs' (store r)
  end.

(** The store the last of these calls leaves. *)
Definition store_after (calls : list SubmitResult) (st : Storage) : Storage :=
  default st (last (map store calls)).

(** "A failing POST stores exactly one new FailedSubmission": the queue
    afterwards is the old one, cut to its last nine entries, followed by
    the new record. *)
Definition queues_one_record (env : SubmitEnv) (w : WorkspaceCapture) (u : string)
    (r : CaptureReason) (st : Storage) : Prop :=
  retry_queue (store (submitContext env w u r st))
    = Js.slice_last 9 (retry_queue st) ++ [failed_record env w u r].

(** "After the drain the queue holds exactly the entries whose
    resubmission did not return a correlation id, in their order". *)
Definition keeps_exactly_unsent (d : RetryResult) : Prop :=
  retry_queue (after_retry d)
    = map attempted (List.filter (fun a => negb (resubmitted a)) (retried d)).

(** The fallback of [getInsights] read as "the cache is served while it is
    at most one hour old". *)
Definition cache_served_up_to_one_hour (now : Z) (st : Storage) : Prop :=
  forall cached cachedAt,
    cached_insights st = Some cached -> insights_cached_at st = Some cachedAt ->
    now - cachedAt <= 3600000 ->
    (getInsights now FetchFails st).1 = cached.

(** *** Sample data *)

Definition sample_workspace : WorkspaceCapture :=
  {| timestamp := 1700000000000;
     windows :=
       [ {| windowId := 1; activeTabId := 7;
            tabs := [ {| tabId := 7; isActive := true;
                         snapshot := {| url := "https://example.org/";
                                        title := "Example";
                                        pageTimestamp := 1700000000000;
                                        type := General;
                                        data := None |} |} ] |} ] |}.

(** A call made at 12 s on the clock whose POST is answered as [p]. *)
Definition sample_env (p : PostOutcome) (suffix : string) : SubmitEnv :=
  {| checkNow := 12000;
     correlationSuffix := suffix;
     post := p;
     updateNow := 12005;
     failedSuffix := suffix;
     failedNow := 12005;
     storageRejects := false |}.

(** The same call with a [chrome.storage.local] that rejects when the
    failed submission is to be stored. *)
Definition rejecting_env (p : PostOutcome) (suffix : string) : SubmitEnv :=
  {| checkNow := 12000;
     correlationSuffix := suffix;
     post := p;
     updateNow := 12005;
     failedSuffix := suffix;
     failedNow := 12005;
     storageRejects := true |}.

Definition queued (n : Z) : FailedSubmission :=
  {| id := "failed_" +:+ Js.show_int n;
     workspace := sample_workspace;
     userId := "user_1";
     captureReason := Idle;
     failedAt := n;
     retryCount := 0 |}.

(** A store whose retry queue is full. *)
Definition full_queue : Storage :=
  set_failed_submissions (map queued [1; 2; 3; 4; 5; 6; 7; 8; 9; 10]) empty_storage.

(** A store with two queued submissions. *)
Definition two_queued : Storage :=
  set_failed_submissions [queued 1; queued 2] empty_storage.

(** A store with two queued submissions that carry the same id. *)
Definition same_id_queued : Storage :=
  set_failed_submissions
    [ queued 1;
      {| id := id (queued 1);
         workspace := sample_workspace;
         userId := "user_2";
         captureReason := Manual;
         failedAt := 2;
         retryCount := 0 |} ]
    empty_storage.

(** The first resubmission is accepted, every later one meets a network
    error. *)
Definition first_succeeds (i : nat) : SubmitEnv :=
  match i with
  | O => sample_env (Response 200 true) "a"
  | S _ => {| checkNow := 60000; correlationSuffix := "b"; post := NetworkError;
              updateNow := 60000; failedSuffix := "b"; failedNow := 60000;
              storageRejects := false |}
  end.

Definition sample_insight : AIInsight :=
  {| insightId := "c-1"; insightTitle := "Resume the draft" |}.

(** Insights cached at instant [0]. *)
Definition cache_from_zero : Storage :=
  set_cached_insights [sample_insight] 0 empty_storage.

(** *** Sequences of operations on the retry queue *)

Inductive QueueOp :=
| OpSubmit (env : SubmitEnv) (workspace : WorkspaceCapture) (userId : string)
    (captureReason : CaptureReason)
| OpRetry (storage : DrainStorage) (envs : nat -> SubmitEnv).

Definition run_op (op : QueueOp) (st : Storage) : Storage :=
  match op with
  | OpSubmit env w u r => store (submitContext env w u r st)
  | OpRetry storage envs => after_retry (retryFailedSubmissions storage envs st)
  end.

Definition run_ops (ops : list QueueOp) (st : Storage) : Storage :=
  fold_left (fun st op => run_op op st) ops st.

End AwsService.

(** ** Submission after a capture ([background.ts], [submitWorkspaceToAWS]) *)

Module Submitter.

Import RateLimiter AwsService.

(** The answer of [GET /health] as [checkHealth] sees it: anything that
    makes its [try] body throw, or a parsed body with its [ok] member. *)
Inductive HealthOutcome :=
| HealthFails
| HealthResponds (ok : bool).

Inductive HealthStatus := Healthy | Unhealthy.

(** [checkHealth]: [null] on failure, else the status. *)
Definition checkHealth (h : HealthOutcome) : option HealthStatus :=
  match h with
  | HealthFails => None
  | HealthResponds ok => Some (if ok then Healthy else Unhealthy)
  end.

(** What one call of [submitWorkspaceToAWS] reads from the outside world. *)
Record GateEnv := {
  gateNow : Z;                     (* [Date.now()] in the first [shouldSubmitContext] *)
  settingsUserId : option string;  (* [settings.userId] from [chrome.storage.sync] *)
  health : HealthOutcome;
  submitEnv : SubmitEnv
}.

Record GateResult := {
  healthProbes : nat;              (* calls of [checkHealth] *)
  gate_posted : list ContextData;  (* the POST requests issued *)
  scheduledFetch : option string;  (* the context id handed to [setTimeout], if any *)
  gate_store : Storage
}.

(** [!settings.userId]: the id is missing or empty. *)
Definition usable_user (u : option string) : option string :=
  match u with
  | Some s => if Js.truthy_string s then Some s else None
  | None => None
  end.

(** [submitWorkspaceToAWS]. *)
Definition submitWorkspaceToAWS (env : GateEnv) (workspace : WorkspaceCapture)
    (st : Storage) : GateResult :=
  if negb (shouldSubmitContext (gateNow env) st) then
    {| healthProbes := 0; gate_posted := []; scheduledFetch := None; gate_store := st |}
  else
    match usable_user (settingsUserId env) with
    | None =>
        {| healthProbes := 0; gate_posted := []; scheduledFetch := None; gate_store := st |}
    | Some userId =>
        match checkHealth (health env) with
        | Some Healthy =>
            let r := submitContext (submitEnv env) workspace userId Idle st in
            {| healthProbes := 1;
               gate_posted := posted r;
               scheduledFetch := truthy_context_id (returned r);
               gate_store := store r |}
        | _ =>
            {| healthProbes := 1; gate_posted := []; scheduledFetch := None; gate_store := st |}
        end
    end.

(** A gate that lets the submission through with a healthy endpoint. *)
Definition open_gate (now : Z) (env : SubmitEnv) : GateEnv :=
  {| gateNow := now; settingsUserId := Some "user_1";
     health := HealthResponds true; submitEnv := env |}.

(** The gate of a submission made at [now] by a known user to a healthy
    endpoint that accepts the POST five milliseconds later. *)
Definition submitting_gate (now : Z) : GateEnv :=
  {| gateNow := now; settingsUserId := Some "user_1";
     health := HealthResponds true;
     submitEnv := {| checkNow := now; correlationSuffix := "a";
                     post := Response 200 true; updateNow := now + 5;
                     failedSuffix := "a"; failedNow := now + 5;
                     storageRejects := false |} |}.

(** A gate that stops the submission: no user id is stored. *)
Definition closed_gate (now : Z) : GateEnv :=
  {| gateNow := now; settingsUserId := None;
     health := HealthFails; submitEnv := sample_env NetworkError "x" |}.

(** The three ways in which [submitWorkspaceToAWS] gives up before it
    calls [submitContext]. *)
Definition gate_closed (env : GateEnv) (st : Storage) : Prop :=
  shouldSubmitContext (gateNow env) st = false \/
  usable_user (settingsUserId env) = None \/
  checkHealth (health env) <> Some Healthy.

End Submitter.

(** ** Workspace capture ([background.ts], [captureWorkspace]) *)

Module Capture.

Import AwsService Submitter.

(** A tab as [chrome.windows.getAll({populate: true})] reports it. *)
Record ChromeTab := {
  tab_id : option Z;
  tab_address : option string;
  tab_active : bool
}.

Record ChromeWindow := {
  window_id : Z;
  window_tabs : option (list ChromeTab)
}.

(** [!tab.id]: the id is missing or is [0]. *)
Definition usable_id (tab : ChromeTab) : option Z :=
  match tab_id tab with
  | Some i => if i =? 0 then None else Some i
  | None => None
  end.

(** [tab.url?.startsWith("http")]. *)
Definition http_address (tab : ChromeTab) : bool :=
  match tab_address tab with
  | Some u => String.prefix "http" u
  | None => false
  end.

(** The tabs the loop does not skip: the negation of
    [!tab.id || !tab.url?.startsWith("http")]. *)
Definition eligible (tab : ChromeTab) : bool :=
  match usable_id tab with
  | Some _ => http_address tab
  | None => false
  end.

(** The two browser calls the capture depends on.
    - [chrome.scripting.executeScript] on a tab: it throws, or it returns
      an injection result that is empty ([None]) or carries the page's
      snapshot.
    - [chrome.tabs.captureVisibleTab] on a window: it throws, or it
      returns a data URL (possibly empty). *)
Class Browser := {
  executeScript : Z -> Completion (option PageSnapshot);
  captureVisibleTab : Z -> Completion string
}.

Section Capturing.

Context {browser : Browser}.

(** Extraction yields a snapshot for this tab. *)
Definition extracted (tab : ChromeTab) : option PageSnapshot :=
  match usable_id tab with
  | Some i =>
      match executeScript i with
      | Normal (Some result) => Some result
      | Normal None => None
      | Throw _ => None
      end
  | None => None
  end.

(** The body of the loop over [window.tabs]. *)
Definition captureTab (windowSnapshot : WindowSnapshot) (tab : ChromeTab) : WindowSnapshot :=
  match usable_id tab with
  | None => windowSnapshot                       (* continue *)
  | Some i =>
      if negb (http_address tab) then windowSnapshot  (* continue *)
      else
        match executeScript i with
        | Normal (Some result) =>
            {| windowId := windowId windowSnapshot;
               activeTabId := if tab_active tab then i else activeTabId windowSnapshot;
               tabs := tabs windowSnapshot ++
                         [ {| tabId := i; isActive := tab_active tab; snapshot := result |} ] |}
        | Normal None => windowSnapshot          (* no result from the tab *)
        | Throw _ => windowSnapshot              (* catch: the tab is skipped *)
        end
  end.

(** [activeTab?.snapshot.data?.screenshot === null]. *)
Definition awaits_screenshot (activeTab : option TabSnapshot) : bool :=
  match activeTab with
  | Some t =>
      match data (snapshot t) with
      | Some d => match screenshot d with ShotNull => true | _ => false end
      | None => false
      end
  | None => false
  end.

(** [activeTab.snapshot.data.screenshot = filename], seen through the array
    [windowSnapshot.tabs] that holds the same object: the first tab with
    [isActive] is the one [find] returned. *)
Definition with_screenshot (filename : string) (t : TabSnapshot) : TabSnapshot :=
  {| tabId := tabId t;
     isActive := isActive t;
     snapshot :=
       {| url := url (snapshot t);
          title := title (snapshot t);
          pageTimestamp := pageTimestamp (snapshot t);
          type := type (snapshot t);
          data := Some {| screenshot := ShotKey filename |} |} |}.

Fixpoint set_active_screenshot (filename : string) (l : list TabSnapshot) : list TabSnapshot :=
  match l with
  | [] => []
  | t :: l' =>
      if isActive t then with_screenshot filename t :: l'
      else t :: set_active_screenshot filename l'
  end.

(** What processing one window leaves behind. *)
Record WindowResult := {
  windowSnapshot : WindowSnapshot;
  screenshotCalls : list Z;            (* windows passed to [captureVisibleTab] *)
  blobs : list (string * string)       (* [chrome.storage.local.set({[filename]: image})] *)
}.

(** The body of the loop over [windows], for a window that has tabs, up to
    the test [windowSnapshot.tabs.length]. *)
Definition captureWindow (captureTimestamp : Z) (id : Z) (window_tabs : list ChromeTab)
    : WindowResult :=
  let ws := fold_left captureTab window_tabs
              {| windowId := id; activeTabId := -1; tabs := [] |} in
  let activeTab := List.find isActive (tabs ws) in
  if awaits_screenshot activeTab then
    match activeTab, captureVisibleTab id with
    | Some t, Normal image =>
        if Js.truthy_string image then
          let filename :=
            "img_" +:+ Js.show_int captureTimestamp +:+ "_" +:+ Js.show_int (tabId t) in
          {| windowSnapshot :=
               {| windowId := windowId ws;
                  activeTabId := activeTabId ws;
                  tabs := set_active_screenshot filename (tabs ws) |};
             screenshotCalls := [id];
             blobs := [(filename, image)] |}
        else {| windowSnapshot := ws; screenshotCalls := [id]; blobs := [] |}
    | _, _ =>
        (* catch: the screenshot failed *)
        {| windowSnapshot := ws; screenshotCalls := [id]; blobs := [] |}
    end
  else {| windowSnapshot := ws; screenshotCalls := []; blobs := [] |}.

Record CaptureState := {
  captured : list WindowSnapshot;      (* [workspace.windows] *)
  calls : list Z;
  written : list (string * string);
  capture_store : Storage
}.

Definition store_blob (st : Storage) (b : string * string) : Storage :=
  set_entries (<[ b.1 := ItemImage b.2 ]> (entries st)) st.

(** The body of the loop over [windows]. *)
Definition captureStep (captureTimestamp : Z) (s : CaptureState) (window : ChromeWindow)
    : CaptureState :=
  match window_tabs window with
  | None => s                                  (* [!window.tabs?.length] *)
  | Some [] => s
  | Some window_tabs =>
      let r := captureWindow captureTimestamp (window_id window) window_tabs in
      {| captured :=
           match tabs (windowSnapshot r) with
           | [] => captured s
           | _ :: _ => captured s ++ [windowSnapshot r]
           end;
         calls := calls s ++ screenshotCalls r;
         written := written s ++ blobs r;
         capture_store := fold_left store_blob (blobs r) (capture_store s) |}
  end.

Record CaptureResult := {
  workspaceCapture : WorkspaceCapture;
  captureVisibleTabCalls : list Z;
  screenshotBlobs : list (string * string);
  submission : GateResult;     (* what [submitWorkspaceToAWS] did *)
  persisted : Storage          (* [chrome.storage.local] when the capture returns *)
}.

(** [captureWorkspace]: the loop over the windows, the write of
    [workspace_<timestamp>], and the submission; [now] is the [Date.now()]
    that stamps the workspace and [service] is what
    [submitWorkspaceToAWS] reads from the outside world. *)
Definition captureWorkspace (service : GateEnv) (now : Z) (windows : list ChromeWindow)
    (st : Storage) : CaptureResult :=
  let s := fold_left (captureStep now) windows
             {| captured := []; calls := []; written := []; capture_store := st |} in
  let workspace := {| timestamp := now; windows := captured s |} in
  let workspaceKey := "workspace_" +:+ Js.show_int (timestamp workspace) in
  let saved :=
    set_entries (<[ workspaceKey := ItemWorkspace workspace ]> (entries (capture_store s)))
      (capture_store s) in
  let submitted := submitWorkspaceToAWS service workspace saved in
  {| workspaceCapture := workspace;
     captureVisibleTabCalls := calls s;
     screenshotBlobs := written s;
     submission := submitted;
     persisted := gate_store submitted |}.

(** What one tab adds to [windowSnapshot.tabs]. *)
Definition snapshot_of (tab : ChromeTab) : list TabSnapshot :=
  match usable_id tab, eligible tab, extracted tab with
  | Some i, true, Some result =>
      [ {| tabId := i; isActive := tab_active tab; snapshot := result |} ]
  | _, _, _ => []
  end.

(** The tab is eligible and its extraction yields a snapshot. *)
Definition captures (tab : ChromeTab) : bool :=
  eligible tab && bool_decide (is_Some (extracted tab)).

(** The result of the loop body for a window, when the window has tabs. *)
Definition window_result (captureTimestamp : Z) (window : ChromeWindow) : option WindowResult :=
  match window_tabs window with
  | None => None
  | Some [] => None
  | Some l => Some (captureWindow captureTimestamp (window_id window) l)
  end.

(** What one window adds to [workspace.windows], to the calls of
    [captureVisibleTab] and to the stored blobs. *)
Definition kept (captureTimestamp : Z) (window : ChromeWindow) : list WindowSnapshot :=
  match window_result captureTimestamp window with
  | Some r =>
      match tabs (windowSnapshot r) with
      | [] => []
      | _ :: _ => [windowSnapshot r]
      end
  | None => []
  end.

Definition shots (captureTimestamp : Z) (window : ChromeWindow) : list Z :=
  match window_result captureTimestamp window with
  | Some r => screenshotCalls r
  | None => []
  end.

Definition stored (captureTimestamp : Z) (window : ChromeWindow) : list (string * string) :=
  match window_result captureTimestamp window with
  | Some r => blobs r
  | None => []
  end.

(** No active tab of the window is captured: each one is skipped or its
    extraction fails. *)
Definition active_tab_lost (window : ChromeWindow) : Prop :=
  Forall (fun tab => tab_active tab = true -> captures tab = false)
    (default [] (window_tabs window)).

(** The eligible tabs of a window, and those among them whose extraction
    fails. *)
Definition eligible_tabs (window : ChromeWindow) : list ChromeTab :=
  List.filter eligible (default [] (window_tabs window)).

Definition failed_tabs (window : ChromeWindow) : list ChromeTab :=
  List.filter (fun tab => negb (bool_decide (is_Some (extracted tab)))) (eligible_tabs window).

(** The window keeps at least one tab. *)
Definition retained (window : ChromeWindow) : bool :=
  (length (failed_tabs window) <? length (eligible_tabs window))%nat.

(** "At most one screenshot blob per capture cycle". *)
Definition at_most_one_blob (r : CaptureResult) : Prop :=
  (length (screenshotBlobs r) <= 1)%nat.

End Capturing.

(** *** Sample browsers *)

Definition docs_page (u : string) : PageSnapshot :=
  {| url := u; title := "Notes - Google Docs"; pageTimestamp := 1700000000001;
     type := GoogleDocs; data := Some {| screenshot := ShotNull |} |}.

Definition plain_page (u : string) : PageSnapshot :=
  {| url := u; title := "Example"; pageTimestamp := 1700000000001;
     type := General; data := None |}.

Definition http_tab (i : Z) (active : bool) : ChromeTab :=
  {| tab_id := Some i; tab_address := Some "https://docs.google.com/document/d/1";
     tab_active := active |}.

Definition jpeg (w : Z) : Completion string := Normal "data:image/jpeg;base64,AAAA".

(** Every page is a Google document and every script call succeeds. *)
Definition all_docs : Browser :=
  {| executeScript := fun _ => Normal (Some (docs_page "https://docs.google.com/document/d/1"));
     captureVisibleTab := jpeg |}.

(** The script throws on tab 2 and succeeds elsewhere. *)
Definition tab_2_fails : Browser :=
  {| executeScript := fun i =>
       if i =? 2 then Throw "Cannot access contents of the page"
       else Normal (Some (plain_page "https://example.org/"));
     captureVisibleTab := jpeg |}.

(** The script throws on tab 11 and finds a Google document elsewhere. *)
Definition tab_11_fails : Browser :=
  {| executeScript := fun i =>
       if i =? 11 then Throw "Cannot access contents of the page"
       else Normal (Some (docs_page "https://docs.google.com/document/d/1"));
     captureVisibleTab := jpeg |}.

(** Two windows, each with one active tab. *)
Definition two_windows : list ChromeWindow :=
  [ {| window_id := 1; window_tabs := Some [http_tab 11 true] |};
    {| window_id := 2; window_tabs := Some [http_tab 21 true] |} ].

(** Two windows; the first has three tabs. *)
Definition three_and_one : list ChromeWindow :=
  [ {| window_id := 1;
       window_tabs := Some [http_tab 1 true; http_tab 2 false; http_tab 3 false] |};
    {| window_id := 2; window_tabs := Some [http_tab 4 true] |} ].

(** One window whose active tab is tab 11, beside a background tab. *)
Definition active_and_background : ChromeWindow :=
  {| window_id := 1; window_tabs := Some [http_tab 11 true; http_tab 12 false] |}.

End Capture.

(** ** Expiration sweep ([background.ts], [cleanupExpiredSnapshots]) *)

Module Sweep.

(** [DEFAULT_EXPIRATION.retentionMs]: seven days. *)
Definition retentionMs : Z := 7 * 24 * 60 * 60 * 1000.

Definition day : Z := 24 * 60 * 60 * 1000.

(** The keys pushed by
    [tab.snapshot.data?.screenshot && toBeDeleted.push(...)] over the tabs
    of all windows. *)
Definition screenshot_of (tab : TabSnapshot) : list string :=
  match data (snapshot tab) with
  | Some d =>
      match screenshot d with
      | ShotKey k => if Js.truthy_string k then [k] else []
      | _ => []
      end
  | None => []
  end.

Definition screenshot_keys (workspace : WorkspaceCapture) : list string :=
  flat_map (fun window => flat_map screenshot_of (tabs window)) (windows workspace).

Section Cleanup.

(** The test of the inner branch, [key.match(/img_(\d+)_/)] with
    [parseInt(match[1]) < cutoff].  It is kept abstract: the branch sits
    under [key.startsWith("workspace_")] and is never taken
    (see [inner_branch_dead]). *)
Variable img_older_than : string -> Z -> bool.

(** The body of the loop over [Object.entries(allData)]: what one entry
    adds to [toBeDeleted]. *)
Definition marked (cutoff : Z) (entry : string * Item) : list string :=
  let key := entry.1 in
  if String.prefix "workspace_" key then
    let inner :=
      if String.prefix "img_" key then
        if img_older_than key cutoff then [key] else []
      else [] in
    match entry.2 with
    | ItemWorkspace workspace =>
        if timestamp workspace <? cutoff then key :: screenshot_keys workspace
        else inner
    | ItemImage _ =>
        (* [workspace.timestamp] is [undefined]; the comparison is false *)
        inner
    end
  else [].

(** [chrome.storage.local.remove(keys)], on the entries stored under
    run-time keys and on the fixed keys: a fixed key that is named is
    removed like any other. *)
Definition remove_keys (keys : list string) (m : gmap string Item) : gmap string Item :=
  foldr delete m keys.

Definition unless_named {A} (key name : string) (v : option A) : option A :=
  if String.eqb key name then None else v.

Definition forget (key : string) (st : Storage) : Storage :=
  {| last_aws_submission := unless_named key "last_aws_submission" (last_aws_submission st);
     aws_requests_minute := unless_named key "aws_requests_minute" (aws_requests_minute st);
     aws_requests_hour := unless_named key "aws_requests_hour" (aws_requests_hour st);
     aws_minute_start := unless_named key "aws_minute_start" (aws_minute_start st);
     aws_hour_start := unless_named key "aws_hour_start" (aws_hour_start st);
     failed_submissions := unless_named key "failed_submissions" (failed_submissions st);
     cached_insights := unless_named key "cached_insights" (cached_insights st);
     insights_cached_at := unless_named key "insights_cached_at" (insights_cached_at st);
     entries := entries st |}.

Definition remove (keys : list string) (st : Storage) : Storage :=
  set_entries (remove_keys keys (entries st)) (foldr forget st keys).

Record SweepResult := {
  removeCalls : list (list string);   (* the calls of [chrome.storage.local.remove] *)
  swept : Storage
}.

(** [cleanupExpiredSnapshots]; [now] is the [Date.now()] it reads.  The
    fixed keys of the store are part of [allData] as well; none of them
    starts with [workspace_], so the loop passes over them. *)
Definition cleanupExpiredSnapshots (now : Z) (st : Storage) : SweepResult :=
  let cutoff := now - retentionMs in
  let allData := map_to_list (entries st) in
  let toBeDeleted := flat_map (marked cutoff) allData in
  if (length toBeDeleted =? 0)%nat then {| removeCalls := []; swept := st |}
  else
    {| removeCalls := [toBeDeleted];
       swept := remove toBeDeleted st |}.

(** A snapshot persisted under a [workspace_] key. *)
Definition persisted_snapshot (st : Storage) (key : string) (w : WorkspaceCapture) : Prop :=
  entries st !! key = Some (ItemWorkspace w) /\ String.prefix "workspace_" key = true.

(** No snapshot older than [cutoff] is stored under [x] or references [x]
    as a screenshot. *)
Definition unclaimed_by_expired (cutoff : Z) (st : Storage) (x : string) : Prop :=
  forall key' w', persisted_snapshot st key' w' -> timestamp w' < cutoff ->
    x <> key' /\ x ∉ screenshot_keys w'.

End Cleanup.

(** *** A sample store *)

Definition snapshot_with (ts : Z) (shot : string) : WorkspaceCapture :=
  {| timestamp := ts;
     windows :=
       [ {| windowId := 1; activeTabId := 5;
            tabs := [ {| tabId := 5; isActive := true;
                         snapshot := {| url := "https://docs.google.com/document/d/1";
                                        title := "Notes - Google Docs";
                                        pageTimestamp := ts;
                                        type := GoogleDocs;
                                        data := Some {| screenshot := ShotKey shot |} |} |} ] |} ] |}.

Definition sweep_now : Z := 1700000000000.
Definition eight_days_ago : Z := sweep_now - 8 * day.
Definition six_days_ago : Z := sweep_now - 6 * day.

Definition workspace_key (ts : Z) : string := "workspace_" +:+ Js.show_int ts.
Definition img_key (ts tab : Z) : string :=
  "img_" +:+ Js.show_int ts +:+ "_" +:+ Js.show_int tab.

(** Two snapshots, eight and six days old, each with its screenshot. *)
Definition old_and_recent : Storage :=
  set_entries
    (<[ workspace_key eight_days_ago :=
          ItemWorkspace (snapshot_with eight_days_ago (img_key eight_days_ago 5)) ]>
     (<[ img_key eight_days_ago 5 := ItemImage "data:image/jpeg;base64,AAAA" ]>
     (<[ workspace_key six_days_ago :=
          ItemWorkspace (snapshot_with six_days_ago (img_key six_days_ago 5)) ]>
     (<[ img_key six_days_ago 5 := ItemImage "data:image/jpeg;base64,BBBB" ]> ∅))))
    empty_storage.

(** A stand-in for the test of the inner branch. *)
Definition never_older (key : string) (cutoff : Z) : bool := false.

End Sweep.

(** ** Idle monitor ([background.ts], the two listeners and the
       [isCapturing] flag)

    JavaScript runs one task at a time; an [async] function runs until
    its next [await] and is resumed later.  A state of the monitor is the
    flag, the [isActive] setting and, for every listener invocation, the
    [await] at which it is suspended. *)

Module IdleMonitor.

Inductive IdleState := StateActive | StateIdle | StateLocked.

(** Where a listener invocation is suspended. *)
Inductive Pc :=
| AwaitSettings (newState : IdleState) (settingsIsActive : bool)
    (* [onStateChanged]: [await chrome.storage.sync.get(...)], with the
       [isActive] the read was issued against *)
| AwaitTrackingBadge
    (* the test passed: [await updateExtensionBadge("tracking")] *)
| AwaitCapturingStatus
    (* [await sendCaptureStatus("capturing")] *)
| InCapture
    (* inside [captureWorkspace], after [isCapturing = true] *)
| AwaitDisplay
    (* a branch that only updates the badge and the status *)
| Finished.

Record Monitor := {
  isCapturing : bool;
  isActiveSetting : bool;
  tasks : list Pc
}.

Definition initial : Monitor :=
  {| isCapturing := false; isActiveSetting := true; tasks := [] |}.

Inductive Trigger :=
| IdleChanged (newState : IdleState)
| ManualCapture
| ToggleCapture (isActive : bool).

Inductive Event :=
| Arrive (t : Trigger)     (* the listener starts and runs to its first [await] *)
| Resume (i : nat)         (* invocation [i] runs to its next [await] *)
| Complete (i : nat).      (* the capture run by invocation [i] reaches its end *)

Definition is_idle (s : IdleState) : bool :=
  match s with StateIdle => true | _ => false end.

Definition is_active (s : IdleState) : bool :=
  match s with StateActive => true | _ => false end.

Definition arrive (t : Trigger) (m : Monitor) : Monitor :=
  match t with
  | IdleChanged newState =>
      {| isCapturing := isCapturing m;
         isActiveSetting := isActiveSetting m;
         tasks := tasks m ++ [AwaitSettings newState (isActiveSetting m)] |}
  | ManualCapture =>
      if negb (isCapturing m) then
        (* [captureWorkspace()] is entered in the same turn *)
        {| isCapturing := true;
           isActiveSetting := isActiveSetting m;
           tasks := tasks m ++ [InCapture] |}
      else
        {| isCapturing := isCapturing m;
           isActiveSetting := isActiveSetting m;
           tasks := tasks m ++ [Finished] |}
  | ToggleCapture a =>
      {| isCapturing := false;
         isActiveSetting := a;
         tasks := tasks m ++ [AwaitDisplay] |}
  end.

Definition resume (i : nat) (m : Monitor) : Monitor :=
  match tasks m !! i with
  | Some (AwaitSettings newState settingsIsActive) =>
      (* [settings] is the object read when the listener started;
         [isCapturing] is read now *)
      let next :=
        if is_idle newState && negb (isCapturing m) && settingsIsActive then AwaitTrackingBadge
        else if is_active newState then
          if settingsIsActive then AwaitDisplay else Finished
        else if negb settingsIsActive then AwaitDisplay
        else Finished in
      {| isCapturing := isCapturing m;
         isActiveSetting := isActiveSetting m;
         tasks := <[ i := next ]> (tasks m) |}
  | Some AwaitTrackingBadge =>
      {| isCapturing := isCapturing m;
         isActiveSetting := isActiveSetting m;
         tasks := <[ i := AwaitCapturingStatus ]> (tasks m) |}
  | Some AwaitCapturingStatus =>
      (* [captureWorkspace()] is entered: [isCapturing = true] *)
      {| isCapturing := true;
         isActiveSetting := isActiveSetting m;
         tasks := <[ i := InCapture ]> (tasks m) |}
  | Some InCapture => m          (* one of the [await]s inside the capture *)
  | Some AwaitDisplay =>
      {| isCapturing := isCapturing m;
         isActiveSetting := isActiveSetting m;
         tasks := <[ i := Finished ]> (tasks m) |}
  | Some Finished => m
  | None => m
  end.

Definition complete (i : nat) (m : Monitor) : Monitor :=
  match tasks m !! i with
  | Some InCapture =>
      (* the last statement of [captureWorkspace], or its [catch] *)
      {| isCapturing := false;
         isActiveSetting := isActiveSetting m;
         tasks := <[ i := Finished ]> (tasks m) |}
  | _ => m
  end.

Definition step (m : Monitor) (e : Event) : Monitor :=
  match e with
  | Arrive t => arrive t m
  | Resume i => resume i m
  | Complete i => complete i m
  end.

Definition run (es : list Event) : Monitor := fold_left step es initial.

Definition in_capture (p : Pc) : bool :=
  match p with InCapture => true | _ => false end.

(** The capture cycles in flight. *)
Definition in_flight (m : Monitor) : nat :=
  length (List.filter in_capture (tasks m)).

(** The interleavings the single-flight guard is meant for: idle/active
    transitions and manual triggers. *)
Definition guarded_event (e : Event) : bool :=
  match e with
  | Arrive (ToggleCapture _) => false
  | _ => true
  end.

(** Interleavings made of manual triggers only. *)
Definition manual_only (e : Event) : bool :=
  match e with
  | Arrive ManualCapture => true
  | Arrive _ => false
  | _ => true
  end.

(** An idle transition whose listener is still waiting for the badge
    update when a manual trigger arrives. *)
Definition idle_then_manual : list Event :=
  [ Arrive (IdleChanged StateIdle);  (* listener 0 awaits the settings *)
    Resume 0;                        (* test passes; awaits the badge *)
    Arrive ManualCapture;            (* listener 1: flag still false; capture starts *)
    Resume 0;                        (* listener 0 awaits the status broadcast *)
    Resume 0 ].                      (* listener 0 enters [captureWorkspace] *)

End IdleMonitor.

(** ** More of the rate limiter, the submission client and the cache *)

Module AwsServiceMore.

Import RateLimiter AwsService.

(** [requestsThisMinute] and [requestsThisHour] as [shouldSubmitContext]
    and [updateRateLimitCounters] compute them before comparing or
    incrementing: the stored counter, or [0] once the window has
    elapsed. *)
Definition requests_this_minute (now : Z) (st : Storage) : Z :=
  let minuteStart := Js.or_num (aws_minute_start st) now in
  let requestsThisMinute := Js.or_num (aws_requests_minute st) 0 in
  if now - minuteStart >=? 60000 then 0 else requestsThisMinute.

Definition requests_this_hour (now : Z) (st : Storage) : Z :=
  let hourStart := Js.or_num (aws_hour_start st) now in
  let requestsThisHour := Js.or_num (aws_requests_hour st) 0 in
  if now - hourStart >=? 3600000 then 0 else requestsThisHour.

(** The store a serial run ends in (the run is [serial]). *)
Fixpoint serial_store (st : Storage) (cs : list Cycle) : Storage :=
  match cs with
  | [] => st
  | c :: cs' =>
      if shouldSubmitContext (checkAt c) st then
        serial_store (updateRateLimitCounters (updateAt c) st) cs'
      else serial_store st cs'
  end.

(** The minute window as the code reads it from the store. *)
Definition minute_start_of (st : Storage) : Z := Js.or_num (aws_minute_start st) 0.
Definition minute_count_of (st : Storage) : Z := Js.or_num (aws_requests_minute st) 0.

(** What a serial run keeps true of the store: the windows started no
    later than the last submission, the counters are within their caps,
    and the submissions counted in the minute window are 12 s apart. *)
Definition windows_consistent (st : Storage) : Prop :=
  0 <= minute_start_of st <= last_of st /\
  0 <= minute_count_of st <= MAX_REQUESTS_PER_MINUTE /\
  (minute_start_of st = 0 -> minute_count_of st = 0) /\
  minute_start_of st + MIN_INTERVAL_MS * (minute_count_of st - 1) <= last_of st /\
  0 <= hour_start_of st <= last_of st /\
  0 <= hour_count_of st <= MAX_REQUESTS_PER_HOUR.

(** A serial run that starts at one minute on the clock and checks every
    5 s, each admitted check followed at once by its update. *)
Fixpoint every_5s (from : Z) (n : nat) : list Cycle :=
  match n with
  | O => []
  | S n' => {| checkAt := from; updateAt := from |} :: every_5s (from + 5000) n'
  end.

(** Every resubmission of a drain is made at 12 s on the clock and is
    accepted by the endpoint. *)
Definition all_accepted (i : nat) : SubmitEnv := sample_env (Response 200 true) "a".

(** An attempt that the limiter denied: nothing sent, nothing returned. *)
Definition denied (a : RetryAttempt) : Prop :=
  sent a = [] /\ resubmitted a = false.

(** A sequence of calls of [storeFailedSubmission]. *)
Record FailedCall := {
  call_env : SubmitEnv;
  call_workspace : WorkspaceCapture;
  call_user : string;
  call_reason : CaptureReason
}.

Definition record_of (c : FailedCall) : FailedSubmission :=
  failed_record (call_env c) (call_workspace c) (call_user c) (call_reason c).

(** The call's push was written: the storage answered. *)
Definition written (c : FailedCall) : bool := negb (storageRejects (call_env c)).

Definition push_all (cs : list FailedCall) (st : Storage) : Storage :=
  fold_left (fun st c =>
               storeFailedSubmission (call_env c) (call_workspace c) (call_user c)
                 (call_reason c) st) cs st.

(** Twelve failed calls, numbered by their suffix. *)
Definition twelve_failures : list FailedCall :=
  map (fun n => {| call_env := sample_env NetworkError (Js.show_int n);
                   call_workspace := sample_workspace;
                   call_user := "user_1";
                   call_reason := Idle |})
    [1; 2; 3; 4; 5; 6; 7; 8; 9; 10; 11; 12].

(** [getCachedInsights]. *)
Definition getCachedInsights (st : Storage) : list AIInsight :=
  Js.or_empty (cached_insights st).

(** *** [hashUrl] *)

(** [ToInt32]: the signed 32-bit integer congruent to [z]. *)
Definition to_int32 (z : Z) : Z := (z + 2 ^ 31) mod 2 ^ 32 - 2 ^ 31.

(** [a << n] for [0 <= n < 32]. *)
Definition shift_left32 (a n : Z) : Z := to_int32 (Z.shiftl (to_int32 a) n).

(** [a & b]. *)
Definition and32 (a b : Z) : Z := Z.land (to_int32 a) (to_int32 b).

(** One turn of the loop of [hashUrl]; [char] is [url.charCodeAt(i)].  The
    subtraction and the addition are on doubles and exact, the operands
    being well below 2^53. *)
Definition hash_step (hash char : Z) : Z :=
  let hash := shift_left32 hash 5 - hash + char in
  and32 hash hash.

(** The loop of [hashUrl] over the code units of the URL. *)
Definition hash_code (units : list Z) : Z := fold_left hash_step units 0.

(** The code units of a string of the model (one unit per character). *)
Definition char_codes (s : string) : list Z :=
  map (fun c => Z.of_N (N_of_ascii c)) (list_ascii_of_string s).

(** [n.toString(16)] for a non-negative integer. *)
Definition to_string_16 (n : Z) : string :=
  HexadecimalString.NilZero.string_of_uint (N.to_hex_uint (Z.to_N n)).

(** [hashUrl]. *)
Definition hashUrl (url : string) : string :=
  String.substring 0 8 (to_string_16 (Z.abs (hash_code (char_codes url)))).

(** The hash it is meant to be: the polynomial in 31 over the code
    units. *)
Definition polynomial_31 (units : list Z) : Z :=
  fold_left (fun h c => 31 * h + c) units 0.

(** [generateUrlHash]. *)
Definition generateUrlHash (workspace : WorkspaceCapture) : string :=
  let activeTabs := flat_map (fun window => List.filter isActive (tabs window))
                      (windows workspace) in
  match activeTabs with
  | t :: _ => hashUrl (url (snapshot t))
  | [] => "no-active-tab"
  end.

End AwsServiceMore.

(** ** History page ([history.ts], the functions that change the store) *)

Module History.

Import Sweep.

(** [deleteWorkspace]; [confirmed] is the answer to [confirm(...)] and
    [key] the [key] member that [loadWorkspaceHistory] attached. *)
Definition deleteWorkspace (confirmed : bool) (key : option string)
    (workspace : WorkspaceCapture) (st : Storage) : Storage :=
  if negb confirmed then st
  else
    let keysToDelete :=
      match key with
      | Some k => if Js.truthy_string k then [k] else []
      | None => []
      end in
    let keysToDelete := keysToDelete ++ screenshot_keys workspace in
    remove keysToDelete st.

(** [key.startsWith("workspace_") || key.startsWith("img_")]. *)
Definition history_key (key : string) : bool :=
  String.prefix "workspace_" key || String.prefix "img_" key.

(** [clearAllWorkspaces]; the two booleans are the answers to its two
    [confirm(...)] dialogs. *)
Definition clearAllWorkspaces (confirmed reconfirmed : bool) (st : Storage) : Storage :=
  if negb confirmed then st
  else if negb reconfirmed then st
  else
    let keysToDelete := List.filter history_key (map fst (map_to_list (entries st))) in
    remove keysToDelete st.

End History.

(** ** Start-up ([background.ts], [initializeExtension]) *)

Module Startup.





End Startup.

(** ** More of the capture *)

Module CaptureMore.

Import AwsService Capture.

(** The id and the [active] flag under which a tab enters the snapshot of
    its window, if it does. *)
Definition captured_as `{Browser} (tab : ChromeTab) : option (Z * bool) :=
  if captures tab then (fun i => (i, tab_active tab)) <$> usable_id tab else None.

(** [`img_${workspace.timestamp}_${activeTab.tabId}`]. *)
Definition blob_key (now tab : Z) : string :=
  "img_" +:+ Js.show_int now +:+ "_" +:+ Js.show_int tab.

(** [`workspace_${workspace.timestamp}`]. *)
Definition workspace_key (now : Z) : string := "workspace_" +:+ Js.show_int now.

(** The page script of this extension never fills in a screenshot key: its
    payloads carry [screenshot: null] or no [screenshot] member. *)
Definition bare_pages `{Browser} : Prop :=
  forall i p d k, executeScript i = Normal (Some p) -> data p = Some d ->
                  screenshot d <> ShotKey k.

End CaptureMore.

(** ** Sample stores for the sweep and the history page *)

Module SweepMore.

Import Sweep.

(** A store that holds one image, written thirty days before [sweep_now],
    and no snapshot. *)
Definition orphan_image : Storage :=
  set_entries
    (<[ img_key (sweep_now - 30 * day) 5 := ItemImage "data:image/jpeg;base64,CCCC" ]> ∅)
    empty_storage.

(** A stand-in for the test of the inner branch that always says
    "older". *)
Definition always_older (key : string) (cutoff : Z) : bool := true.

End SweepMore.

(** * Properties *)

(** ** Lists *)

Module ListFacts.

(** A function whose images over [l] are distinct is injective on [l]. *)
Lemma NoDup_map_eq {A B} (f : A -> B) (l : list A) (a b : A) :
  NoDup (map f l) -> In a l -> In b l -> f a = f b -> a = b.
Proof.
  induction l as [|x l IH]; simpl; [tauto|].
  intros Hnd [-> | Ha] [-> | Hb] E; try reflexivity.
  - apply NoDup_cons in Hnd as [Hx _]. exfalso. apply Hx.
    apply list_elem_of_In. rewrite E. now apply in_map.
  - apply NoDup_cons in Hnd as [Hx _]. exfalso. apply Hx.
    apply list_elem_of_In. rewrite <- E. now apply in_map.
  - apply NoDup_cons in Hnd as [_ Hnd]. now apply IH.
Qed.

End ListFacts.

(** ** Rate limiter *)

Module RateLimiterSpec.

Import RateLimiter.

Lemma or_num_default (o : option Z) (d : Z) :
  Js.or_num o d = if Js.or_num o 0 =? 0 then d else Js.or_num o 0.
Proof.
  destruct o as [v|]; simpl; [|reflexivity].
  destruct (v =? 0) eqn:E; simpl; [reflexivity|]. now rewrite E.
Qed.

(** What an admitting check establishes. *)
Lemma admitted_check now st :
  shouldSubmitContext now st = true ->
  last_of st + MIN_INTERVAL_MS <= now /\
  (hour_start_of st = 0 \/ now - hour_start_of st < 3600000 -> hour_count_of st < MAX_REQUESTS_PER_HOUR).
Proof.
  unfold shouldSubmitContext, last_of, hour_start_of, hour_count_of,
    MIN_INTERVAL_MS, MAX_REQUESTS_PER_HOUR, MAX_REQUESTS_PER_MINUTE.
  rewrite (or_num_default (aws_hour_start st) now).
  set (l := Js.or_num (last_aws_submission st) 0).
  set (hs := Js.or_num (aws_hour_start st) 0).
  set (c := Js.or_num (aws_requests_hour st) 0).
  intros H.
  destruct (now - l <? 12000) eqn:E1; [discriminate|].
  split; [lia|].
  destruct (_ >=? 5) in H; [discriminate|].
  intros Hw.
  destruct (hs =? 0) eqn:E0.
  - replace (now - now >=? 3600000) with false in H by lia.
    destruct (c >=? 20) eqn:E3; [discriminate|]. lia.
  - replace (now - hs >=? 3600000) with false in H by lia.
    destruct (c >=? 20) eqn:E3; [discriminate|]. lia.
Qed.

(** What an update persists. *)
Lemma updated_last now st : last_of (updateRateLimitCounters now st) = now.
Proof.
  unfold last_of, updateRateLimitCounters; simpl.
  destruct (now =? 0) eqn:E; lia.
Qed.

Lemma updated_hour now st :
  0 < now -> 0 <= hour_start_of st -> 0 <= hour_count_of st ->
  let reset := (hour_start_of st =? 0) || negb (now - hour_start_of st <? 3600000) in
  hour_start_of (updateRateLimitCounters now st)
    = (if reset then now else hour_start_of st) /\
  hour_count_of (updateRateLimitCounters now st)
    = (if hour_start_of st =? 0 then hour_count_of st + 1
       else if now - hour_start_of st <? 3600000 then hour_count_of st + 1 else 1).
Proof.
  intros Hnow Hhs Hc.
  unfold hour_start_of, hour_count_of, updateRateLimitCounters in *; simpl.
  rewrite (or_num_default (aws_hour_start st) now).
  set (hs := Js.or_num (aws_hour_start st) 0) in *.
  set (c := Js.or_num (aws_requests_hour st) 0) in *.
  destruct (hs =? 0) eqn:E0; simpl.
  - replace (now - now >=? 3600000) with false by lia.
    replace (now =? 0) with false by lia.
    replace (c + 1 =? 0) with false by lia. split; reflexivity.
  - destruct (now - hs <? 3600000) eqn:E1; simpl.
    + replace (now - hs >=? 3600000) with false by lia.
      rewrite E0. replace (c + 1 =? 0) with false by lia. split; reflexivity.
    + replace (now - hs >=? 3600000) with true by lia.
      replace (now =? 0) with false by lia. split; reflexivity.
Qed.



Lemma count_between_none (lo hi : Z) (l : list Z) :
  Forall (fun y => hi <= y) l -> count_between lo hi l = O.
Proof.
  intros Hl. unfold count_between.
  induction Hl as [|y l Hy _ IH]; simpl; [reflexivity|].
  replace (y <? hi) with false by lia. now rewrite andb_false_r.
Qed.









(** The order of [serial_events] is the order of [serial]. *)
Lemma admitted_serial_events st cs :
  admitted st (serial_events st cs) = map admittedAt (serial st cs).
Proof.
  revert st. induction cs as [|c cs IH]; intros st; simpl; [reflexivity|].
  destruct (shouldSubmitContext (checkAt c) st) eqn:E; simpl; rewrite E.
  - simpl. now rewrite IH.
  - apply IH.
Qed.


(** Two checks with no update in between are both admitted: the store
    learns of an admission only through [updateRateLimitCounters]. *)
Lemma back_to_back_checks_admitted :
  admitted empty_storage [CheckAt 12000; CheckAt 12001] = [12000; 12001].
Proof. reflexivity. Qed.

End RateLimiterSpec.

(** ** Submission client, retry queue, insight cache *)

Module AwsServiceSpec.

Import RateLimiter AwsService ListFacts.

Lemma slice_last_length {A} (n : nat) (l : list A) :
  (length (Js.slice_last n l) <= n)%nat.
Proof. unfold Js.slice_last. rewrite length_drop. lia. Qed.

(** Appending one element and keeping the last [S n] keeps the last [n] of
    the old list. *)
Lemma slice_last_snoc {A} (n : nat) (l : list A) (x : A) :
  Js.slice_last (S n) (l ++ [x]) = Js.slice_last n l ++ [x].
Proof.
  unfold Js.slice_last. rewrite length_app. simpl.
  replace (length l + 1 - S n)%nat with (length l - n)%nat by lia.
  rewrite drop_app.
  replace (length l - n - length l)%nat with O by lia. reflexivity.
Qed.

Lemma store_failed_queue env w u r st :
  retry_queue (storeFailedSubmission env w u r st)
    = if storageRejects env then retry_queue st
      else Js.slice_last 9 (retry_queue st) ++ [failed_record env w u r].
Proof.
  unfold storeFailedSubmission, retry_queue.
  destruct (storageRejects env); [reflexivity|]. simpl.
  now rewrite (slice_last_snoc 9).
Qed.

(** [submitContext] leaves the queue alone or pushes one record. *)
Lemma submit_queue env w u r st :
  let res := submitContext env w u r st in
  retry_queue (store res) = retry_queue st \/
  retry_queue (store res) = Js.slice_last 9 (retry_queue st) ++ [failed_record env w u r].
Proof.
  assert (Hpush : retry_queue (storeFailedSubmission env w u r st) = retry_queue st \/
                  retry_queue (storeFailedSubmission env w u r st)
                    = Js.slice_last 9 (retry_queue st) ++ [failed_record env w u r]).
  { rewrite store_failed_queue. destruct (storageRejects env); [now left|now right]. }
  unfold submitContext.
  destruct (shouldSubmitContext (checkNow env) st); cbn; [|now left].
  destruct (valid_time_value (timestamp w)); cbn; [|exact Hpush].
  destruct (post env) as [|status json]; cbn; [exact Hpush|].
  destruct (response_ok status); cbn; [|exact Hpush].
  destruct json; cbn; [now left|exact Hpush].
Qed.

(** C4 (as amended).  A call of [submitContext] that issued its POST and
    saw it end in a network error or a status outside 2xx returns [null]
    to its caller (it does not throw).  When [chrome.storage.local]
    answers, it leaves in the persisted queue the last 9 entries of the
    old queue followed by exactly one new record, built from the call's
    workspace, user id and reason with [retryCount] 0; when the storage
    rejects, the queue is left as it was. *)
Theorem failed_post_is_queued env w u r st :
  posted (submitContext env w u r st) <> [] ->
  post_fails env ->
  let res := submitContext env w u r st in
  returned res = Normal None /\
  retry_queue (store res)
    = if storageRejects env then retry_queue st
      else Js.slice_last 9 (retry_queue st) ++ [failed_record env w u r].
Proof.
  unfold post_fails, submitContext.
  destruct (shouldSubmitContext (checkNow env) st); cbn; [|congruence].
  destruct (valid_time_value (timestamp w)); cbn; [|congruence].
  destruct (post env) as [|status json]; cbn.
  - intros _ _. split; [reflexivity|apply store_failed_queue].
  - intros _ ->. cbn. split; [reflexivity|apply store_failed_queue].
Qed.

(** A network error on the first submission of a fresh store, with a
    storage that answers. *)
Lemma failed_post_is_queued_witness :
  let env := sample_env NetworkError "k3" in
  let res := submitContext env sample_workspace "user_1" Idle empty_storage in
  posted res <> [] /\ post_fails env /\
  returned res = Normal None /\
  retry_queue (store res) = [failed_record env sample_workspace "user_1" Idle].
Proof.
  assert (H1 : posted (submitContext (sample_env NetworkError "k3") sample_workspace
                         "user_1" Idle empty_storage) <> []) by (vm_compute; discriminate).
  assert (H2 : post_fails (sample_env NetworkError "k3")) by exact I.
  split; [exact H1|]. split; [exact H2|].
  exact (failed_post_is_queued _ _ _ _ _ H1 H2).
Defined.

(** C4 (as stated) fails when the storage rejects: the POST of the first
    submission on a fresh store meets a network error, [submitContext]
    returns [null], and no record is queued. *)
Lemma failed_post_lost_when_storage_rejects :
  posted (submitContext (rejecting_env NetworkError "k3") sample_workspace "user_1" Idle
            empty_storage) <> [] /\
  post_fails (rejecting_env NetworkError "k3") /\
  retry_queue (store (submitContext (rejecting_env NetworkError "k3") sample_workspace
                        "user_1" Idle empty_storage)) = [] /\
  ~ queues_one_record (rejecting_env NetworkError "k3") sample_workspace "user_1" Idle
      empty_storage.
Proof.
  split; [vm_compute; discriminate|]. split; [exact I|]. split; [reflexivity|].
  unfold queues_one_record. vm_compute. discriminate.
Qed.

(** The loop of [retryFailedSubmissions] is the chain of resubmissions:
    one attempt per entry, in order; what each attempt sent and returned
    is what [submitContext] sent and returned on the entry's stored
    workspace, user id and reason; the ids recorded are those of the
    entries whose attempt returned a correlation id. *)
Lemma retryLoop_attempts envs subs :
  forall i s,
    exists atts,
      attempts (retryLoop envs i subs s) = attempts s ++ atts /\
      map attempted atts = subs /\
      map sent atts = map posted (resubmit_in_order envs i subs (retry_store s)) /\
      map contextId atts
        = map (fun r => truthy_context_id (returned r))
            (resubmit_in_order envs i subs (retry_store s)) /\
      successfulRetries (retryLoop envs i subs s)
        = successfulRetries s ++ map (fun a => id (attempted a)) (List.filter resubmitted atts) /\
      retry_store (retryLoop envs i subs s)
        = store_after (resubmit_in_order envs i subs (retry_store s)) (retry_store s).
Proof.
  induction subs as [|e subs IH]; intros i s; cbn [retryLoop resubmit_in_order].
  - exists []. rewrite !app_nil_r. repeat split; constructor.
  - match goal with |- context [retryLoop envs (S i) subs ?s1] =>
      destruct (IH (S i) s1) as (atts & Ha & Hm & Hp & Hc & Hs & Hst) end.
    cbn [attempts successfulRetries retry_store] in Ha, Hp, Hc, Hs, Hst.
    match type of Ha with _ = (_ ++ [?a]) ++ _ => exists (a :: atts) end.
    rewrite Ha, Hs, Hst, <- !app_assoc.
    cbn [map attempted sent List.filter resubmitted contextId].
    split; [reflexivity|]. split; [now rewrite Hm|].
    split; [now rewrite Hp|]. split; [now rewrite Hc|]. split.
    + destruct (truthy_context_id _); cbn; now rewrite <- ?app_assoc.
    + unfold store_after. cbn [map]. rewrite last_cons.
      now destruct (last (map store (resubmit_in_order envs (S i) subs _))).
Qed.

Lemma includes_In (ids : list string) (x : string) :
  includes ids x = true <-> In x ids.
Proof.
  unfold includes. rewrite existsb_exists. split.
  - intros (y & Hy & E). apply String.eqb_eq in E. now subst.
  - intros H. exists x. split; [exact H|apply String.eqb_refl].
Qed.

(** With distinct ids, filtering the queue by "id not among the successful
    ones" keeps exactly the entries whose own attempt did not succeed. *)
Lemma remaining_by_id (atts : list RetryAttempt) :
  NoDup (map id (map attempted atts)) ->
  List.filter (fun e => negb (includes (map (fun a => id (attempted a))
                                          (List.filter resubmitted atts)) (id e)))
    (map attempted atts)
  = map attempted (List.filter (fun a => negb (resubmitted a)) atts).
Proof.
  intros Hnd.
  assert (Hin : forall a, In a atts ->
            includes (map (fun a => id (attempted a)) (List.filter resubmitted atts))
              (id (attempted a)) = resubmitted a).
  { intros a Ha. apply eq_true_iff_eq. rewrite includes_In, in_map_iff. split.
    - intros (b & E & Hb). apply filter_In in Hb as [Hb Hr].
      rewrite map_map in Hnd.
      now rewrite <- (NoDup_map_eq _ _ _ _ Hnd Hb Ha E).
    - intros Hr. exists a. split; [reflexivity|]. apply filter_In. now split. }
  rewrite List.filter_map_swap. f_equal.
  apply filter_ext_in. intros a Ha. now rewrite (Hin a Ha).
Qed.

(** What a drain does on a queue that is not empty, when its [get]
    answers. *)
Lemma drain_attempts storage envs st :
  getRejects storage = false ->
  let d := retryFailedSubmissions storage envs st in
  let calls := resubmit_in_order envs 0 (retry_queue st) st in
  map attempted (retried d) = retry_queue st /\
  map sent (retried d) = map posted calls /\
  map contextId (retried d) = map (fun r => truthy_context_id (returned r)) calls /\
  (setRejects storage = false ->
   retry_queue (after_retry d)
     = List.filter (fun e => negb (includes (map (fun a => id (attempted a))
                                              (List.filter resubmitted (retried d))) (id e)))
         (retry_queue st)) /\
  (retry_queue st <> [] ->
   after_retry d
     = if setRejects storage then store_after calls st
       else set_failed_submissions (retry_queue (after_retry d)) (store_after calls st)).
Proof.
  intros Hget. cbv zeta. unfold retryFailedSubmissions. rewrite Hget.
  fold (retry_queue st).
  destruct (length (retry_queue st) =? 0)%nat eqn:E.
  - apply Nat.eqb_eq in E. apply length_zero_iff_nil in E.
    cbn [retried after_retry]. rewrite E. cbn. repeat split. congruence.
  - destruct (retryLoop_attempts envs (retry_queue st) 0%nat
                {| retry_store := st; successfulRetries := []; attempts := [] |})
      as (atts & Ha & Hm & Hp & Hc & Hs & Hst).
    cbn [attempts successfulRetries retry_store app] in Ha, Hp, Hc, Hs, Hst.
    cbn [retried after_retry]. rewrite Ha, Hs, Hst.
    split; [exact Hm|]. split; [exact Hp|]. split; [exact Hc|]. split.
    + intros ->. unfold retry_queue at 1.
      cbn [set_failed_submissions failed_submissions Js.or_empty]. reflexivity.
    + intros _. destruct (setRejects storage); [reflexivity|].
      unfold retry_queue at 1.
      cbn [set_failed_submissions failed_submissions Js.or_empty]. reflexivity.
Qed.

(** C6 (as amended).  With a storage that answers the drain's [get] and
    its final [set], a drain of a queue whose entries carry distinct ids
    makes one resubmission per entry, in queue order: what the attempts
    sent and returned is what the calls of [submitContext] on each entry's
    stored workspace, user id and reason, one after the other, sent and
    returned.  Afterwards the persisted queue holds exactly the entries
    whose resubmission did not return a correlation id, in their original
    order; each of them is the stored record itself, so no [retryCount]
    has changed; and the other keys of the store are as the last
    resubmission left them. *)
Theorem drain_keeps_unsent storage envs st :
  getRejects storage = false ->
  setRejects storage = false ->
  NoDup (map id (retry_queue st)) ->
  let d := retryFailedSubmissions storage envs st in
  let calls := resubmit_in_order envs 0 (retry_queue st) st in
  map attempted (retried d) = retry_queue st /\
  map sent (retried d) = map posted calls /\
  drain_posted d = flat_map posted calls /\
  map contextId (retried d) = map (fun r => truthy_context_id (returned r)) calls /\
  retry_queue (after_retry d)
    = map attempted (List.filter (fun a => negb (resubmitted a)) (retried d)) /\
  (retry_queue st <> [] ->
   after_retry d
     = set_failed_submissions (retry_queue (after_retry d)) (store_after calls st)) /\
  Forall (fun e => In e (retry_queue st)) (retry_queue (after_retry d)) /\
  map retryCount (retry_queue (after_retry d))
    = map (fun a => retryCount (attempted a))
        (List.filter (fun a => negb (resubmitted a)) (retried d)).
Proof.
  intros Hget Hset Hnd d calls.
  destruct (drain_attempts storage envs st Hget) as (Hm & Hp & Hc & Hq & Hst).
  fold d in Hm, Hp, Hc, Hq, Hst. fold calls in Hp, Hc, Hst. specialize (Hq Hset).
  rewrite Hset in Hst.
  assert (Hkept : retry_queue (after_retry d)
            = map attempted (List.filter (fun a => negb (resubmitted a)) (retried d))).
  { rewrite Hq, <- Hm. apply remaining_by_id. now rewrite Hm. }
  split; [exact Hm|]. split; [exact Hp|]. split.
  { unfold drain_posted. rewrite !flat_map_concat_map. now rewrite Hp. }
  split; [exact Hc|]. split; [exact Hkept|]. split; [exact Hst|]. split.
  - rewrite Hkept, <- Hm. apply List.Forall_forall. intros e He.
    apply in_map_iff in He as (a & <- & Ha). apply filter_In in Ha as [Ha _].
    now apply in_map.
  - rewrite Hkept. now rewrite map_map.
Qed.

(** Two queued submissions; the first resubmission is accepted, the second
    meets a network error: both are sent, each with its entry's workspace,
    user id and reason, and the second entry is what remains. *)
Lemma drain_keeps_unsent_witness :
  NoDup (map id (retry_queue two_queued)) /\
  drain_posted (retryFailedSubmissions storage_answers first_succeeds two_queued)
    = [contextData "c-a" sample_workspace "user_1" Idle;
       contextData "c-b" sample_workspace "user_1" Idle] /\
  retry_queue (after_retry (retryFailedSubmissions storage_answers first_succeeds two_queued))
    = [queued 2].
Proof.
  assert (H : NoDup (map id (retry_queue two_queued))).
  { apply (bool_decide_unpack (NoDup (map id (retry_queue two_queued)))). vm_compute. exact I. }
  split; [exact H|].
  destruct (drain_keeps_unsent storage_answers first_succeeds two_queued eq_refl eq_refl H)
    as (_ & _ & Hp & _ & Hq & _ & _).
  split.
  - rewrite Hp. reflexivity.
  - rewrite Hq. reflexivity.
Defined.

(** C6 (as stated) fails on a queue with a repeated id: the first
    resubmission is accepted, the second meets a network error, and the
    final filter, which goes by id, removes both entries. *)
Lemma shared_id_entry_lost :
  map resubmitted
    (retried (retryFailedSubmissions storage_answers first_succeeds same_id_queued))
    = [true; false] /\
  retry_queue (after_retry (retryFailedSubmissions storage_answers first_succeeds
                              same_id_queued)) = [] /\
  ~ keeps_exactly_unsent
      (retryFailedSubmissions storage_answers first_succeeds same_id_queued).
Proof.
  split; [reflexivity|]. split; [reflexivity|].
  unfold keeps_exactly_unsent. vm_compute. discriminate.
Qed.

(** A drain whose [get] rejects attempts nothing and leaves the store as
    it is; a drain whose final [set] rejects leaves the store as the
    resubmissions left it. *)
Lemma drain_with_rejecting_storage storage envs st :
  (getRejects storage = true ->
   retried (retryFailedSubmissions storage envs st) = [] /\
   after_retry (retryFailedSubmissions storage envs st) = st) /\
  (getRejects storage = false -> setRejects storage = true -> retry_queue st <> [] ->
   after_retry (retryFailedSubmissions storage envs st)
     = retry_store (retryLoop envs 0 (retry_queue st)
                      {| retry_store := st; successfulRetries := []; attempts := [] |})).
Proof.
  unfold retryFailedSubmissions. fold (retry_queue st). split.
  - intros ->. now split.
  - intros -> -> Hq. destruct (retry_queue st) as [|e q]; [congruence|]. reflexivity.
Qed.

(** [submitContext] keeps the queue within the cap. *)
Lemma submit_bounded env w u r st :
  (length (retry_queue st) <= 10)%nat ->
  (length (retry_queue (store (submitContext env w u r st))) <= 10)%nat.
Proof.
  intros Hst. destruct (submit_queue env w u r st) as [-> | ->]; [exact Hst|].
  rewrite length_app. pose proof (slice_last_length 9 (retry_queue st)). simpl. lia.
Qed.

Lemma retryLoop_bounded envs subs :
  forall i s,
    (length (retry_queue (retry_store s)) <= 10)%nat ->
    (length (retry_queue (retry_store (retryLoop envs i subs s))) <= 10)%nat.
Proof.
  induction subs as [|e subs IH]; intros i s Hs; cbn [retryLoop]; [exact Hs|].
  apply IH. cbn [retry_store]. now apply submit_bounded.
Qed.

(** Operations on the queue keep it within the cap. *)
Lemma run_op_bounded op st :
  (length (retry_queue st) <= 10)%nat ->
  (length (retry_queue (run_op op st)) <= 10)%nat.
Proof.
  intros Hst. destruct op as [env w u r | storage envs]; cbn [run_op].
  - now apply submit_bounded.
  - unfold retryFailedSubmissions. fold (retry_queue st).
    destruct (getRejects storage); cbn [after_retry]; [exact Hst|].
    destruct (length (retry_queue st) =? 0)%nat; cbn [after_retry]; [exact Hst|].
    destruct (setRejects storage).
    + now apply retryLoop_bounded.
    + unfold retry_queue at 1. cbn [set_failed_submissions failed_submissions Js.or_empty].
      etransitivity; [apply filter_length_le|exact Hst].
Qed.

(** C5.  Whatever sequence of submissions and drains runs on a fresh
    store, and however the storage answers them, the persisted queue holds
    at most 10 entries; and a push onto a queue of 10 that is written
    drops the first (oldest) entry and appends the new one, while a push
    that the storage rejects leaves the queue as it was. *)
Theorem retry_queue_bounded :
  (forall ops, (length (retry_queue (run_ops ops empty_storage)) <= 10)%nat) /\
  (forall env w u r st,
     length (retry_queue st) = 10%nat ->
     retry_queue (storeFailedSubmission env w u r st)
       = if storageRejects env then retry_queue st
         else drop 1 (retry_queue st) ++ [failed_record env w u r]).
Proof.
  split.
  - intros ops. unfold run_ops.
    assert (H : (length (retry_queue empty_storage) <= 10)%nat) by (simpl; lia).
    revert H. generalize empty_storage.
    induction ops as [|op ops IH]; intros st Hst; cbn [fold_left]; [exact Hst|].
    apply IH. now apply run_op_bounded.
  - intros env w u r st Hlen. rewrite store_failed_queue.
    unfold Js.slice_last. now rewrite Hlen.
Qed.

(** Pushing onto the full queue [1..10] leaves [2..10] and the new
    record. *)
Lemma retry_queue_bounded_witness :
  let env := sample_env NetworkError "z9" in
  length (retry_queue full_queue) = 10%nat /\
  retry_queue (storeFailedSubmission env sample_workspace "user_1" Manual full_queue)
    = map queued [2; 3; 4; 5; 6; 7; 8; 9; 10]
        ++ [failed_record env sample_workspace "user_1" Manual].
Proof.
  assert (H : length (retry_queue full_queue) = 10%nat) by reflexivity.
  split; [exact H|].
  exact (proj2 retry_queue_bounded (sample_env NetworkError "z9") sample_workspace
           "user_1" Manual full_queue H).
Defined.

(** C9 (as amended).  When the live fetch fails, [getInsights] returns the
    cached insights if the cache is present and less than one hour old
    ([now - cachedAt < 3600000]); it returns the empty sequence if no
    insights are cached, or if the cache is one hour old or older. *)
Theorem fallback_serves_fresh_cache (now : Z) (st : Storage) :
  (forall cached cachedAt,
     cached_insights st = Some cached -> insights_cached_at st = Some cachedAt ->
     now - cachedAt < 3600000 ->
     (getInsights now FetchFails st).1 = cached) /\
  (cached_insights st = None -> (getInsights now FetchFails st).1 = []) /\
  (forall cachedAt,
     insights_cached_at st = Some cachedAt -> 3600000 <= now - cachedAt ->
     (getInsights now FetchFails st).1 = []).
Proof.
  unfold getInsights. repeat split.
  - intros cached cachedAt -> -> H. now replace (now - cachedAt <? 3600000) with true by lia.
  - now intros ->.
  - intros cachedAt -> H. destruct (cached_insights st); [|reflexivity].
    now replace (now - cachedAt <? 3600000) with false by lia.
Qed.

(** A cache written at instant 0 is served one millisecond before the hour
    and not at the hour. *)
Lemma fallback_serves_fresh_cache_witness :
  (getInsights 3599999 FetchFails cache_from_zero).1 = [sample_insight] /\
  (getInsights 3600000 FetchFails cache_from_zero).1 = [].
Proof.
  split.
  - apply (proj1 (fallback_serves_fresh_cache 3599999 cache_from_zero)
             [sample_insight] 0); [reflexivity | reflexivity | lia].
  - apply (proj2 (proj2 (fallback_serves_fresh_cache 3600000 cache_from_zero)) 0);
      [reflexivity | lia].
Defined.

(** C9 (as stated) fails at the boundary: a cache that is exactly one
    hour old is not served. *)
Lemma cache_one_hour_old_not_served :
  ~ cache_served_up_to_one_hour 3600000 cache_from_zero.
Proof.
  intros H. specialize (H [sample_insight] 0 eq_refl eq_refl).
  assert (Hle : 3600000 - 0 <= 3600000) by lia.
  specialize (H Hle). vm_compute in H. discriminate H.
Qed.

End AwsServiceSpec.

(** ** What a submission leaves alone *)

Module SubmitterFacts.

Import RateLimiter AwsService Submitter.

(** [submitContext] writes the limiter keys or the retry queue, nothing
    else; which of the two does not depend on the entries stored under
    run-time keys. *)
Lemma submitContext_set_entries m env w u r st :
  returned (submitContext env w u r (set_entries m st)) = returned (submitContext env w u r st) /\
  posted (submitContext env w u r (set_entries m st)) = posted (submitContext env w u r st) /\
  store (submitContext env w u r (set_entries m st))
    = set_entries m (store (submitContext env w u r st)).
Proof.
  unfold submitContext.
  change (shouldSubmitContext (checkNow env) (set_entries m st))
    with (shouldSubmitContext (checkNow env) st).
  assert (Hq : storeFailedSubmission env w u r (set_entries m st)
               = set_entries m (storeFailedSubmission env w u r st)).
  { unfold storeFailedSubmission. now destruct (storageRejects env). }
  destruct (shouldSubmitContext (checkNow env) st); cbn; [|auto].
  destruct (valid_time_value (timestamp w)); cbn; [|auto].
  destruct (post env) as [|status json]; cbn; [auto|].
  destruct (response_ok status); cbn; [|auto].
  destruct json; cbn; auto.
Qed.

Lemma submitContext_fields env w u r st :
  entries (store (submitContext env w u r st)) = entries st /\
  cached_insights (store (submitContext env w u r st)) = cached_insights st /\
  insights_cached_at (store (submitContext env w u r st)) = insights_cached_at st.
Proof.
  assert (Hq : entries (storeFailedSubmission env w u r st) = entries st /\
               cached_insights (storeFailedSubmission env w u r st) = cached_insights st /\
               insights_cached_at (storeFailedSubmission env w u r st)
                 = insights_cached_at st).
  { unfold storeFailedSubmission. now destruct (storageRejects env). }
  unfold submitContext.
  destruct (shouldSubmitContext (checkNow env) st); cbn; [|auto].
  destruct (valid_time_value (timestamp w)); cbn; [|auto].
  destruct (post env) as [|status json]; cbn; [auto|].
  destruct (response_ok status); cbn; [|auto].
  destruct json; cbn; auto.
Qed.

Lemma submitWorkspaceToAWS_set_entries m env w st :
  gate_posted (submitWorkspaceToAWS env w (set_entries m st))
    = gate_posted (submitWorkspaceToAWS env w st) /\
  scheduledFetch (submitWorkspaceToAWS env w (set_entries m st))
    = scheduledFetch (submitWorkspaceToAWS env w st) /\
  gate_store (submitWorkspaceToAWS env w (set_entries m st))
    = set_entries m (gate_store (submitWorkspaceToAWS env w st)).
Proof.
  unfold submitWorkspaceToAWS.
  change (shouldSubmitContext (gateNow env) (set_entries m st))
    with (shouldSubmitContext (gateNow env) st).
  destruct (shouldSubmitContext (gateNow env) st); cbn; [|auto].
  destruct (usable_user (settingsUserId env)) as [u|]; cbn; [|auto].
  destruct (checkHealth (health env)) as [[|]|]; cbn; auto.
  destruct (submitContext_set_entries m (submitEnv env) w u Idle st) as (-> & -> & ->).
  auto.
Qed.

Lemma submitWorkspaceToAWS_fields env w st :
  entries (gate_store (submitWorkspaceToAWS env w st)) = entries st /\
  cached_insights (gate_store (submitWorkspaceToAWS env w st)) = cached_insights st /\
  insights_cached_at (gate_store (submitWorkspaceToAWS env w st)) = insights_cached_at st.
Proof.
  unfold submitWorkspaceToAWS.
  destruct (shouldSubmitContext (gateNow env) st); cbn; [|auto].
  destruct (usable_user (settingsUserId env)) as [u|]; cbn; [|auto].
  destruct (checkHealth (health env)) as [[|]|]; cbn; auto.
  apply submitContext_fields.
Qed.

(** A closed gate leaves the store as it is. *)
Lemma closed_gate_store env w st :
  gate_closed env st ->
  gate_posted (submitWorkspaceToAWS env w st) = [] /\
  scheduledFetch (submitWorkspaceToAWS env w st) = None /\
  gate_store (submitWorkspaceToAWS env w st) = st.
Proof.
  unfold gate_closed, submitWorkspaceToAWS. intros [H | [H | H]].
  - rewrite H. cbn. auto.
  - destruct (shouldSubmitContext (gateNow env) st); cbn; [|auto].
    rewrite H. auto.
  - destruct (shouldSubmitContext (gateNow env) st); cbn; [|auto].
    destruct (usable_user (settingsUserId env)); [|auto].
    destruct (checkHealth (health env)) as [[|]|]; cbn; auto. congruence.
Qed.

End SubmitterFacts.

(** ** Workspace capture *)

Module CaptureSpec.

Import AwsService Submitter Capture CaptureMore ListFacts SubmitterFacts.

Example scenario_two_windows :
  map (fun w => (windowId w, length (tabs w)))
    (windows (workspaceCapture
       (captureWorkspace (browser := tab_2_fails) (closed_gate 1700000000000) 1700000000000
          three_and_one empty_storage)))
  = [(1, 2%nat); (2, 1%nat)].
Proof. reflexivity. Qed.

Section Capturing.

Context {browser : Browser}.

(** The loop over the tabs of a window appends what each tab yields. *)
Lemma captureTab_step ws tab :
  windowId (captureTab ws tab) = windowId ws /\
  tabs (captureTab ws tab) = tabs ws ++ snapshot_of tab /\
  (captures tab = false \/ tab_active tab = false ->
   activeTabId (captureTab ws tab) = activeTabId ws).
Proof.
  unfold captureTab, snapshot_of, captures, extracted, eligible.
  destruct (usable_id tab) as [i|]; cbn; [|rewrite app_nil_r; auto].
  destruct (http_address tab); cbn; [|rewrite app_nil_r; auto].
  destruct (executeScript i) as [[p|]|msg]; cbn; try (rewrite app_nil_r; auto).
  repeat split. intros [H | ->]; [discriminate H|reflexivity].
Qed.

Lemma captureTabs_fold l : forall ws,
  windowId (fold_left captureTab l ws) = windowId ws /\
  tabs (fold_left captureTab l ws) = tabs ws ++ flat_map snapshot_of l.
Proof.
  induction l as [|tab l IH]; intros ws; cbn [fold_left flat_map].
  - now rewrite app_nil_r.
  - destruct (IH (captureTab ws tab)) as [Hid Htabs].
    destruct (captureTab_step ws tab) as (Hid' & Htabs' & _).
    rewrite Hid, Htabs, Hid', Htabs', <- app_assoc. auto.
Qed.

(** The tabs that end up in the window's snapshot are the eligible ones
    whose extraction did not fail. *)
Lemma captured_count (l : list ChromeTab) :
  (length (flat_map snapshot_of l)
     + length (List.filter (fun tab => negb (bool_decide (is_Some (extracted tab))))
                 (List.filter eligible l))
   = length (List.filter eligible l))%nat.
Proof.
  induction l as [|tab l IH]; cbn [flat_map List.filter]; [reflexivity|].
  rewrite length_app. unfold snapshot_of at 1.
  destruct (eligible tab) eqn:El.
  - cbn [List.filter].
    destruct (usable_id tab) as [i|] eqn:Ei;
      [|unfold eligible in El; rewrite Ei in El; discriminate El].
    destruct (extracted tab) as [p|]; cbn; lia.
  - destruct (usable_id tab); cbn; exact IH.
Qed.

Lemma set_active_screenshot_length filename l :
  length (set_active_screenshot filename l) = length l.
Proof.
  induction l as [|t l IH]; cbn; [reflexivity|].
  destruct (isActive t); cbn; congruence.
Qed.

(** One window: its identity, how many tabs its snapshot holds, and how
    many screenshots it may cause. *)
Lemma captureWindow_shape ts wid l :
  let r := captureWindow ts wid l in
  windowId (windowSnapshot r) = wid /\
  length (tabs (windowSnapshot r)) = length (flat_map snapshot_of l) /\
  (length (blobs r) <= 1)%nat /\
  (blobs r <> [] -> tabs (windowSnapshot r) <> []) /\
  Forall (fun c => c = wid) (screenshotCalls r).
Proof.
  unfold captureWindow.
  destruct (captureTabs_fold l {| windowId := wid; activeTabId := -1; tabs := [] |})
    as [Hid Htabs].
  cbn [windowId tabs app] in Hid, Htabs.
  set (ws := fold_left captureTab l _) in *.
  destruct (awaits_screenshot (List.find isActive (tabs ws))) eqn:Ea.
  - destruct (List.find isActive (tabs ws)) as [t|] eqn:Ef; [|discriminate Ea].
    assert (Hne : tabs ws <> []).
    { intros E. rewrite E in Ef. discriminate Ef. }
    destruct (captureVisibleTab wid) as [image|msg]; [destruct (Js.truthy_string image)|];
      cbn [windowSnapshot blobs screenshotCalls windowId tabs length].
    + rewrite set_active_screenshot_length, Htabs.
      repeat split; auto. intros _ E. apply Hne.
      apply (f_equal length) in E. rewrite set_active_screenshot_length in E.
      apply length_zero_iff_nil. now rewrite Htabs.
    + rewrite Htabs. repeat split; auto; congruence.
    + rewrite Htabs. repeat split; auto; congruence.
  - cbn [windowSnapshot blobs screenshotCalls length]. rewrite Htabs.
    repeat split; auto; congruence.
Qed.

(** The loop over the windows appends what each window yields. *)
Lemma captureStep_step ts s w :
  captured (captureStep ts s w) = captured s ++ kept ts w /\
  calls (captureStep ts s w) = calls s ++ shots ts w /\
  written (captureStep ts s w) = written s ++ stored ts w.
Proof.
  unfold captureStep, kept, shots, stored, window_result.
  destruct (window_tabs w) as [[|tab l]|]; cbn; rewrite ?app_nil_r; auto.
  destruct (tabs (windowSnapshot (captureWindow ts (window_id w) (tab :: l))));
    rewrite ?app_nil_r; auto.
Qed.

Lemma captureSteps_fold ts ws : forall s,
  captured (fold_left (captureStep ts) ws s) = captured s ++ flat_map (kept ts) ws /\
  calls (fold_left (captureStep ts) ws s) = calls s ++ flat_map (shots ts) ws /\
  written (fold_left (captureStep ts) ws s) = written s ++ flat_map (stored ts) ws.
Proof.
  induction ws as [|w ws IH]; intros s; cbn [fold_left flat_map].
  - now rewrite !app_nil_r.
  - destruct (IH (captureStep ts s w)) as (H1 & H2 & H3).
    destruct (captureStep_step ts s w) as (E1 & E2 & E3).
    rewrite H1, H2, H3, E1, E2, E3, <- !app_assoc. auto.
Qed.

(** A window is kept exactly when some eligible tab did not fail; the
    kept snapshot has the window's id and one tab per eligible tab that did
    not fail. *)
Lemma kept_retained ts w :
  kept ts w =
    if retained w then
      match window_result ts w with
      | Some r => [windowSnapshot r]
      | None => []
      end
    else [].
Proof.
  unfold kept, retained, failed_tabs, eligible_tabs, window_result.
  destruct (window_tabs w) as [[|tab l]|]; cbn [from_option Datatypes.id]; try reflexivity.
  set (l' := tab :: l).
  destruct (captureWindow_shape ts (window_id w) l') as (_ & Hlen & _).
  pose proof (captured_count l') as Hc.
  destruct (tabs (windowSnapshot (captureWindow ts (window_id w) l'))) as [|t ts'].
  - cbn [length] in Hlen. destruct (_ <? _)%nat eqn:E; [|reflexivity].
    apply Nat.ltb_lt in E. lia.
  - cbn [length] in Hlen. destruct (_ <? _)%nat eqn:E; [reflexivity|].
    apply Nat.ltb_ge in E. lia.
Qed.

Lemma kept_shape ts ws :
  map windowId (flat_map (kept ts) ws) = map window_id (List.filter retained ws) /\
  map (fun w => length (tabs w)) (flat_map (kept ts) ws)
    = map (fun w => (length (eligible_tabs w) - length (failed_tabs w))%nat)
        (List.filter retained ws).
Proof.
  induction ws as [|w ws [IH1 IH2]]; cbn [flat_map List.filter map]; [auto|].
  rewrite !map_app, IH1, IH2, kept_retained.
  destruct (retained w) eqn:Er; [|auto].
  unfold retained, failed_tabs, eligible_tabs, window_result in *.
  destruct (window_tabs w) as [[|tab l]|] eqn:Ew; cbn [from_option Datatypes.id] in *;
    try discriminate Er.
  set (l' := tab :: l) in *.
  destruct (captureWindow_shape ts (window_id w) l') as (Hid & Hlen & _).
  pose proof (captured_count l') as Hc.
  cbn [map app]. rewrite Hid, Hlen, Ew. cbn [from_option Datatypes.id]. fold l'.
  split; f_equal. lia.
Qed.

(** C3.  A capture keeps, in order, the windows in which some eligible
    tab was extracted; the snapshot of a kept window holds exactly N - K
    tabs, N being the window's eligible tabs and K those among them whose
    extraction failed (the script threw or returned nothing); a window
    with K = N is left out; and whatever fails, the capture runs to its end
    and persists the workspace under its timestamp key. *)
Theorem capture_skips_failed_tabs (service : GateEnv) (now : Z) (ws : list ChromeWindow)
    (st : Storage) :
  let r := captureWorkspace service now ws st in
  map windowId (windows (workspaceCapture r)) = map window_id (List.filter retained ws) /\
  map (fun w => length (tabs w)) (windows (workspaceCapture r))
    = map (fun w => (length (eligible_tabs w) - length (failed_tabs w))%nat)
        (List.filter retained ws) /\
  entries (persisted r) !! ("workspace_" +:+ Js.show_int now)
    = Some (ItemWorkspace (workspaceCapture r)).
Proof.
  unfold captureWorkspace. cbn [workspaceCapture persisted windows timestamp].
  destruct (captureSteps_fold now ws
              {| captured := []; calls := []; written := []; capture_store := st |})
    as (H1 & _ & _).
  cbn [captured app] in H1. rewrite H1.
  destruct (kept_shape now ws) as [K1 K2].
  split; [exact K1|]. split; [exact K2|].
  rewrite (proj1 (submitWorkspaceToAWS_fields _ _ _)).
  cbn [set_entries entries]. apply lookup_insert_eq.
Qed.

(** The tab that receives the screenshot key. *)
Lemma set_active_screenshot_tab filename l t0 :
  List.find isActive l = Some t0 ->
  exists t, In t (set_active_screenshot filename l) /\
            isActive t = true /\ tabId t = tabId t0 /\
            data (snapshot t) = Some {| screenshot := ShotKey filename |}.
Proof.
  induction l as [|t l IH]; cbn [List.find set_active_screenshot]; [discriminate|].
  destruct (isActive t) eqn:E.
  - intros E0. injection E0 as <-. exists (with_screenshot filename t).
    split; [now left|]. cbn. auto.
  - intros E0. destruct (IH E0) as (t' & Hin & Ht'). exists t'. split; [now right|exact Ht'].
Qed.

(** One window: the blob it stores, if any. *)
Lemma captureWindow_blob ts wid l b :
  In b (blobs (captureWindow ts wid l)) ->
  Js.truthy_string b.2 = true /\
  exists t, In t (tabs (windowSnapshot (captureWindow ts wid l))) /\
            isActive t = true /\ b.1 = blob_key ts (tabId t) /\
            data (snapshot t) = Some {| screenshot := ShotKey b.1 |}.
Proof.
  unfold captureWindow.
  set (ws0 := fold_left captureTab l _).
  destruct (awaits_screenshot _); [|intros []].
  destruct (List.find isActive (tabs ws0)) as [t0|] eqn:Ef; [|intros []].
  destruct (captureVisibleTab wid) as [image|]; [|intros []].
  destruct (Js.truthy_string image) eqn:Ei; [|intros []].
  cbn [blobs windowSnapshot tabs]. intros [<- | []]. cbn [fst snd].
  split; [exact Ei|].
  destruct (set_active_screenshot_tab
              ("img_" +:+ Js.show_int ts +:+ "_" +:+ Js.show_int (tabId t0)) _ _ Ef)
    as (t & Hin & Ha & Hid & Hd).
  exists t. unfold blob_key. rewrite Hid. auto.
Qed.

(** What one window of the browser adds to the stored blobs: at most one
    blob, and then the window is kept and the blob is keyed by an active
    tab of its snapshot. *)
Lemma stored_by_window ts w :
  (length (stored ts w) <= 1)%nat /\
  forall b, In b (stored ts w) ->
    exists s t, kept ts w = [s] /\ windowId s = window_id w /\ In t (tabs s) /\
                isActive t = true /\ b.1 = blob_key ts (tabId t).
Proof.
  unfold stored, kept, window_result.
  destruct (window_tabs w) as [[|tab l]|]; cbn [length]; try (split; [lia|intros b []]).
  destruct (captureWindow_shape ts (window_id w) (tab :: l)) as (Hid & _ & Hb & _ & _).
  split; [exact Hb|]. intros b Hin.
  destruct (captureWindow_blob ts (window_id w) (tab :: l) b Hin)
    as (_ & t & Ht & Ha & Hk & _).
  exists (windowSnapshot (captureWindow ts (window_id w) (tab :: l))), t.
  destruct (tabs (windowSnapshot (captureWindow ts (window_id w) (tab :: l)))) eqn:E;
    [destruct Ht|].
  rewrite <- E in Ht. rewrite <- E. auto.
Qed.

(** C7 (as amended).  A capture stores at most one screenshot blob per
    captured window.  The workspace and the stored blobs are made window
    by window, in the order of the browser's windows; each window adds at
    most one blob, and a window that adds one is kept in the workspace
    and has the blob keyed by an active tab of its snapshot
    ([img_<timestamp>_<tabId>]). *)
Theorem one_blob_per_kept_window (service : GateEnv) (now : Z) (ws : list ChromeWindow)
    (st : Storage) :
  let r := captureWorkspace service now ws st in
  windows (workspaceCapture r) = flat_map (kept now) ws /\
  screenshotBlobs r = flat_map (stored now) ws /\
  Forall (fun w =>
    (length (stored now w) <= 1)%nat /\
    forall b, In b (stored now w) ->
      exists s t, kept now w = [s] /\ windowId s = window_id w /\ In t (tabs s) /\
                  isActive t = true /\ b.1 = blob_key now (tabId t)) ws.
Proof.
  unfold captureWorkspace. cbn [workspaceCapture screenshotBlobs windows].
  destruct (captureSteps_fold now ws
              {| captured := []; calls := []; written := []; capture_store := st |})
    as (H1 & _ & H3).
  cbn [captured written app] in H1, H3.
  split; [exact H1|]. split; [exact H3|].
  apply List.Forall_forall. intros w _. apply stored_by_window.
Qed.

(** When no active tab is captured, the loop over the tabs leaves
    [activeTabId] alone and appends only tabs that are not active. *)
Lemma captureTabs_no_active l :
  Forall (fun tab => tab_active tab = true -> captures tab = false) l ->
  forall ws,
    activeTabId (fold_left captureTab l ws) = activeTabId ws /\
    Forall (fun t => isActive t = false) (flat_map snapshot_of l).
Proof.
  induction 1 as [|tab l Htab _ IH]; intros ws; cbn [fold_left flat_map].
  - split; [reflexivity|constructor].
  - destruct (IH (captureTab ws tab)) as [Hid Hall].
    destruct (captureTab_step ws tab) as (_ & _ & Hact).
    split.
    + rewrite Hid. apply Hact.
      destruct (tab_active tab); [left; now apply Htab|now right].
    + apply Forall_app. split; [|exact Hall].
      unfold snapshot_of.
      destruct (usable_id tab) as [i|]; [|constructor].
      destruct (eligible tab) eqn:El; [|constructor].
      destruct (extracted tab) as [p|] eqn:Ex; [|constructor].
      constructor; [|constructor]. cbn.
      destruct (tab_active tab); [|reflexivity].
      specialize (Htab eq_refl). unfold captures in Htab.
      rewrite El, Ex in Htab. cbn in Htab. discriminate Htab.
Qed.

Lemma find_none_of_all_false (l : list TabSnapshot) :
  Forall (fun t => isActive t = false) l -> List.find isActive l = None.
Proof.
  induction 1 as [|t l Ht _ IH]; cbn; [reflexivity|]. now rewrite Ht.
Qed.

(** One window whose active tab is not captured. *)
Lemma captureWindow_no_active ts wid l :
  Forall (fun tab => tab_active tab = true -> captures tab = false) l ->
  let r := captureWindow ts wid l in
  activeTabId (windowSnapshot r) = -1 /\ screenshotCalls r = [] /\ blobs r = [].
Proof.
  intros Hl. unfold captureWindow.
  destruct (captureTabs_no_active l Hl {| windowId := wid; activeTabId := -1; tabs := [] |})
    as [Hid Hall].
  destruct (captureTabs_fold l {| windowId := wid; activeTabId := -1; tabs := [] |})
    as [_ Htabs].
  cbn [activeTabId tabs app] in Hid, Htabs.
  rewrite Htabs, (find_none_of_all_false _ Hall). cbn. auto.
Qed.

(** C10.  In a capture over windows with distinct ids, take a window none
    of whose active tabs is captured (each is skipped for its id or URL, or
    its extraction fails).  Every snapshot of that window in the workspace
    carries [activeTabId = -1], and [captureVisibleTab] is not called for
    that window. *)
Theorem lost_active_tab_means_no_screenshot
    (service : GateEnv) (now : Z) (ws : list ChromeWindow) (st : Storage) (w : ChromeWindow) :
  NoDup (map window_id ws) ->
  In w ws ->
  active_tab_lost w ->
  let r := captureWorkspace service now ws st in
  (forall s, In s (windows (workspaceCapture r)) -> windowId s = window_id w ->
             activeTabId s = -1) /\
  ~ In (window_id w) (captureVisibleTabCalls r).
Proof.
  intros Hnd Hw Hlost. unfold captureWorkspace.
  cbn [workspaceCapture captureVisibleTabCalls windows].
  destruct (captureSteps_fold now ws
              {| captured := []; calls := []; written := []; capture_store := st |})
    as (H1 & H2 & _).
  cbn [captured calls app] in H1, H2. rewrite H1, H2. clear H1 H2.
  assert (Hres : forall w' r', In w' ws -> window_result now w' = Some r' ->
            window_id w' = window_id w ->
            activeTabId (windowSnapshot r') = -1 /\ screenshotCalls r' = []).
  { intros w' r' Hw' Hr' Hid.
    assert (w' = w) as -> by (eapply NoDup_map_eq; eauto).
    unfold window_result in Hr'. unfold active_tab_lost in Hlost.
    destruct (window_tabs w) as [[|tab l]|]; try discriminate Hr'.
    injection Hr' as <-. cbn [from_option Datatypes.id] in Hlost.
    destruct (captureWindow_no_active now (window_id w) (tab :: l) Hlost) as (Ha & Hc & _).
    auto. }
  assert (Hshape : forall w' r', window_result now w' = Some r' ->
            windowId (windowSnapshot r') = window_id w' /\
            Forall (fun c => c = window_id w') (screenshotCalls r')).
  { intros w' r' Hr'. unfold window_result in Hr'.
    destruct (window_tabs w') as [[|tab l]|]; try discriminate Hr'.
    injection Hr' as <-.
    destruct (captureWindow_shape now (window_id w') (tab :: l)) as (Hi & _ & _ & _ & Hc).
    auto. }
  split.
  - intros s Hs Hid. apply in_flat_map in Hs as (w' & Hw' & Hs).
    unfold kept in Hs. destruct (window_result now w') as [r'|] eqn:Er; [|destruct Hs].
    destruct (Hshape w' r' Er) as [Hi _].
    destruct (tabs (windowSnapshot r')); [destruct Hs|].
    destruct Hs as [<- | []].
    apply (Hres w' r' Hw' Er). congruence.
  - intros Hc. apply in_flat_map in Hc as (w' & Hw' & Hc).
    unfold shots in Hc. destruct (window_result now w') as [r'|] eqn:Er; [|destruct Hc].
    destruct (Hshape w' r' Er) as [_ Hall].
    rewrite List.Forall_forall in Hall. pose proof (Hall _ Hc) as Hid.
    destruct (Hres w' r' Hw' Er (eq_sym Hid)) as [_ Hnil].
    rewrite Hnil in Hc. destruct Hc.
Qed.

End Capturing.

(** The active tab 11 of the window fails extraction; the background tab
    12 is captured. *)
Lemma lost_active_tab_means_no_screenshot_witness :
  let r := captureWorkspace (browser := tab_11_fails)
             (open_gate 1700000000000 (sample_env (Response 200 true) "a"))
             1700000000000 [active_and_background] empty_storage in
  NoDup (map window_id [active_and_background]) /\
  In active_and_background [active_and_background] /\
  active_tab_lost (browser := tab_11_fails) active_and_background /\
  map (fun s => (windowId s, activeTabId s, map tabId (tabs s))) (windows (workspaceCapture r))
    = [(1, -1, [12])] /\
  ~ In 1 (captureVisibleTabCalls r).
Proof.
  assert (H1 : NoDup (map window_id [active_and_background])).
  { cbn. apply NoDup_singleton. }
  assert (H2 : In active_and_background [active_and_background]) by (now left).
  assert (H3 : active_tab_lost (browser := tab_11_fails) active_and_background).
  { unfold active_tab_lost. cbn. repeat constructor; vm_compute; congruence. }
  split; [exact H1|]. split; [exact H2|]. split; [exact H3|].
  split; [reflexivity|].
  exact (proj2 (lost_active_tab_means_no_screenshot (browser := tab_11_fails)
                  (open_gate 1700000000000 (sample_env (Response 200 true) "a"))
                  1700000000000 [active_and_background] empty_storage
                  active_and_background H1 H2 H3)).
Defined.

(** C7 (as stated) fails.  Two windows, each with an active Google
    document: the loop takes a screenshot in each, and two blobs are
    stored, [img_1700000000000_11] and [img_1700000000000_21]. *)
Lemma two_windows_two_blobs :
  ~ at_most_one_blob
      (captureWorkspace (browser := all_docs) (closed_gate 1700000000000) 1700000000000
         two_windows empty_storage).
Proof.
  unfold at_most_one_blob. vm_compute. lia.
Qed.

Example two_windows_blob_keys :
  map fst (screenshotBlobs
    (captureWorkspace (browser := all_docs) (closed_gate 1700000000000) 1700000000000
       two_windows empty_storage))
  = ["img_1700000000000_11"; "img_1700000000000_21"].
Proof. reflexivity. Qed.

End CaptureSpec.

(** ** Expiration sweep *)

Module SweepSpec.

Import Sweep.

(** A key that starts with [workspace_] does not start with [img_]: the
    inner branch of the loop is never taken. *)
Lemma inner_branch_dead (key : string) :
  String.prefix "workspace_" key = true -> String.prefix "img_" key = false.
Proof.
  destruct key as [|c key]; [discriminate|].
  cbn [String.prefix].
  destruct (Ascii.ascii_dec "w"%char c) as [<-|]; [|discriminate].
  intros _. reflexivity.
Qed.

Lemma remove_keys_elem (keys : list string) (m : gmap string Item) (x : string) :
  x ∈ keys -> remove_keys keys m !! x = None.
Proof.
  unfold remove_keys. induction keys as [|k keys IH]; cbn [foldr]; intros Hx.
  - now apply not_elem_of_nil in Hx.
  - destruct (decide (k = x)) as [->|Hne]; [apply lookup_delete_eq|].
    rewrite lookup_delete_ne by exact Hne. apply IH.
    apply elem_of_cons in Hx as [->|Hx]; [congruence|exact Hx].
Qed.

Lemma remove_keys_other (keys : list string) (m : gmap string Item) (x : string) :
  x ∉ keys -> remove_keys keys m !! x = m !! x.
Proof.
  unfold remove_keys. induction keys as [|k keys IH]; cbn [foldr]; intros Hx; [reflexivity|].
  apply not_elem_of_cons in Hx as [Hne Hx].
  rewrite lookup_delete_ne by congruence. now apply IH.
Qed.

(** Removing a key that starts with [workspace_] or with [img_] leaves
    the fixed keys of the store alone. *)
Lemma forget_prefixed (k : string) (st : Storage) :
  String.prefix "workspace_" k || String.prefix "img_" k = true -> forget k st = st.
Proof.
  intros Hk.
  assert (Hne : forall name,
            String.prefix "workspace_" name || String.prefix "img_" name = false ->
            String.eqb k name = false).
  { intros name Hname. destruct (String.eqb_spec k name) as [->|]; [congruence|reflexivity]. }
  unfold forget, unless_named.
  rewrite !Hne by reflexivity. now destruct st.
Qed.

Lemma remove_prefixed (keys : list string) (st : Storage) :
  Forall (fun k => String.prefix "workspace_" k || String.prefix "img_" k = true) keys ->
  remove keys st = set_entries (remove_keys keys (entries st)) st.
Proof.
  intros Hkeys. unfold remove. f_equal.
  induction Hkeys as [|k keys Hk _ IH]; cbn [foldr]; [reflexivity|].
  now rewrite IH, forget_prefixed.
Qed.

Section Cleanup.

Variable img_older_than : string -> Z -> bool.

(** What the loop marks for an entry: the key of an expired snapshot and
    the screenshots that snapshot references, and nothing else. *)
Lemma marked_iff (cutoff : Z) (key : string) (v : Item) (x : string) :
  x ∈ marked img_older_than cutoff (key, v) <->
  String.prefix "workspace_" key = true /\
  exists w, v = ItemWorkspace w /\ timestamp w < cutoff /\ (x = key \/ x ∈ screenshot_keys w).
Proof.
  unfold marked. cbn [fst snd].
  destruct (String.prefix "workspace_" key) eqn:Ep.
  - rewrite (inner_branch_dead key Ep).
    destruct v as [w|image].
    + destruct (timestamp w <? cutoff) eqn:Et.
      * rewrite elem_of_cons. split.
        -- intros H. split; [reflexivity|]. exists w. repeat split; [lia|exact H].
        -- intros (_ & w' & E & _ & H). now injection E as <-.
      * split; [intros H; now apply not_elem_of_nil in H|].
        intros (_ & w' & E & Hlt & _). injection E as <-. lia.
    + split; [intros H; now apply not_elem_of_nil in H|].
      intros (_ & w' & E & _). discriminate E.
  - split; [intros H; now apply not_elem_of_nil in H|]. intros [E _]. discriminate E.
Qed.

Lemma toBeDeleted_iff (cutoff : Z) (st : Storage) (x : string) :
  x ∈ flat_map (marked img_older_than cutoff) (map_to_list (entries st)) <->
  exists key w, persisted_snapshot st key w /\ timestamp w < cutoff /\
                (x = key \/ x ∈ screenshot_keys w).
Proof.
  rewrite list_elem_of_In, in_flat_map. split.
  - intros ([key v] & Hin & Hx).
    apply list_elem_of_In, elem_of_map_to_list in Hin.
    apply list_elem_of_In, marked_iff in Hx as (Hp & w & -> & Ht & Hx).
    exists key, w. unfold persisted_snapshot. auto.
  - intros (key & w & [Hl Hp] & Ht & Hx).
    exists (key, ItemWorkspace w). split.
    + now apply list_elem_of_In, elem_of_map_to_list.
    + apply list_elem_of_In, marked_iff. split; [exact Hp|]. exists w. auto.
Qed.

(** The store after the sweep, key by key. *)
Lemma swept_lookup (now : Z) (st : Storage) (x : string) :
  let toBeDeleted :=
    flat_map (marked img_older_than (now - retentionMs)) (map_to_list (entries st)) in
  entries (swept (cleanupExpiredSnapshots img_older_than now st)) !! x
    = if bool_decide (x ∈ toBeDeleted) then None else entries st !! x.
Proof.
  intros toBeDeleted. unfold cleanupExpiredSnapshots. fold toBeDeleted.
  destruct (length toBeDeleted =? 0)%nat eqn:E; cbn [swept set_entries entries].
  - apply Nat.eqb_eq, length_zero_iff_nil in E. rewrite E.
    rewrite bool_decide_eq_false_2; [reflexivity|apply not_elem_of_nil].
  - case_bool_decide as Hx.
    + now apply remove_keys_elem.
    + now apply remove_keys_other.
Qed.

(** C8.  The sweep computes [cutoff = now - 7 days] and calls
    [chrome.storage.local.remove] at most once.  Afterwards every snapshot
    persisted under a [workspace_] key with a timestamp below the cutoff
    is gone, together with every screenshot key its tabs reference.  A
    snapshot whose timestamp is not below the cutoff keeps its key and the
    screenshot keys it references: each of these keys is left as it was,
    provided no expired snapshot is stored under it or references it. *)
Theorem sweep_deletes_expired (now : Z) (st : Storage) :
  let r := cleanupExpiredSnapshots img_older_than now st in
  let cutoff := now - 7 * day in
  (length (removeCalls r) <= 1)%nat /\
  (forall key w, persisted_snapshot st key w -> timestamp w < cutoff ->
     entries (swept r) !! key = None /\
     forall s, s ∈ screenshot_keys w -> entries (swept r) !! s = None) /\
  (forall key w, persisted_snapshot st key w -> cutoff <= timestamp w ->
     forall x, x ∈ key :: screenshot_keys w -> unclaimed_by_expired cutoff st x ->
               entries (swept r) !! x = entries st !! x).
Proof.
  intros r cutoff.
  assert (Hcut : cutoff = now - retentionMs) by reflexivity.
  split; [|split].
  - subst r. unfold cleanupExpiredSnapshots.
    destruct (length _ =? 0)%nat; cbn; lia.
  - intros key w Hp Ht. subst r. split; [|intros s Hs]; rewrite swept_lookup;
    rewrite bool_decide_eq_true_2; try reflexivity;
    apply toBeDeleted_iff; exists key, w; rewrite <- Hcut; auto.
  - intros key w Hp Ht x _ Hun. subst r.
    rewrite swept_lookup, bool_decide_eq_false_2; [reflexivity|].
    rewrite toBeDeleted_iff, <- Hcut.
    intros (key' & w' & Hp' & Ht' & Hx).
    destruct (Hun key' w' Hp' Ht') as [Hne Hnotin].
    destruct Hx as [-> | Hx]; [now apply Hne|now apply Hnotin].
Qed.

End Cleanup.

(** Neither key of the six-day-old snapshot is claimed by the
    eight-day-old one. *)
Lemma recent_keys_unclaimed (x : string) :
  x ∈ [workspace_key six_days_ago; img_key six_days_ago 5] ->
  unclaimed_by_expired (sweep_now - 7 * day) old_and_recent x.
Proof.
  intros Hx.
  assert (Hall : Forall (fun e => forall w, e.2 = ItemWorkspace w ->
                    timestamp w < sweep_now - 7 * day ->
                    x <> e.1 /\ x ∉ screenshot_keys w)
                  (map_to_list (entries old_and_recent))).
  { apply elem_of_cons in Hx as [-> | Hx]; [|apply list_elem_of_singleton in Hx as ->];
      (set (l := map_to_list _); vm_compute in l; subst l);
      repeat first [apply Forall_nil_2 | apply Forall_cons_2];
      cbn [fst snd]; intros w E Hlt;
      first [ discriminate E
            | injection E as <-;
              first [ exfalso; vm_compute in Hlt; discriminate Hlt
                    | split;
                      [ intros Eq; vm_compute in Eq; discriminate Eq
                      | intros Hin; apply list_elem_of_In in Hin; vm_compute in Hin;
                        destruct Hin as [Eq | []]; discriminate Eq ] ] ]. }
  intros key' w' [Hl _] Ht.
  apply elem_of_map_to_list in Hl.
  rewrite Forall_forall in Hall. exact (Hall _ Hl w' eq_refl Ht).
Qed.

(** A snapshot of eight days ago is swept with its screenshot; one of six
    days ago stays with its screenshot. *)
Lemma sweep_deletes_expired_witness :
  let r := cleanupExpiredSnapshots never_older sweep_now old_and_recent in
  let old := snapshot_with eight_days_ago (img_key eight_days_ago 5) in
  let recent := snapshot_with six_days_ago (img_key six_days_ago 5) in
  (persisted_snapshot old_and_recent (workspace_key eight_days_ago) old /\
   timestamp old < sweep_now - 7 * day) /\
  (persisted_snapshot old_and_recent (workspace_key six_days_ago) recent /\
   sweep_now - 7 * day <= timestamp recent) /\
  entries (swept r) !! workspace_key eight_days_ago = None /\
  entries (swept r) !! img_key eight_days_ago 5 = None /\
  entries (swept r) !! workspace_key six_days_ago = Some (ItemWorkspace recent) /\
  entries (swept r) !! img_key six_days_ago 5 = Some (ItemImage "data:image/jpeg;base64,BBBB").
Proof.
  intros r old recent.
  assert (Ho : persisted_snapshot old_and_recent (workspace_key eight_days_ago) old)
    by (split; vm_compute; reflexivity).
  assert (Hot : timestamp old < sweep_now - 7 * day) by (vm_compute; reflexivity).
  assert (Hr : persisted_snapshot old_and_recent (workspace_key six_days_ago) recent)
    by (split; vm_compute; reflexivity).
  assert (Hrt : sweep_now - 7 * day <= timestamp recent) by (vm_compute; discriminate).
  destruct (sweep_deletes_expired never_older sweep_now old_and_recent)
    as (_ & Hgone & Hkept).
  destruct (Hgone _ _ Ho Hot) as [G1 G2].
  pose proof (Hkept _ _ Hr Hrt) as K.
  split; [auto|]. split; [auto|].
  split; [exact G1|]. split; [apply G2; cbn; apply list_elem_of_singleton; reflexivity|].
  split.
  - transitivity (entries old_and_recent !! workspace_key six_days_ago);
      [|vm_compute; reflexivity].
    apply K; [|apply recent_keys_unclaimed]; apply elem_of_cons; now left.
  - transitivity (entries old_and_recent !! img_key six_days_ago 5);
      [|vm_compute; reflexivity].
    apply K; [cbn|apply recent_keys_unclaimed]; apply elem_of_cons; right;
      apply list_elem_of_singleton; reflexivity.
Defined.

End SweepSpec.

(** ** Idle monitor *)

Module IdleMonitorSpec.

Import IdleMonitor.

(** C2.  The guard does not hold on the idle path.  The listener of an
    idle transition tests [isCapturing], then awaits the badge update and
    the status broadcast, and only then enters [captureWorkspace], which
    sets the flag.  A manual trigger that arrives during those awaits finds
    the flag still false and starts a capture; when the idle listener
    resumes it starts a second one: two capture cycles are in flight. *)
Theorem idle_then_manual_two_captures :
  forallb guarded_event idle_then_manual = true /\
  tasks (run idle_then_manual) = [InCapture; InCapture] /\
  in_flight (run idle_then_manual) = 2%nat.
Proof. repeat split. Qed.

(** Finishing a capture takes one cycle out of flight. *)
Lemma finish_one (l : list Pc) (i : nat) :
  l !! i = Some InCapture ->
  (length (List.filter in_capture (<[ i := Finished ]> l)) + 1
   = length (List.filter in_capture l))%nat.
Proof.
  revert i. induction l as [|p l IH]; intros i Hi; [discriminate Hi|].
  destruct i as [|i].
  - injection Hi as ->. cbn. lia.
  - change (<[ S i := Finished ]> (p :: l)) with (p :: <[ i := Finished ]> l).
    change ((p :: l) !! S i) with (l !! i) in Hi.
    specialize (IH i Hi). cbn [List.filter].
    destruct (in_capture p); cbn [length]; lia.
Qed.

(** The manual path tests and sets the flag in one turn: with manual
    triggers alone, the flag tells exactly whether a capture is in
    flight. *)
Lemma manual_path_invariant (es : list Event) (m : Monitor) :
  forallb manual_only es = true ->
  Forall (fun p => p = InCapture \/ p = Finished) (tasks m) ->
  in_flight m = (if isCapturing m then 1 else 0)%nat ->
  in_flight (fold_left step es m) = (if isCapturing (fold_left step es m) then 1 else 0)%nat.
Proof.
  revert m. induction es as [|e es IH]; intros m Hes Hall Hinv; cbn [fold_left]; [exact Hinv|].
  cbn [forallb] in Hes. apply andb_true_iff in Hes as [He Hes].
  apply IH; [exact Hes| |]; clear IH Hes.
  - destruct e as [[ns| |a]|i|i]; try discriminate He; cbn [step].
    + unfold arrive. destruct (isCapturing m); cbn [negb tasks];
        apply Forall_app; (split; [exact Hall|]); apply Forall_singleton; auto.
    + unfold resume. destruct (tasks m !! i) as [p|] eqn:Ei; [|exact Hall].
      rewrite Forall_forall in Hall.
      destruct (Hall p) as [-> | ->]; [eapply list_elem_of_lookup_2; eauto| |];
        now apply Forall_forall.
    + unfold complete. destruct (tasks m !! i) as [p|] eqn:Ei; [|exact Hall].
      destruct p; try exact Hall. cbn [tasks].
      apply Forall_insert; [exact Hall|now right].
  - destruct e as [[ns| |a]|i|i]; try discriminate He; cbn [step].
    + unfold arrive, in_flight in *. destruct (isCapturing m); cbn [negb tasks isCapturing].
      * rewrite List.filter_app, length_app, Hinv. reflexivity.
      * rewrite List.filter_app, length_app, Hinv. reflexivity.
    + unfold resume. destruct (tasks m !! i) as [p|] eqn:Ei; [|exact Hinv].
      rewrite Forall_forall in Hall.
      destruct (Hall p) as [-> | ->]; [eapply list_elem_of_lookup_2; eauto| |]; exact Hinv.
    + unfold complete. destruct (tasks m !! i) as [p|] eqn:Ei; [|exact Hinv].
      destruct p; try exact Hinv. unfold in_flight in *. cbn [tasks isCapturing].
      pose proof (finish_one (tasks m) i Ei) as Hf.
      destruct (isCapturing m); lia.
Qed.

(** With manual triggers alone at most one capture is in flight. *)
Lemma manual_triggers_single_flight (es : list Event) :
  forallb manual_only es = true -> (in_flight (run es) <= 1)%nat.
Proof.
  intros Hes. unfold run.
  rewrite (manual_path_invariant es initial Hes); [|constructor|reflexivity].
  destruct (isCapturing _); lia.
Qed.

End IdleMonitorSpec.

(** * Further properties *)

(** ** Rate limiter *)

Module RateLimiterMoreSpec.

Import RateLimiter AwsServiceMore RateLimiterSpec.

(** The verdict of [shouldSubmitContext] is the conjunction of its three
    tests. *)
Lemma check_tests now st :
  shouldSubmitContext now st
    = (last_of st + MIN_INTERVAL_MS <=? now)
      && (requests_this_minute now st <? MAX_REQUESTS_PER_MINUTE)
      && (requests_this_hour now st <? MAX_REQUESTS_PER_HOUR).
Proof.
  unfold shouldSubmitContext, requests_this_minute, requests_this_hour, last_of.
  set (l := Js.or_num (last_aws_submission st) 0).
  set (m := if _ >=? 60000 then 0 else _).
  set (h := if _ >=? 3600000 then 0 else _).
  destruct (now - l <? MIN_INTERVAL_MS) eqn:E1.
  - replace (l + MIN_INTERVAL_MS <=? now) with false by lia. reflexivity.
  - replace (l + MIN_INTERVAL_MS <=? now) with true by lia.
    destruct (m >=? MAX_REQUESTS_PER_MINUTE) eqn:E2.
    + replace (m <? MAX_REQUESTS_PER_MINUTE) with false by lia. reflexivity.
    + replace (m <? MAX_REQUESTS_PER_MINUTE) with true by lia.
      destruct (h >=? MAX_REQUESTS_PER_HOUR) eqn:E3.
      * replace (h <? MAX_REQUESTS_PER_HOUR) with false by lia. reflexivity.
      * replace (h <? MAX_REQUESTS_PER_HOUR) with true by lia. reflexivity.
Qed.

(** X1.  After the counters were updated at instant [u], every check at an
    instant less than 12 s after [u] is denied, whatever the store held
    before the update. *)
Theorem denied_within_interval_of_update (st : Storage) (u now : Z) :
  now - u < MIN_INTERVAL_MS ->
  shouldSubmitContext now (updateRateLimitCounters u st) = false.
Proof.
  intros H. rewrite check_tests, updated_last.
  replace (u + MIN_INTERVAL_MS <=? now) with false by lia. reflexivity.
Qed.

Lemma denied_within_interval_of_update_witness :
  12011999 - 12000000 < MIN_INTERVAL_MS /\
  shouldSubmitContext 12011999 (updateRateLimitCounters 12000000 empty_storage) = false.
Proof.
  assert (H : 12011999 - 12000000 < MIN_INTERVAL_MS) by (unfold MIN_INTERVAL_MS; lia).
  split; [exact H|].
  exact (denied_within_interval_of_update empty_storage 12000000 12011999 H).
Defined.

(** The counters, as a check reads them, do not grow with the clock. *)
Lemma requests_this_minute_later st t1 t2 :
  t1 <= t2 ->
  requests_this_minute t1 st < MAX_REQUESTS_PER_MINUTE ->
  requests_this_minute t2 st < MAX_REQUESTS_PER_MINUTE.
Proof.
  unfold requests_this_minute, MAX_REQUESTS_PER_MINUTE.
  rewrite (or_num_default _ t1), (or_num_default _ t2).
  set (ms := Js.or_num (aws_minute_start st) 0).
  set (c := Js.or_num (aws_requests_minute st) 0).
  intros Ht. destruct (ms =? 0).
  - replace (t1 - t1 >=? 60000) with false by lia.
    replace (t2 - t2 >=? 60000) with false by lia. auto.
  - destruct (t1 - ms >=? 60000) eqn:E1, (t2 - ms >=? 60000) eqn:E2; lia.
Qed.

Lemma requests_this_hour_later st t1 t2 :
  t1 <= t2 ->
  requests_this_hour t1 st < MAX_REQUESTS_PER_HOUR ->
  requests_this_hour t2 st < MAX_REQUESTS_PER_HOUR.
Proof.
  unfold requests_this_hour, MAX_REQUESTS_PER_HOUR.
  rewrite (or_num_default _ t1), (or_num_default _ t2).
  set (hs := Js.or_num (aws_hour_start st) 0).
  set (c := Js.or_num (aws_requests_hour st) 0).
  intros Ht. destruct (hs =? 0).
  - replace (t1 - t1 >=? 3600000) with false by lia.
    replace (t2 - t2 >=? 3600000) with false by lia. auto.
  - destruct (t1 - hs >=? 3600000) eqn:E1, (t2 - hs >=? 3600000) eqn:E2; lia.
Qed.

Lemma admitted_later (st : Storage) (t1 t2 : Z) :
  t1 <= t2 ->
  shouldSubmitContext t1 st = true ->
  shouldSubmitContext t2 st = true.
Proof.
  intros Ht. rewrite !check_tests, !andb_true_iff, !Z.leb_le, !Z.ltb_lt.
  intros [[H1 H2] H3]. repeat split.
  - lia.
  - now apply (requests_this_minute_later st t1 t2).
  - now apply (requests_this_hour_later st t1 t2).
Qed.

(** X2.  On an unchanged store, admission is monotone in the clock: a
    check that admits at [t1] admits at every later instant. *)
Theorem admission_monotone (st : Storage) (t1 t2 : Z) :
  t1 <= t2 ->
  shouldSubmitContext t1 st = true ->
  shouldSubmitContext t2 st = true.
Proof. apply admitted_later. Qed.

Lemma admission_monotone_witness :
  12000 <= 12001 /\
  shouldSubmitContext 12000 empty_storage = true /\
  shouldSubmitContext 12001 empty_storage = true.
Proof.
  assert (H1 : 12000 <= 12001) by lia.
  assert (H2 : shouldSubmitContext 12000 empty_storage = true) by reflexivity.
  split; [exact H1|]. split; [exact H2|].
  exact (admission_monotone empty_storage 12000 12001 H1 H2).
Defined.

Lemma updated_minute now st :
  0 < now -> 0 <= minute_start_of st -> 0 <= minute_count_of st ->
  minute_start_of (updateRateLimitCounters now st)
    = (if (minute_start_of st =? 0) || negb (now - minute_start_of st <? 60000)
       then now else minute_start_of st) /\
  minute_count_of (updateRateLimitCounters now st)
    = (if minute_start_of st =? 0 then minute_count_of st + 1
       else if now - minute_start_of st <? 60000 then minute_count_of st + 1 else 1).
Proof.
  intros Hnow Hms Hc.
  unfold minute_start_of, minute_count_of, updateRateLimitCounters in *; simpl.
  rewrite (or_num_default (aws_minute_start st) now).
  set (ms := Js.or_num (aws_minute_start st) 0) in *.
  set (c := Js.or_num (aws_requests_minute st) 0) in *.
  destruct (ms =? 0) eqn:E0; simpl.
  - replace (now - now >=? 60000) with false by lia.
    replace (now =? 0) with false by lia.
    replace (c + 1 =? 0) with false by lia. split; reflexivity.
  - destruct (now - ms <? 60000) eqn:E1; simpl.
    + replace (now - ms >=? 60000) with false by lia.
      rewrite E0. replace (c + 1 =? 0) with false by lia. split; reflexivity.
    + replace (now - ms >=? 60000) with true by lia.
      replace (now =? 0) with false by lia. split; reflexivity.
Qed.

(** An admitted check followed by its update keeps the windows
    consistent. *)
Lemma windows_consistent_step st c :
  checkAt c <= updateAt c ->
  windows_consistent st ->
  shouldSubmitContext (checkAt c) st = true ->
  windows_consistent (updateRateLimitCounters (updateAt c) st).
Proof.
  intros Hc (Hms & Hmc & Hm0 & Hsp & Hhs & Hhc) E.
  apply admitted_check in E as [Hgap Hcap].
  unfold MIN_INTERVAL_MS, MAX_REQUESTS_PER_MINUTE, MAX_REQUESTS_PER_HOUR in *.
  assert (Hpos : 0 < updateAt c) by lia.
  destruct (updated_minute (updateAt c) st Hpos) as [Ems Emc]; [lia..|].
  destruct (updated_hour (updateAt c) st Hpos) as [Ehs Ehc]; [lia..|].
  pose proof (updated_last (updateAt c) st) as El.
  unfold windows_consistent, MIN_INTERVAL_MS, MAX_REQUESTS_PER_MINUTE, MAX_REQUESTS_PER_HOUR.
  rewrite Ems, Emc, Ehs, Ehc, El.
  destruct (minute_start_of st =? 0) eqn:M0; cbn [orb negb];
    [|destruct (updateAt c - minute_start_of st <? 60000) eqn:M1; cbn [negb]];
    (destruct (hour_start_of st =? 0) eqn:H0; cbn [orb negb];
     [|destruct (updateAt c - hour_start_of st <? 3600000) eqn:H1; cbn [negb]]);
    try (assert (hour_count_of st < 20) by (apply Hcap; lia));
    repeat split; try lia.
Qed.

Lemma serial_store_consistent cs : forall st,
  Forall (fun c => checkAt c <= updateAt c) cs ->
  windows_consistent st ->
  windows_consistent (serial_store st cs).
Proof.
  induction cs as [|c cs IH]; intros st Hcs Hst; cbn [serial_store]; [exact Hst|].
  apply Forall_cons in Hcs as [Hc Hcs].
  destruct (shouldSubmitContext (checkAt c) st) eqn:E; [|now apply IH].
  apply IH; [exact Hcs|]. now apply windows_consistent_step.
Qed.

Lemma fresh_store_consistent : windows_consistent empty_storage.
Proof. vm_compute. repeat split; congruence. Qed.

(** On a consistent store, a check that passes the interval test passes
    the per-minute test. *)
Lemma minute_test_passes st now :
  windows_consistent st ->
  last_of st + MIN_INTERVAL_MS <= now ->
  requests_this_minute now st < MAX_REQUESTS_PER_MINUTE.
Proof.
  intros (Hms & Hmc & Hm0 & Hsp & _) Hgap.
  unfold requests_this_minute. rewrite (or_num_default _ now).
  fold (minute_start_of st). fold (minute_count_of st).
  unfold MIN_INTERVAL_MS, MAX_REQUESTS_PER_MINUTE in *.
  destruct (minute_start_of st =? 0) eqn:M0.
  - replace (now - now >=? 60000) with false by lia. lia.
  - destruct (now - minute_start_of st >=? 60000) eqn:M1; lia.
Qed.

(** X3.  In a serial use of the limiter on a fresh store, with a clock
    that does not run backwards inside a call, the per-minute cap never
    decides: at every instant the verdict of [shouldSubmitContext] is that
    of the 12 s interval test and the per-hour test alone. *)
Theorem minute_cap_never_decides (cs : list Cycle) (now : Z) :
  Forall (fun c => checkAt c <= updateAt c) cs ->
  let st := serial_store empty_storage cs in
  shouldSubmitContext now st
    = (last_of st + MIN_INTERVAL_MS <=? now)
      && (requests_this_hour now st <? MAX_REQUESTS_PER_HOUR).
Proof.
  intros Hcs st. rewrite check_tests.
  destruct (last_of st + MIN_INTERVAL_MS <=? now) eqn:E; [|reflexivity].
  cbn [andb]. apply Z.leb_le in E.
  pose proof (serial_store_consistent cs empty_storage Hcs fresh_store_consistent) as Hst.
  fold st in Hst.
  pose proof (minute_test_passes st now Hst E) as Hm.
  now replace (requests_this_minute now st <? MAX_REQUESTS_PER_MINUTE) with true by lia.
Qed.

(** Forty checks 5 s apart from one minute on, then a check 12 s after
    the last admission. *)
Lemma minute_cap_never_decides_witness :
  Forall (fun c => checkAt c <= updateAt c) (every_5s 60000 40) /\
  shouldSubmitContext 267000 (serial_store empty_storage (every_5s 60000 40)) = true.
Proof.
  assert (H : Forall (fun c => checkAt c <= updateAt c) (every_5s 60000 40)).
  { cbn. repeat (apply Forall_cons_2; [cbn; lia|]). apply Forall_nil_2. }
  split; [exact H|].
  rewrite (minute_cap_never_decides (every_5s 60000 40) 267000 H). reflexivity.
Defined.

(** X4.  In such a run the persisted counters stay within their caps:
    the minute counter never exceeds 5 and the hour counter never exceeds
    20, and neither window starts after the last submission. *)
Theorem serial_counters_within_caps (cs : list Cycle) :
  Forall (fun c => checkAt c <= updateAt c) cs ->
  let st := serial_store empty_storage cs in
  0 <= minute_count_of st <= MAX_REQUESTS_PER_MINUTE /\
  0 <= hour_count_of st <= MAX_REQUESTS_PER_HOUR /\
  minute_start_of st <= last_of st /\
  hour_start_of st <= last_of st.
Proof.
  intros Hcs st.
  destruct (serial_store_consistent cs empty_storage Hcs fresh_store_consistent)
    as (Hms & Hmc & _ & _ & Hhs & Hhc).
  fold st in Hms, Hmc, Hhs, Hhc. repeat split; lia.
Qed.

Lemma serial_counters_within_caps_witness :
  Forall (fun c => checkAt c <= updateAt c) hour_boundary_run /\
  hour_count_of (serial_store empty_storage hour_boundary_run) <= MAX_REQUESTS_PER_HOUR.
Proof.
  assert (H : Forall (fun c => checkAt c <= updateAt c) hour_boundary_run).
  { unfold hour_boundary_run. cbn. repeat (apply Forall_cons_2; [cbn; lia|]).
    apply Forall_nil_2. }
  split; [exact H|].
  exact (proj2 (proj1 (proj2 (serial_counters_within_caps hour_boundary_run H)))).
Defined.

End RateLimiterMoreSpec.

(** ** Submission client, retry queue, insight cache *)

Module AwsServiceMoreSpec.

Import RateLimiter AwsService AwsServiceMore RateLimiterSpec RateLimiterMoreSpec
  AwsServiceSpec.

(** The verdicts of the limiter depend on the five limiter keys only. *)
Lemma check_after_store_failed now env w u r st :
  shouldSubmitContext now (storeFailedSubmission env w u r st) = shouldSubmitContext now st.
Proof. unfold storeFailedSubmission. now destruct (storageRejects env). Qed.

(** What a successful call leaves behind. *)
Lemma submit_ok_effects env w u r st cid :
  (returned (submitContext env w u r st) = Normal (Some cid) ->
   posted (submitContext env w u r st) <> []) /\
  (returned (submitContext env w u r st) = Normal (Some cid) ->
   Js.truthy_string cid = true /\
   store (submitContext env w u r st) = updateRateLimitCounters (updateNow env) st).
Proof.
  unfold submitContext.
  destruct (shouldSubmitContext (checkNow env) st); cbn; [|split; discriminate].
  destruct (valid_time_value (timestamp w)); cbn; [|split; discriminate].
  destruct (post env) as [|status json]; cbn; [split; discriminate|].
  destruct (response_ok status); cbn; [|split; discriminate].
  destruct json; cbn; [|split; discriminate].
  split; intros E; injection E as <-; [discriminate|split; reflexivity].
Qed.

(** X5.  [submitContext] returns a correlation id exactly when the limiter
    admits the call, the workspace timestamp is a valid time value, and
    the POST is answered with a 2xx status and a body that parses; the id
    is then [c-] followed by the generated suffix (never empty), exactly
    one POST was issued with that id, and the store differs from the old
    one by the counter update alone. *)
Theorem submit_succeeds_iff env w u r st cid :
  let res := submitContext env w u r st in
  (returned res = Normal (Some cid) <->
   shouldSubmitContext (checkNow env) st = true /\
   valid_time_value (timestamp w) = true /\
   (exists status, post env = Response status true /\ response_ok status = true) /\
   cid = "c-" +:+ correlationSuffix env) /\
  (returned res = Normal (Some cid) ->
   Js.truthy_string cid = true /\
   posted res = [contextData cid w u r] /\
   store res = updateRateLimitCounters (updateNow env) st).
Proof.
  unfold submitContext.
  destruct (shouldSubmitContext (checkNow env) st); cbn;
    [|split; [split; [discriminate|intros (E & _); discriminate E]|discriminate]].
  destruct (valid_time_value (timestamp w)); cbn;
    [|split; [split; [discriminate|intros (_ & E & _); discriminate E]|discriminate]].
  destruct (post env) as [|status json]; cbn;
    [split; [split; [discriminate|intros (_ & _ & (s & E & _) & _); discriminate E]
            |discriminate]|].
  destruct (response_ok status) eqn:Eok; cbn;
    [|split; [split; [discriminate
                     |intros (_ & _ & (s & E & E') & _); injection E as <- _; congruence]
             |discriminate]].
  destruct json; cbn;
    [|split; [split; [discriminate
                     |intros (_ & _ & (s & E & _) & _); discriminate E]
             |discriminate]].
  split.
  - split.
    + intros E. injection E as <-. repeat split. exists status. auto.
    + intros (_ & _ & _ & ->). reflexivity.
  - intros E. injection E as <-. repeat split.
Qed.

(** A first submission, accepted by the endpoint. *)
Lemma submit_succeeds_iff_witness :
  let env := sample_env (Response 200 true) "q7" in
  let res := submitContext env sample_workspace "user_1" Manual empty_storage in
  returned res = Normal (Some "c-q7") /\
  posted res = [contextData "c-q7" sample_workspace "user_1" Manual] /\
  store res = updateRateLimitCounters 12005 empty_storage.
Proof.
  intros env res.
  assert (H : returned res = Normal (Some "c-q7")) by reflexivity.
  split; [exact H|].
  exact (proj2 (proj2 (submit_succeeds_iff env sample_workspace "user_1" Manual
                         empty_storage "c-q7") H)).
Defined.

(** X6.  A call of [submitContext] that returns [null] leaves the limiter
    as it was: a denial, an invalid timestamp and a failed POST consume
    nothing of the budget, so the next check gets the verdict it would
    have got before the call. *)
Theorem null_return_keeps_budget env w u r st :
  returned (submitContext env w u r st) = Normal None ->
  forall now,
    shouldSubmitContext now (store (submitContext env w u r st))
      = shouldSubmitContext now st.
Proof.
  unfold submitContext.
  destruct (shouldSubmitContext (checkNow env) st); cbn; [|reflexivity].
  destruct (valid_time_value (timestamp w)); cbn;
    [|intros _ now; apply check_after_store_failed].
  destruct (post env) as [|status json]; cbn;
    [intros _ now; apply check_after_store_failed|].
  destruct (response_ok status); cbn; [|intros _ now; apply check_after_store_failed].
  destruct json; cbn; [discriminate|intros _ now; apply check_after_store_failed].
Qed.

(** After a network error the very next check is admitted again. *)
Lemma null_return_keeps_budget_witness :
  let res := submitContext (sample_env NetworkError "k3") sample_workspace "user_1" Idle
               empty_storage in
  returned res = Normal None /\
  shouldSubmitContext 12006 (store res) = true.
Proof.
  intros res.
  assert (H : returned res = Normal None) by reflexivity.
  split; [exact H|].
  transitivity (shouldSubmitContext 12006 empty_storage);
    [exact (null_return_keeps_budget _ _ _ _ _ H 12006)|reflexivity].
Defined.

(** The store after a call whose POST failed. *)
Lemma failed_post_queue env w u r st :
  posted (submitContext env w u r st) <> [] ->
  post_fails env ->
  returned (submitContext env w u r st) = Normal None /\
  store (submitContext env w u r st) = storeFailedSubmission env w u r st.
Proof.
  unfold post_fails, submitContext.
  destruct (shouldSubmitContext (checkNow env) st); cbn; [|congruence].
  destruct (valid_time_value (timestamp w)); cbn; [|congruence].
  destruct (post env) as [|status json]; cbn; [auto|].
  intros _ ->. cbn. auto.
Qed.

(** X7.  Push and drain compose: when a submission on a store with an
    empty queue fails at the POST and is written to the queue, and in the
    drain that follows the limiter admits the resubmission and the
    endpoint accepts it, the drain issues exactly one POST, whose body is
    built from the workspace, user id and reason of the failed call, and
    leaves the queue empty. *)
Theorem failed_submission_is_drained env storage envs w u r st :
  retry_queue st = [] ->
  posted (submitContext env w u r st) <> [] ->
  post_fails env ->
  storageRejects env = false ->
  getRejects storage = false ->
  setRejects storage = false ->
  shouldSubmitContext (checkNow (envs O)) st = true ->
  (exists status, post (envs O) = Response status true /\ response_ok status = true) ->
  let d := retryFailedSubmissions storage envs (store (submitContext env w u r st)) in
  drain_posted d = [contextData ("c-" +:+ correlationSuffix (envs O)) w u r] /\
  map resubmitted (retried d) = [true] /\
  retry_queue (after_retry d) = [].
Proof.
  intros Hq Hposted Hfail Hwritten Hget Hset Hadm (status & Hpost & Hok).
  assert (Hvalid : valid_time_value (timestamp w) = true).
  { revert Hposted. unfold submitContext.
    destruct (shouldSubmitContext (checkNow env) st); cbn; [|congruence].
    destruct (valid_time_value (timestamp w)); cbn; congruence. }
  destruct (failed_post_queue env w u r st Hposted Hfail) as [Hret Hstore].
  set (st1 := store (submitContext env w u r st)) in *.
  assert (Hq1 : failed_submissions st1 = Some [failed_record env w u r]).
  { rewrite Hstore. unfold storeFailedSubmission. rewrite Hwritten. cbn.
    unfold retry_queue in Hq. rewrite Hq. reflexivity. }
  assert (Hadm1 : shouldSubmitContext (checkNow (envs O)) st1 = true).
  { rewrite Hstore, check_after_store_failed. exact Hadm. }
  intros d. subst d. unfold drain_posted, retryFailedSubmissions. rewrite Hget, Hset, Hq1.
  cbn [Js.or_empty length Nat.eqb retryLoop workspace userId captureReason failed_record
       retry_store successfulRetries attempts app id].
  unfold submitContext. rewrite Hadm1, Hvalid, Hpost, Hok.
  cbn [negb returned posted truthy_context_id Js.truthy_string String.append store retried
       after_retry map flat_map sent resubmitted contextId attempted List.filter includes
       existsb app].
  change (Js.truthy_string ("c-" +:+ correlationSuffix (envs O))) with true.
  cbn [resubmitted contextId existsb id failed_record].
  rewrite String.eqb_refl. cbn. auto.
Qed.

(** A network error on a fresh store, then a drain that is accepted: the
    one POST of the drain carries the failed call's workspace, user and
    reason. *)
Lemma failed_submission_is_drained_witness :
  let env := sample_env NetworkError "k3" in
  let res := submitContext env sample_workspace "user_1" Manual empty_storage in
  retry_queue (store res) = [failed_record env sample_workspace "user_1" Manual] /\
  drain_posted (retryFailedSubmissions storage_answers all_accepted (store res))
    = [contextData "c-a" sample_workspace "user_1" Manual] /\
  retry_queue (after_retry (retryFailedSubmissions storage_answers all_accepted (store res)))
    = [].
Proof.
  intros env res. split; [reflexivity|].
  assert (H1 : retry_queue empty_storage = []) by reflexivity.
  assert (H2 : posted (submitContext env sample_workspace "user_1" Manual empty_storage) <> [])
    by (vm_compute; discriminate).
  assert (H3 : post_fails env) by exact I.
  assert (H4 : shouldSubmitContext (checkNow (all_accepted O)) empty_storage = true)
    by reflexivity.
  assert (H5 : exists status, post (all_accepted O) = Response status true /\
                              response_ok status = true)
    by (exists 200; split; reflexivity).
  destruct (failed_submission_is_drained env storage_answers all_accepted sample_workspace
              "user_1" Manual empty_storage H1 H2 H3 eq_refl eq_refl eq_refl H4 H5)
    as (Hp & _ & Hq).
  split; [exact Hp|exact Hq].
Defined.

(** Once a resubmission was counted at or after [T], the checks made
    before [T + 12 s] are all denied: the rest of the loop sends
    nothing. *)
Lemma retryLoop_denied envs T :
  (forall j, checkNow (envs j) < T + MIN_INTERVAL_MS) ->
  forall subs i s,
    T <= last_of (retry_store s) ->
    exists atts,
      attempts (retryLoop envs i subs s) = attempts s ++ atts /\
      Forall denied atts.
Proof.
  intros Henv. induction subs as [|e subs IH]; intros i s Hs; cbn [retryLoop].
  - exists []. now rewrite app_nil_r.
  - assert (E : shouldSubmitContext (checkNow (envs i)) (retry_store s) = false).
    { rewrite check_tests. specialize (Henv i).
      now replace (last_of (retry_store s) + MIN_INTERVAL_MS <=? checkNow (envs i))
        with false by lia. }
    unfold submitContext. rewrite E. cbn [negb returned posted store truthy_context_id].
    match goal with |- context [retryLoop envs (S i) subs ?s1] =>
      destruct (IH (S i) s1 Hs) as (atts & Ha & Hd) end.
    cbn [attempts] in Ha.
    match type of Ha with _ = (_ ++ [?a]) ++ _ => exists (a :: atts) end.
    rewrite Ha, <- app_assoc. split; [reflexivity|].
    constructor; [now split|exact Hd].
Qed.

Lemma denied_not_resubmitted (atts : list RetryAttempt) :
  Forall denied atts -> List.filter resubmitted atts = [].
Proof.
  induction 1 as [|a atts [_ Ha] _ IH]; [reflexivity|].
  cbn [List.filter]. now rewrite Ha.
Qed.

(** The attempts of a loop whose checks all fall in one span shorter than
    12 s: at most one returns a correlation id, and every attempt after it
    is denied. *)
Lemma retryLoop_one_success envs T :
  (forall j, T <= checkNow (envs j) < T + MIN_INTERVAL_MS /\
             checkNow (envs j) <= updateNow (envs j)) ->
  forall subs i s,
    exists atts,
      attempts (retryLoop envs i subs s) = attempts s ++ atts /\
      (length (List.filter resubmitted atts) <= 1)%nat /\
      forall before a after,
        atts = before ++ a :: after -> resubmitted a = true -> Forall denied after.
Proof.
  intros Henv. induction subs as [|e subs IH]; intros i s; cbn [retryLoop].
  - exists []. rewrite app_nil_r. split; [reflexivity|]. split; [cbn; lia|].
    intros [|b before] a after E; discriminate E.
  - set (res := submitContext (envs i) (workspace e) (userId e) (captureReason e)
                  (retry_store s)).
    set (a0 := {| attempted := e; sent := posted res;
                  contextId := truthy_context_id (returned res) |}).
    destruct (truthy_context_id (returned res)) as [c|] eqn:Ec.
    + assert (Hret : returned res = Normal (Some c)).
      { destruct (returned res) as [[c'|]|]; cbn in Ec; try discriminate Ec.
        destruct (Js.truthy_string c'); now inversion Ec. }
      destruct (proj2 (submit_ok_effects (envs i) (workspace e) (userId e) (captureReason e)
                         (retry_store s) c) Hret) as [_ Hstore].
      fold res in Hstore.
      match goal with |- context [retryLoop envs (S i) subs ?s1] =>
        destruct (retryLoop_denied envs T (fun j => proj2 (proj1 (Henv j))) subs (S i) s1)
          as (atts & Ha & Hd) end.
      { cbn [retry_store]. rewrite Hstore, updated_last. destruct (Henv i). lia. }
      cbn [attempts] in Ha. exists (a0 :: atts).
      rewrite Ha, <- app_assoc. split; [subst a0; rewrite ?Ec; reflexivity|]. split.
      * cbn [List.filter]. rewrite (denied_not_resubmitted atts Hd).
        destruct (resubmitted a0); cbn; lia.
      * intros [|b before] a after E Hr.
        -- injection E as _ <-. exact Hd.
        -- injection E as _ E. subst atts.
           apply Forall_app in Hd as [_ Hd]. apply Forall_cons_iff in Hd as [[_ Hd] _].
           congruence.
    + match goal with |- context [retryLoop envs (S i) subs ?s1] =>
        destruct (IH (S i) s1) as (atts & Ha & Hone & Hafter) end.
      cbn [attempts] in Ha. exists (a0 :: atts).
      rewrite Ha, <- app_assoc. split; [subst a0; rewrite ?Ec; reflexivity|]. split.
      * cbn [List.filter]. unfold resubmitted at 1. subst a0. cbn [contextId].
        exact Hone.
      * intros [|b before] a after E Hr.
        -- injection E as <- _. subst a0. unfold resubmitted in Hr.
           cbn [contextId] in Hr. discriminate Hr.
        -- injection E as _ E. exact (Hafter before a after E Hr).
Qed.

(** X8.  In a drain whose resubmissions are all checked within one span of
    less than 12 s (the clock not running backwards inside a call), at
    most one resubmission is accepted, and every resubmission after the
    accepted one is denied by the limiter: it issues no POST and returns
    no correlation id.  Resubmissions before it whose POST fails are still
    sent. *)
Theorem drain_within_interval_accepts_one storage envs st T :
  (forall j, T <= checkNow (envs j) < T + MIN_INTERVAL_MS /\
             checkNow (envs j) <= updateNow (envs j)) ->
  let d := retryFailedSubmissions storage envs st in
  (length (List.filter resubmitted (retried d)) <= 1)%nat /\
  forall before a after,
    retried d = before ++ a :: after -> resubmitted a = true ->
    Forall (fun b => sent b = [] /\ resubmitted b = false) after.
Proof.
  intros Henv d. subst d. unfold retryFailedSubmissions.
  assert (Hnone : (length (List.filter resubmitted (@nil RetryAttempt)) <= 1)%nat /\
                  forall before a after,
                    @nil RetryAttempt = before ++ a :: after -> resubmitted a = true ->
                    Forall (fun b => sent b = [] /\ resubmitted b = false) after).
  { split; [cbn; lia|]. intros [|b before] a after E; discriminate E. }
  destruct (getRejects storage); [exact Hnone|].
  destruct (length (Js.or_empty (failed_submissions st)) =? 0)%nat; [exact Hnone|].
  cbn [retried].
  destruct (retryLoop_one_success envs T Henv (Js.or_empty (failed_submissions st)) O
              {| retry_store := st; successfulRetries := []; attempts := [] |})
    as (atts & Ha & Hone & Hafter).
  cbn [attempts app] in Ha. rewrite Ha. split; [exact Hone|exact Hafter].
Qed.

(** Two queued submissions, both resubmitted at the same instant to an
    endpoint that accepts everything: the first is accepted, the second
    is denied without a POST. *)
Lemma drain_within_interval_accepts_one_witness :
  (forall j, 12000 <= checkNow (all_accepted j) < 12000 + MIN_INTERVAL_MS /\
             checkNow (all_accepted j) <= updateNow (all_accepted j)) /\
  map resubmitted (retried (retryFailedSubmissions storage_answers all_accepted two_queued))
    = [true; false] /\
  drain_posted (retryFailedSubmissions storage_answers all_accepted two_queued)
    = [contextData "c-a" sample_workspace "user_1" Idle] /\
  (length (List.filter resubmitted
             (retried (retryFailedSubmissions storage_answers all_accepted two_queued)))
   <= 1)%nat.
Proof.
  assert (H : forall j, 12000 <= checkNow (all_accepted j) < 12000 + MIN_INTERVAL_MS /\
                        checkNow (all_accepted j) <= updateNow (all_accepted j)).
  { intros j. unfold MIN_INTERVAL_MS. cbn. lia. }
  split; [exact H|]. split; [reflexivity|]. split; [reflexivity|].
  exact (proj1 (drain_within_interval_accepts_one storage_answers all_accepted two_queued
                  12000 H)).
Defined.

(** In the same span an endpoint that fails every POST is sent every
    queued entry: the limiter only counts accepted submissions. *)
Example failing_endpoint_gets_every_entry :
  let all_fail := fun _ : nat => sample_env NetworkError "a" in
  length (drain_posted (retryFailedSubmissions storage_answers all_fail two_queued)) = 2%nat.
Proof. reflexivity. Qed.

Lemma slice_last_app_slice {A} (n : nat) (q rest : list A) :
  Js.slice_last n (Js.slice_last n q ++ rest) = Js.slice_last n (q ++ rest).
Proof.
  unfold Js.slice_last. destruct (Nat.le_gt_cases n (length q)) as [Hle|Hgt].
  - rewrite !drop_app, !length_app, drop_drop, !length_drop.
    f_equal; f_equal; lia.
  - replace (length q - n)%nat with O by lia. reflexivity.
Qed.

(** X25.  Pushes accumulate in order: after any sequence of calls of
    [storeFailedSubmission], the persisted queue is what the last ten
    positions of "old queue followed by the records of the calls that were
    written, in push order" hold, so the entries evicted are always the
    oldest ones; calls that the storage rejected leave no trace. *)
Theorem pushes_keep_last_ten (cs : list FailedCall) (st : Storage) :
  retry_queue (push_all cs st)
    = match List.filter written cs with
      | [] => retry_queue st
      | _ :: _ => Js.slice_last 10 (retry_queue st ++ map record_of (List.filter written cs))
      end.
Proof.
  revert st. induction cs as [|c cs IH]; intros st; [reflexivity|].
  change (push_all (c :: cs) st)
    with (push_all cs (storeFailedSubmission (call_env c) (call_workspace c) (call_user c)
                         (call_reason c) st)).
  rewrite IH, store_failed_queue. cbn [List.filter].
  assert (Hw : written c = negb (storageRejects (call_env c))) by reflexivity.
  rewrite Hw. clear Hw.
  destruct (storageRejects (call_env c)); cbn [negb]; [reflexivity|].
  fold (record_of c). rewrite <- (slice_last_snoc 9).
  destruct (List.filter written cs) as [|c' l]; [reflexivity|].
  rewrite slice_last_app_slice. cbn [map]. now rewrite <- app_assoc.
Qed.

Example twelve_failures_queue :
  map id (retry_queue (push_all twelve_failures empty_storage))
  = map (fun n => "failed_" +:+ Js.show_int n) [3; 4; 5; 6; 7; 8; 9; 10; 11; 12].
Proof. reflexivity. Qed.

(** X9.  The insight cache round trip: a live fetch that succeeds at [t]
    returns the fetched insights and caches them; from then on
    [getCachedInsights] returns them whatever the time, and a failing fetch
    returns them while less than an hour has passed since [t], the empty
    sequence afterwards, and never changes the cache. *)
Theorem cache_round_trip (t : Z) (l : list AIInsight) (st : Storage) :
  let st' := (getInsights t (FetchReturns l) st).2 in
  (getInsights t (FetchReturns l) st).1 = l /\
  getCachedInsights st' = l /\
  forall t',
    (getInsights t' FetchFails st').2 = st' /\
    (t' - t < 3600000 -> (getInsights t' FetchFails st').1 = l) /\
    (3600000 <= t' - t -> (getInsights t' FetchFails st').1 = []).
Proof.
  cbn. repeat split.
  - now destruct (t' - t <? 3600000).
  - intros H. now replace (t' - t <? 3600000) with true by lia.
  - intros H. now replace (t' - t <? 3600000) with false by lia.
Qed.

Lemma cache_round_trip_witness :
  let st' := (getInsights 1000 (FetchReturns [sample_insight]) empty_storage).2 in
  (getInsights 3600999 FetchFails st').1 = [sample_insight] /\
  (getInsights 3601000 FetchFails st').1 = [].
Proof.
  intros st'.
  destruct (cache_round_trip 1000 [sample_insight] empty_storage) as (_ & _ & H).
  split.
  - apply (proj1 (proj2 (H 3600999))). lia.
  - apply (proj2 (proj2 (H 3601000))). lia.
Defined.

End AwsServiceMoreSpec.

(** ** URL hash *)

Module UrlHashSpec.

Import AwsServiceMore.

Lemma to_int32_range z : - 2 ^ 31 <= to_int32 z < 2 ^ 31.
Proof.
  unfold to_int32. pose proof (Z.mod_pos_bound (z + 2 ^ 31) (2 ^ 32)). lia.
Qed.

Lemma to_int32_shift z k : to_int32 (z + k * 2 ^ 32) = to_int32 z.
Proof.
  unfold to_int32.
  replace (z + k * 2 ^ 32 + 2 ^ 31) with (z + 2 ^ 31 + k * 2 ^ 32) by lia.
  now rewrite Z.mod_add by lia.
Qed.

Lemma to_int32_offset z : exists k, to_int32 z = z + k * 2 ^ 32.
Proof.
  exists (- ((z + 2 ^ 31) / 2 ^ 32)). unfold to_int32.
  pose proof (Z.div_mod (z + 2 ^ 31) (2 ^ 32)). lia.
Qed.

Lemma to_int32_small z : - 2 ^ 31 <= z < 2 ^ 31 -> to_int32 z = z.
Proof. intros H. unfold to_int32. rewrite Z.mod_small; lia. Qed.

(** One turn of the loop multiplies by 31 and adds the code unit, modulo
    2^32. *)
Lemma hash_step_polynomial p c :
  hash_step (to_int32 p) c = to_int32 (31 * p + c).
Proof.
  unfold hash_step, and32, shift_left32.
  rewrite Z.land_diag, Z.shiftl_mul_pow2 by lia.
  rewrite (to_int32_small (to_int32 p)) by apply to_int32_range.
  destruct (to_int32_offset (to_int32 p * 2 ^ 5)) as [k1 ->].
  destruct (to_int32_offset p) as [k2 ->].
  replace ((p + k2 * 2 ^ 32) * 2 ^ 5 + k1 * 2 ^ 32 - (p + k2 * 2 ^ 32) + c)
    with (31 * p + c + (31 * k2 + k1) * 2 ^ 32) by lia.
  apply to_int32_shift.
Qed.

Lemma hash_fold_polynomial units : forall p,
  fold_left hash_step units (to_int32 p)
    = to_int32 (fold_left (fun h c => 31 * h + c) units p).
Proof.
  induction units as [|c units IH]; intros p; cbn [fold_left]; [reflexivity|].
  rewrite hash_step_polynomial. apply IH.
Qed.

(** X10.  The loop of [hashUrl], with its shift, its subtraction and its
    [hash & hash], computes the polynomial in 31 over the code units of the
    URL, reduced to a signed 32-bit integer; the number that is printed in
    hexadecimal, [Math.abs(hash)], lies between 0 and 2^31. *)
Theorem hash_code_is_polynomial (units : list Z) :
  hash_code units = to_int32 (polynomial_31 units) /\
  - 2 ^ 31 <= hash_code units < 2 ^ 31 /\
  0 <= Z.abs (hash_code units) <= 2 ^ 31.
Proof.
  assert (H : hash_code units = to_int32 (polynomial_31 units)).
  { unfold hash_code, polynomial_31.
    change 0 with (to_int32 0) at 1. apply hash_fold_polynomial. }
  split; [exact H|].
  pose proof (to_int32_range (polynomial_31 units)) as Hr. rewrite <- H in Hr.
  split; [exact Hr|]. lia.
Qed.

Example hashUrl_abc : hashUrl "abc" = "17862".
Proof. reflexivity. Qed.

Example hashUrl_negative :
  hash_code (char_codes "https://docs.google.com/document/d/1") = -154785071 /\
  hashUrl "https://docs.google.com/document/d/1" = "939d52f".
Proof. split; reflexivity. Qed.

End UrlHashSpec.

(** ** Workspace capture *)

Module CaptureMoreSpec.

Import RateLimiter AwsService Submitter Capture CaptureMore CaptureSpec ListFacts
  SubmitterFacts.

Section Capturing.

Context {browser : Browser}.

Lemma snapshot_of_captured_as (tab : ChromeTab) :
  map (fun t => (tabId t, isActive t)) (snapshot_of tab) = option_list (captured_as tab).
Proof.
  unfold snapshot_of, captured_as, captures.
  destruct (usable_id tab) as [i|] eqn:Ei.
  - destruct (eligible tab); [|reflexivity].
    destruct (extracted tab) as [p|]; reflexivity.
  - unfold eligible. rewrite Ei. reflexivity.
Qed.

Lemma set_active_screenshot_ids filename l :
  map (fun t => (tabId t, isActive t)) (set_active_screenshot filename l)
    = map (fun t => (tabId t, isActive t)) l.
Proof.
  induction l as [|t l IH]; [reflexivity|].
  cbn [set_active_screenshot]. destruct (isActive t) eqn:E; cbn [map].
  - unfold with_screenshot. cbn [tabId isActive]. now rewrite E.
  - now rewrite IH.
Qed.

(** The tabs of the snapshot built by the loop over the tabs, before and
    after the screenshot step. *)
Lemma captureWindow_tabs ts wid l :
  let r := captureWindow ts wid l in
  tabs (windowSnapshot r) = flat_map snapshot_of l \/
  exists filename, tabs (windowSnapshot r)
                   = set_active_screenshot filename (flat_map snapshot_of l).
Proof.
  unfold captureWindow.
  destruct (captureTabs_fold l {| windowId := wid; activeTabId := -1; tabs := [] |})
    as [_ Htabs].
  cbn [tabs app] in Htabs. rewrite Htabs.
  destruct (awaits_screenshot _); [|now left].
  destruct (List.find isActive _) as [t|]; [|now left].
  destruct (captureVisibleTab wid) as [image|]; [|now left].
  destruct (Js.truthy_string image); [|now left].
  right. eexists. reflexivity.
Qed.

Lemma captureWindow_ids (ts wid : Z) (l : list ChromeTab) :
  map (fun t => (tabId t, isActive t)) (tabs (windowSnapshot (captureWindow ts wid l)))
    = omap captured_as l.
Proof.
  assert (H : map (fun t => (tabId t, isActive t)) (flat_map snapshot_of l)
              = omap captured_as l).
  { induction l as [|tab l IH]; [reflexivity|].
    cbn [flat_map]. rewrite map_app, IH, snapshot_of_captured_as.
    unfold omap. cbn [list_omap].
    destruct (captured_as tab); reflexivity. }
  destruct (captureWindow_tabs ts wid l) as [-> | [filename ->]];
    [|rewrite set_active_screenshot_ids]; exact H.
Qed.

(** X11.  The snapshot of a window lists exactly the tabs that are
    eligible and whose extraction yielded a snapshot, in the order of
    [window.tabs], each under its own id and with its own [active] flag. *)
Theorem snapshot_lists_captured_tabs (ts wid : Z) (l : list ChromeTab) :
  map (fun t => (tabId t, isActive t)) (tabs (windowSnapshot (captureWindow ts wid l)))
    = omap captured_as l.
Proof. apply captureWindow_ids. Qed.

(** X12.  Tab ids are unique within a window snapshot whenever the tabs
    the browser reports for the window have distinct ids. *)
Theorem snapshot_tab_ids_unique (ts wid : Z) (l : list ChromeTab) :
  NoDup (omap usable_id l) ->
  NoDup (map tabId (tabs (windowSnapshot (captureWindow ts wid l)))).
Proof.
  intros Hnd.
  replace (map tabId (tabs (windowSnapshot (captureWindow ts wid l))))
    with (map fst (omap captured_as l)).
  2:{ rewrite <- (captureWindow_ids ts wid). now rewrite map_map. }
  refine (sublist_NoDup _ _ Hnd _).
  clear Hnd. induction l as [|tab l IH]; [constructor|].
  unfold omap in *. cbn [list_omap]. unfold captured_as at 1.
  destruct (usable_id tab) as [i|]; destruct (captures tab); cbn;
    try (now constructor); exact IH.
Qed.

Lemma set_active_screenshot_active_ids filename l :
  map tabId (List.filter isActive (set_active_screenshot filename l))
    = map tabId (List.filter isActive l).
Proof.
  induction l as [|t l IH]; [reflexivity|].
  cbn [set_active_screenshot]. destruct (isActive t) eqn:E; cbn [List.filter].
  - unfold with_screenshot at 1. cbn [isActive]. rewrite E. reflexivity.
  - rewrite E. exact IH.
Qed.

Lemma captureTab_active_id ws tab :
  activeTabId ws = default (-1) (last (map tabId (List.filter isActive (tabs ws)))) ->
  activeTabId (captureTab ws tab)
    = default (-1) (last (map tabId (List.filter isActive (tabs (captureTab ws tab))))).
Proof.
  intros Hws. unfold captureTab.
  destruct (usable_id tab) as [i|]; [|exact Hws].
  destruct (http_address tab); cbn [negb]; [|exact Hws].
  destruct (executeScript i) as [[p|]|]; try exact Hws.
  cbn [activeTabId tabs]. rewrite List.filter_app, map_app. cbn [List.filter isActive].
  destruct (tab_active tab); cbn [map app tabId].
  - now rewrite last_snoc.
  - now rewrite app_nil_r.
Qed.

(** [activeTabId] is the id of the last active tab of the snapshot, or
    [-1]. *)
Lemma active_tab_id_formula (ts wid : Z) (l : list ChromeTab) :
  let ws := windowSnapshot (captureWindow ts wid l) in
  activeTabId ws = default (-1) (last (map tabId (List.filter isActive (tabs ws)))).
Proof.
  assert (Hfold : forall l ws,
    activeTabId ws = default (-1) (last (map tabId (List.filter isActive (tabs ws)))) ->
    activeTabId (fold_left captureTab l ws)
      = default (-1) (last (map tabId (List.filter isActive
                                         (tabs (fold_left captureTab l ws)))))).
  { clear l. induction l as [|tab l IH]; intros ws Hws; cbn [fold_left]; [exact Hws|].
    apply IH. now apply captureTab_active_id. }
  specialize (Hfold l {| windowId := wid; activeTabId := -1; tabs := [] |} eq_refl).
  unfold captureWindow.
  set (ws0 := fold_left captureTab l _) in *.
  destruct (awaits_screenshot _); [|exact Hfold].
  destruct (List.find isActive (tabs ws0)) as [t|]; [|exact Hfold].
  destruct (captureVisibleTab wid) as [image|]; [|exact Hfold].
  destruct (Js.truthy_string image); [|exact Hfold].
  cbn [windowSnapshot activeTabId tabs].
  now rewrite set_active_screenshot_active_ids.
Qed.

(** The ids in a snapshot are ids of the browser's tabs. *)
Lemma snapshot_tab_id_usable (ts wid : Z) (l : list ChromeTab) (t : TabSnapshot) :
  In t (tabs (windowSnapshot (captureWindow ts wid l))) ->
  exists tab, In tab l /\ usable_id tab = Some (tabId t).
Proof.
  intros Ht.
  assert (Hin : In (tabId t, isActive t) (omap captured_as l)).
  { rewrite <- (captureWindow_ids ts wid).
    apply (in_map (fun t => (tabId t, isActive t))). exact Ht. }
  apply list_elem_of_In, list_elem_of_omap in Hin as (tab & Htab & Hc).
  exists tab. split; [now apply list_elem_of_In|].
  unfold captured_as in Hc. destruct (captures tab); [|discriminate Hc].
  destruct (usable_id tab) as [i|]; [|discriminate Hc].
  cbn in Hc. injection Hc as <- _. reflexivity.
Qed.

(** X13.  In the snapshot of a window, [activeTabId] is the id of the last
    tab of the snapshot that is marked active, and [-1] when the snapshot
    holds no active tab.  When no tab of the window has the id [-1], the
    converse holds too: [activeTabId] is [-1] exactly when the snapshot
    holds no active tab. *)
Theorem active_tab_id_names_active_tab (ts wid : Z) (l : list ChromeTab) :
  let ws := windowSnapshot (captureWindow ts wid l) in
  activeTabId ws = default (-1) (last (map tabId (List.filter isActive (tabs ws)))) /\
  (List.filter isActive (tabs ws) = [] -> activeTabId ws = -1) /\
  (Forall (fun tab => usable_id tab <> Some (-1)) l ->
   (activeTabId ws = -1 <-> List.filter isActive (tabs ws) = [])).
Proof.
  intros ws. pose proof (active_tab_id_formula ts wid l) as Hf. fold ws in Hf.
  split; [exact Hf|]. split; [intros E; rewrite Hf, E; reflexivity|].
  intros Hids. split; [|intros E; rewrite Hf, E; reflexivity].
  intros Hminus. rewrite Hf in Hminus.
  destruct (last (map tabId (List.filter isActive (tabs ws)))) as [x|] eqn:El.
  - exfalso. cbn in Hminus. subst x.
    apply last_Some in El as [l' El].
    assert (Hin : In (-1) (map tabId (List.filter isActive (tabs ws)))).
    { rewrite El. apply in_or_app. right. now left. }
    apply in_map_iff in Hin as (t & Hid & Ht). apply filter_In in Ht as [Ht _].
    destruct (snapshot_tab_id_usable ts wid l t Ht) as (tab & Htab & Hu).
    rewrite List.Forall_forall in Hids. apply (Hids tab Htab). now rewrite Hu, Hid.
  - apply last_None in El. now apply map_eq_nil in El.
Qed.

Lemma captureSteps_store ts ws : forall s,
  capture_store (fold_left (captureStep ts) ws s)
    = fold_left store_blob (flat_map (stored ts) ws) (capture_store s).
Proof.
  induction ws as [|w ws IH]; intros s; cbn [fold_left flat_map]; [reflexivity|].
  rewrite IH, fold_left_app. f_equal.
  unfold captureStep, stored, window_result.
  destruct (window_tabs w) as [[|tab l]|]; reflexivity.
Qed.

(** Storing blobs touches their keys only, and leaves an image under each
    of them. *)
Lemma store_blobs_lookup (bs : list (string * string)) : forall st k,
  (~ In k (map fst bs) -> entries (fold_left store_blob bs st) !! k = entries st !! k) /\
  (In k (map fst bs) ->
   exists image, entries (fold_left store_blob bs st) !! k = Some (ItemImage image)).
Proof.
  induction bs as [|b bs IH]; intros st k; cbn [fold_left map].
  - split; [reflexivity|intros []].
  - destruct (IH (store_blob st b) k) as [IH1 IH2]. split.
    + intros Hk. rewrite IH1 by (intros H; apply Hk; now right).
      unfold store_blob. cbn [set_entries entries].
      apply lookup_insert_ne. intros E. apply Hk. now left.
    + intros Hk. destruct (in_dec string_dec k (map fst bs)) as [Hin|Hnot];
        [now apply IH2|].
      destruct Hk as [E|Hk]; [|contradiction].
      rewrite IH1 by exact Hnot. unfold store_blob. cbn [set_entries entries].
      rewrite <- E. rewrite lookup_insert_eq. eauto.
Qed.

Lemma store_blobs_fields (m : gmap string Item) (bs : list (string * string)) :
  forall st, set_entries m (fold_left store_blob bs st) = set_entries m st.
Proof.
  induction bs as [|b bs IH]; intros st; cbn [fold_left]; [reflexivity|].
  rewrite IH. reflexivity.
Qed.

Lemma blob_key_not_workspace_key ts tab now : blob_key ts tab <> workspace_key now.
Proof. unfold blob_key, workspace_key. cbn. discriminate. Qed.

(** What the capture stored, seen from the workspace and from the
    store. *)
Lemma capture_blobs service now ws st b :
  let r := captureWorkspace service now ws st in
  In b (screenshotBlobs r) ->
  (exists w t, In w (windows (workspaceCapture r)) /\ In t (tabs w) /\
               isActive t = true /\ b.1 = blob_key now (tabId t) /\
               data (snapshot t) = Some {| screenshot := ShotKey b.1 |}) /\
  (exists image, entries (persisted r) !! b.1 = Some (ItemImage image)).
Proof.
  unfold captureWorkspace.
  cbn [workspaceCapture screenshotBlobs windows persisted timestamp].
  rewrite (proj1 (submitWorkspaceToAWS_fields _ _ _)).
  set (s0 := {| captured := []; calls := []; written := []; capture_store := st |}).
  destruct (captureSteps_fold now ws s0) as (H1 & _ & H3).
  pose proof (captureSteps_store now ws s0) as H4.
  cbn [captured written capture_store app] in H1, H3, H4. rewrite H1, H3, H4.
  intros Hb. split.
  - apply in_flat_map in Hb as (w & Hw & Hb). unfold stored in Hb.
    destruct (window_result now w) as [r'|] eqn:Er; [|destruct Hb].
    assert (Hcw : exists l, r' = captureWindow now (window_id w) l).
    { unfold window_result in Er. destruct (window_tabs w) as [[|tab l]|];
        try discriminate Er. injection Er as <-. eauto. }
    destruct Hcw as [l ->].
    destruct (captureWindow_blob now (window_id w) l b Hb) as (_ & t & Ht & Ha & Hk & Hd).
    exists (windowSnapshot (captureWindow now (window_id w) l)), t.
    split; [|auto].
    apply in_flat_map. exists w. split; [exact Hw|].
    unfold kept. rewrite Er.
    destruct (tabs (windowSnapshot (captureWindow now (window_id w) l)));
      [destruct Ht|now left].
  - cbn [set_entries entries].
    assert (Hkey : exists tab, b.1 = blob_key now tab).
    { apply in_flat_map in Hb as (w & Hw & Hb). unfold stored in Hb.
      destruct (window_result now w) as [r'|] eqn:Er; [|destruct Hb].
      unfold window_result in Er. destruct (window_tabs w) as [[|tab l]|];
        try discriminate Er. injection Er as <-.
      destruct (captureWindow_blob now (window_id w) _ b Hb) as (_ & t & _ & _ & Hk & _).
      eauto. }
    destruct Hkey as [tab Hkey].
    rewrite lookup_insert_ne
      by (rewrite Hkey; intros E; symmetry in E; revert E; apply blob_key_not_workspace_key).
    apply store_blobs_lookup. now apply in_map.
Qed.

(** X14.  Every screenshot blob a capture stores is stored under
    [img_<timestamp>_<tabId>] for an active tab of a window kept in the
    workspace; that tab's payload references the key, and the persisted
    store holds an image under it. *)
Theorem stored_blobs_are_referenced (service : GateEnv) (now : Z) (ws : list ChromeWindow)
    (st : Storage) :
  let r := captureWorkspace service now ws st in
  Forall (fun b =>
    (exists w t, In w (windows (workspaceCapture r)) /\ In t (tabs w) /\
                 isActive t = true /\ b.1 = blob_key now (tabId t) /\
                 data (snapshot t) = Some {| screenshot := ShotKey b.1 |}) /\
    (exists image, entries (persisted r) !! b.1 = Some (ItemImage image)))
    (screenshotBlobs r).
Proof.
  intros r. apply List.Forall_forall. intros b Hb. now apply capture_blobs.
Qed.

(** What a capture writes: the entries at its workspace key and at its
    blob keys, and, on the other keys, what its submission writes. *)
Lemma capture_frame service now ws st :
  let r := captureWorkspace service now ws st in
  (forall k, k <> workspace_key now -> ~ In k (map fst (screenshotBlobs r)) ->
             entries (persisted r) !! k = entries st !! k) /\
  submission r
    = submitWorkspaceToAWS service (workspaceCapture r)
        (set_entries (entries (persisted r)) st) /\
  persisted r = gate_store (submission r).
Proof.
  unfold captureWorkspace.
  cbn [workspaceCapture screenshotBlobs windows persisted submission timestamp].
  rewrite (proj1 (submitWorkspaceToAWS_fields _ _ _)).
  set (s0 := {| captured := []; calls := []; written := []; capture_store := st |}).
  destruct (captureSteps_fold now ws s0) as (_ & _ & H3).
  pose proof (captureSteps_store now ws s0) as H4.
  cbn [captured written capture_store app] in H3, H4. rewrite H3, H4.
  split; [|split; [|reflexivity]].
  - intros k Hk Hnot. cbn [set_entries entries].
    rewrite lookup_insert_ne by (intros E; apply Hk; symmetry; exact E).
    now apply store_blobs_lookup.
  - cbn [entries set_entries]. f_equal. apply store_blobs_fields.
Qed.

(** X15.  When a capture returns, it has changed the entries of the store
    at its workspace key and at the keys of the blobs it stored, and
    nowhere else; it has not touched the insight cache (the fetch that the
    submission may schedule runs later); and the rate-limiter counters and
    the retry queue are what [submitWorkspaceToAWS], called on the
    captured workspace, makes of the old ones.  When the gate of the
    submission is closed (the limiter denies, no user id is set, or the
    endpoint is not healthy), every key but the capture's own is as
    before. *)
Theorem capture_touches_its_keys_only (service : GateEnv) (now : Z)
    (ws : list ChromeWindow) (st : Storage) :
  let r := captureWorkspace service now ws st in
  (forall k, k <> workspace_key now -> ~ In k (map fst (screenshotBlobs r)) ->
             entries (persisted r) !! k = entries st !! k) /\
  cached_insights (persisted r) = cached_insights st /\
  insights_cached_at (persisted r) = insights_cached_at st /\
  persisted r
    = gate_store (submitWorkspaceToAWS service (workspaceCapture r)
                    (set_entries (entries (persisted r)) st)) /\
  (gate_closed service st -> persisted r = set_entries (entries (persisted r)) st).
Proof.
  intros r. destruct (capture_frame service now ws st) as (Hentries & Hsub & Hstore).
  fold r in Hentries, Hsub, Hstore.
  set (saved := set_entries (entries (persisted r)) st) in *.
  destruct (submitWorkspaceToAWS_fields service (workspaceCapture r) saved)
    as (_ & Hc & Ha).
  rewrite <- Hsub, <- Hstore in Hc, Ha.
  split; [exact Hentries|]. split; [exact Hc|]. split; [exact Ha|].
  split; [now rewrite <- Hsub|].
  intros Hclosed. rewrite Hstore at 1. rewrite Hsub.
  apply closed_gate_store. exact Hclosed.
Qed.

End Capturing.

End CaptureMoreSpec.

(** ** Expiration sweep *)

Module SweepMoreSpec.

Import Sweep SweepMore SweepSpec.

Section Cleanup.

Variable img_older_than : string -> Z -> bool.

(** A key that no expired snapshot claims is not marked. *)
Lemma unclaimed_not_marked (now : Z) (st : Storage) (x : string) :
  unclaimed_by_expired (now - 7 * day) st x ->
  entries (swept (cleanupExpiredSnapshots img_older_than now st)) !! x = entries st !! x.
Proof.
  intros Hun. rewrite swept_lookup, bool_decide_eq_false_2; [reflexivity|].
  rewrite toBeDeleted_iff.
  intros (key' & w' & Hp' & Ht' & Hx).
  destruct (Hun key' w' Hp' Ht') as [Hne Hnotin].
  destruct Hx as [-> | Hx]; [now apply Hne|now apply Hnotin].
Qed.

(** X16.  The sweep removes a key only as the key of an expired snapshot
    or as a screenshot that an expired snapshot references.  Every other
    entry stays, whatever the test of the inner [img_] branch would say: in
    particular an image that no expired snapshot references is never
    swept, however old it is. *)
Theorem sweep_leaves_unclaimed_keys (now : Z) (st : Storage) (x : string) :
  unclaimed_by_expired (now - 7 * day) st x ->
  entries (swept (cleanupExpiredSnapshots img_older_than now st)) !! x = entries st !! x.
Proof. apply unclaimed_not_marked. Qed.

(** After a sweep nothing is left to mark. *)
Lemma swept_has_no_expired (now : Z) (st : Storage) :
  flat_map (marked img_older_than (now - retentionMs))
    (map_to_list (entries (swept (cleanupExpiredSnapshots img_older_than now st)))) = [].
Proof.
  destruct (flat_map _ _) as [|x l] eqn:E; [reflexivity|exfalso].
  assert (Hx : x ∈ flat_map (marked img_older_than (now - retentionMs))
                 (map_to_list (entries (swept (cleanupExpiredSnapshots img_older_than now st)))))
    by (rewrite E; apply list_elem_of_here).
  apply toBeDeleted_iff in Hx as (key & w & [Hl Hp] & Ht & _).
  rewrite swept_lookup in Hl.
  case_bool_decide as Hk; [discriminate Hl|].
  apply Hk, toBeDeleted_iff. exists key, w. unfold persisted_snapshot. auto.
Qed.

(** X17.  The sweep is idempotent: run again at the same instant on the
    store it produced, it finds nothing to delete, makes no call of
    [chrome.storage.local.remove] and leaves the store as it is. *)
Theorem sweep_idempotent (now : Z) (st : Storage) :
  let once := swept (cleanupExpiredSnapshots img_older_than now st) in
  removeCalls (cleanupExpiredSnapshots img_older_than now once) = [] /\
  swept (cleanupExpiredSnapshots img_older_than now once) = once.
Proof.
  intros once.
  assert (E : cleanupExpiredSnapshots img_older_than now once
              = {| removeCalls := []; swept := once |}).
  { unfold cleanupExpiredSnapshots at 1. unfold once at 1.
    rewrite swept_has_no_expired. reflexivity. }
  rewrite E. auto.
Qed.

End Cleanup.

(** No snapshot is stored beside the orphan image. *)
Lemma orphan_unclaimed (x : string) :
  unclaimed_by_expired (sweep_now - 7 * day) orphan_image x.
Proof.
  intros key' w' [Hl _] _. exfalso.
  apply elem_of_map_to_list in Hl.
  set (l := map_to_list _) in Hl. vm_compute in l. subst l.
  apply list_elem_of_singleton in Hl. discriminate Hl.
Qed.

(** An image thirty days old that no snapshot references survives the
    sweep, even if the inner test would call it older than the cutoff. *)
Lemma sweep_leaves_unclaimed_keys_witness :
  let key := img_key (sweep_now - 30 * day) 5 in
  unclaimed_by_expired (sweep_now - 7 * day) orphan_image key /\
  entries (swept (cleanupExpiredSnapshots always_older sweep_now orphan_image)) !! key
    = Some (ItemImage "data:image/jpeg;base64,CCCC").
Proof.
  intros key.
  pose proof (orphan_unclaimed key) as H.
  split; [exact H|].
  transitivity (entries orphan_image !! key); [|vm_compute; reflexivity].
  exact (sweep_leaves_unclaimed_keys always_older sweep_now orphan_image key H).
Defined.

End SweepMoreSpec.

(** ** Capture, sweep and history page together *)

Module PipelineSpec.

Import RateLimiter AwsService AwsServiceMore Submitter Capture CaptureMore.
Import SubmitterFacts CaptureSpec CaptureMoreSpec Sweep SweepSpec History.

Lemma screenshot_key_of_tab (W : WorkspaceCapture) (w : WindowSnapshot) (t : TabSnapshot)
    (k : string) :
  In w (windows W) -> In t (tabs w) ->
  data (snapshot t) = Some {| screenshot := ShotKey k |} ->
  Js.truthy_string k = true ->
  In k (screenshot_keys W).
Proof.
  intros Hw Ht Hd Hk. unfold screenshot_keys.
  apply in_flat_map. exists w. split; [exact Hw|].
  apply in_flat_map. exists t. split; [exact Ht|].
  unfold screenshot_of. rewrite Hd. cbn. rewrite Hk. now left.
Qed.

Lemma blob_key_truthy now tab : Js.truthy_string (blob_key now tab) = true.
Proof. reflexivity. Qed.

Lemma prefix_append (s t : string) : String.prefix s (s +:+ t) = true.
Proof.
  induction s as [|c s IH]; [now destruct t|].
  change (String c s +:+ t) with (String c (s +:+ t)). cbn [String.prefix].
  destruct (ascii_dec c c) as [_|Hne]; [exact IH|now exfalso; apply Hne].
Qed.

Lemma workspace_key_prefix now :
  String.prefix "workspace_" (CaptureMore.workspace_key now) = true.
Proof. apply prefix_append. Qed.

Section Capturing.

Context {browser : Browser}.

(** The workspace a capture persists, as the sweep sees it. *)
Lemma capture_persists_snapshot service now ws st :
  let r := captureWorkspace service now ws st in
  persisted_snapshot (persisted r) (CaptureMore.workspace_key now) (workspaceCapture r) /\
  timestamp (workspaceCapture r) = now /\
  forall b, In b (screenshotBlobs r) -> In b.1 (screenshot_keys (workspaceCapture r)).
Proof.
  intros r. split; [|split].
  - split; [|apply workspace_key_prefix].
    unfold r, captureWorkspace. cbn [persisted workspaceCapture timestamp].
    rewrite (proj1 (submitWorkspaceToAWS_fields _ _ _)). cbn [set_entries entries].
    apply lookup_insert_eq.
  - reflexivity.
  - intros b Hb.
    destruct (capture_blobs service now ws st b Hb) as ((w & t & Hw & Ht & _ & Hk & Hd) & _).
    eapply screenshot_key_of_tab; eauto. rewrite Hk. apply blob_key_truthy.
Qed.

(** X18.  Capture and sweep compose: a sweep that runs more than seven
    days after a capture removes the workspace the capture persisted and
    every screenshot blob the capture stored. *)
Theorem expired_capture_is_swept (img_older_than : string -> Z -> bool)
    (service : GateEnv) (now later : Z) (ws : list ChromeWindow) (st : Storage) :
  now < later - 7 * day ->
  let r := captureWorkspace service now ws st in
  let after := swept (cleanupExpiredSnapshots img_older_than later (persisted r)) in
  entries after !! CaptureMore.workspace_key now = None /\
  Forall (fun b => entries after !! b.1 = None) (screenshotBlobs r).
Proof.
  intros Hold r after.
  destruct (capture_persists_snapshot service now ws st) as (Hp & Hts & Hblobs).
  fold r in Hp, Hts, Hblobs.
  assert (Hmarked : forall x,
            x = CaptureMore.workspace_key now \/ In x (screenshot_keys (workspaceCapture r)) ->
            entries after !! x = None).
  { intros x Hx. unfold after. rewrite swept_lookup, bool_decide_eq_true_2; [reflexivity|].
    apply toBeDeleted_iff. exists (CaptureMore.workspace_key now), (workspaceCapture r).
    split; [exact Hp|]. split; [rewrite Hts; exact Hold|].
    destruct Hx as [-> | Hx]; [now left|right; now apply list_elem_of_In]. }
  split; [apply Hmarked; now left|].
  apply List.Forall_forall. intros b Hb. apply Hmarked. right. now apply Hblobs.
Qed.

(** On pages as the page script builds them, the screenshot keys of a
    window snapshot are the keys of the blobs stored for that window. *)
Lemma bare_snapshot_of (tab : ChromeTab) :
  bare_pages -> flat_map screenshot_of (snapshot_of tab) = [].
Proof.
  intros Hbare. unfold snapshot_of, extracted.
  destruct (usable_id tab) as [i|]; [|reflexivity].
  destruct (eligible tab); [|reflexivity].
  destruct (executeScript i) as [[p|]|] eqn:Ex; try reflexivity.
  cbn. unfold screenshot_of. cbn [snapshot].
  destruct (data p) as [d|] eqn:Ed; [|reflexivity].
  destruct (screenshot d) as [| |k] eqn:Es; try reflexivity.
  exfalso. exact (Hbare i p d k Ex Ed Es).
Qed.

Lemma bare_tabs (l : list ChromeTab) :
  bare_pages -> flat_map screenshot_of (flat_map snapshot_of l) = [].
Proof.
  intros Hbare. induction l as [|tab l IH]; [reflexivity|].
  cbn [flat_map]. rewrite flat_map_app, IH, bare_snapshot_of by exact Hbare. reflexivity.
Qed.

Lemma set_active_screenshot_keys filename (l : list TabSnapshot) (x : string) :
  flat_map screenshot_of l = [] ->
  In x (flat_map screenshot_of (set_active_screenshot filename l)) -> x = filename.
Proof.
  induction l as [|t l IH]; cbn [set_active_screenshot flat_map]; [intros _ []|].
  intros E. apply app_eq_nil in E as [Et El].
  destruct (isActive t).
  - cbn [flat_map]. rewrite El, app_nil_r. unfold screenshot_of, with_screenshot.
    cbn [snapshot data screenshot]. destruct (Js.truthy_string filename); [|intros []].
    intros [<- | []]. reflexivity.
  - cbn [flat_map]. rewrite Et. cbn [app]. now apply IH.
Qed.

Lemma captureWindow_keys ts wid l x :
  bare_pages ->
  In x (flat_map screenshot_of (tabs (windowSnapshot (captureWindow ts wid l)))) ->
  In x (map fst (blobs (captureWindow ts wid l))).
Proof.
  intros Hbare. unfold captureWindow.
  destruct (captureTabs_fold l {| windowId := wid; activeTabId := -1; tabs := [] |})
    as [_ Htabs].
  cbn [tabs app] in Htabs. rewrite Htabs.
  pose proof (bare_tabs l Hbare) as Hnone.
  destruct (awaits_screenshot _);
    [|cbn [windowSnapshot tabs]; rewrite Htabs, Hnone; intros []].
  destruct (List.find isActive _) as [t|];
    [|cbn [windowSnapshot tabs]; rewrite Htabs, Hnone; intros []].
  destruct (captureVisibleTab wid) as [image|];
    [|cbn [windowSnapshot tabs]; rewrite Htabs, Hnone; intros []].
  destruct (Js.truthy_string image);
    [|cbn [windowSnapshot tabs]; rewrite Htabs, Hnone; intros []].
  cbn [windowSnapshot tabs blobs map fst].
  intros Hx. left. symmetry. eapply set_active_screenshot_keys; eauto.
Qed.

Lemma capture_keys service now ws st x :
  bare_pages ->
  let r := captureWorkspace service now ws st in
  In x (screenshot_keys (workspaceCapture r)) -> In x (map fst (screenshotBlobs r)).
Proof.
  intros Hbare. unfold captureWorkspace.
  cbn [workspaceCapture screenshotBlobs windows].
  set (s0 := {| captured := []; calls := []; written := []; capture_store := st |}).
  destruct (captureSteps_fold now ws s0) as (H1 & _ & H3).
  cbn [captured written app] in H1, H3. rewrite H1, H3.
  unfold screenshot_keys. cbn [windows].
  intros Hx. apply in_flat_map in Hx as (wsnap & Hw & Hx).
  apply in_flat_map in Hw as (w & Hw & Hk).
  apply in_map_iff.
  unfold kept in Hk. destruct (window_result now w) as [r'|] eqn:Er; [|destruct Hk].
  assert (Hin : In wsnap [windowSnapshot r']).
  { destruct (tabs (windowSnapshot r')); [destruct Hk|exact Hk]. }
  destruct Hin as [<- | []].
  unfold window_result in Er.
  destruct (window_tabs w) as [[|tab l]|] eqn:Et; try discriminate Er.
  injection Er as <-.
  pose proof (captureWindow_keys now (window_id w) (tab :: l) x Hbare Hx) as Hb.
  apply in_map_iff in Hb as (b & Hb1 & Hb2).
  exists b. split; [exact Hb1|].
  apply in_flat_map. exists w. split; [exact Hw|].
  unfold stored, window_result. rewrite Et. exact Hb2.
Qed.

Lemma set_own_entries (st : Storage) : set_entries (entries st) st = st.
Proof. now destruct st. Qed.

(** X19.  Capture and delete compose: on pages as the page script builds
    them, when the store held nothing under the keys of the capture
    ([workspace_<now>] and [img_<now>_...]), a capture followed by
    [deleteWorkspace] on the captured workspace leaves the entries of the
    store as they were before the capture, and the store as a whole as
    the submission of the captured workspace alone makes it (only the
    rate-limiter counters or the retry queue can differ).  When the gate
    of the submission is closed, that is the store there was before the
    capture. *)
Theorem capture_then_delete_restores (service : GateEnv) (now : Z)
    (ws : list ChromeWindow) (st : Storage) :
  bare_pages ->
  entries st !! CaptureMore.workspace_key now = None ->
  (forall tab, entries st !! blob_key now tab = None) ->
  let r := captureWorkspace service now ws st in
  let after := deleteWorkspace true (Some (CaptureMore.workspace_key now))
                 (workspaceCapture r) (persisted r) in
  entries after = entries st /\
  after = gate_store (submitWorkspaceToAWS service (workspaceCapture r) st) /\
  (gate_closed service st -> after = st).
Proof.
  intros Hbare Hfresh Hblobs r after.
  destruct (capture_frame service now ws st) as (Hother & Hsub & Hstore).
  fold r in Hother, Hsub, Hstore.
  set (G := gate_store (submitWorkspaceToAWS service (workspaceCapture r) st)).
  assert (HP : persisted r = set_entries (entries (persisted r)) G).
  { rewrite Hstore at 1. rewrite Hsub.
    apply (submitWorkspaceToAWS_set_entries (entries (persisted r)) service
             (workspaceCapture r) st). }
  assert (Hkeys : forall x, In x (screenshot_keys (workspaceCapture r)) ->
                            exists tab, x = blob_key now tab).
  { intros x Hx.
    apply (capture_keys service now ws st x Hbare), in_map_iff in Hx as (b & <- & Hb).
    destruct (capture_blobs service now ws st b Hb) as ((w & t & _ & _ & _ & Hk & _) & _).
    eauto. }
  assert (Hentries : remove_keys
            (CaptureMore.workspace_key now :: screenshot_keys (workspaceCapture r))
            (entries (persisted r)) = entries st).
  { apply map_eq. intros x.
    destruct (decide (x ∈ CaptureMore.workspace_key now
                            :: screenshot_keys (workspaceCapture r))) as [Hin|Hnot].
    - rewrite remove_keys_elem by exact Hin.
      apply elem_of_cons in Hin as [-> | Hin]; [now rewrite Hfresh|].
      apply list_elem_of_In, Hkeys in Hin as [tab ->]. symmetry. apply Hblobs.
    - rewrite remove_keys_other by exact Hnot.
      apply not_elem_of_cons in Hnot as [Hne Hnot].
      apply Hother; [exact Hne|].
      intros Hb. apply Hnot. apply in_map_iff in Hb as (b & <- & Hb).
      apply list_elem_of_In.
      destruct (capture_persists_snapshot service now ws st) as (_ & _ & Hrefs).
      now apply Hrefs. }
  assert (Hafter : after = G).
  { subst after. unfold deleteWorkspace. cbn [negb].
    change (Js.truthy_string (CaptureMore.workspace_key now)) with true. cbn [app].
    rewrite remove_prefixed.
    - rewrite Hentries. rewrite HP. cbn [set_entries entries].
      rewrite <- (proj1 (submitWorkspaceToAWS_fields service (workspaceCapture r) st)).
      fold G. rewrite <- (set_own_entries G) at 3. reflexivity.
    - constructor.
      + rewrite workspace_key_prefix. reflexivity.
      + apply List.Forall_forall. intros x Hx. apply Hkeys in Hx as [tab ->].
        unfold blob_key. rewrite prefix_append. apply orb_true_r. }
  split; [|split].
  - rewrite Hafter. apply (submitWorkspaceToAWS_fields service (workspaceCapture r) st).
  - exact Hafter.
  - intros Hclosed. rewrite Hafter. apply closed_gate_store. exact Hclosed.
Qed.

Lemma filter_all_false (l : list TabSnapshot) :
  Forall (fun t => isActive t = false) l -> List.filter isActive l = [].
Proof.
  induction 1 as [|t l Ht _ IH]; [reflexivity|]. cbn [List.filter]. now rewrite Ht.
Qed.

(** X26.  When no window of a capture gets an active tab into its
    snapshot (each active tab is skipped or fails extraction), the
    workspace holds no active tab at all and [generateUrlHash] answers
    with the sentinel [no-active-tab]. *)
Theorem lost_active_tabs_send_sentinel (service : GateEnv) (now : Z)
    (ws : list ChromeWindow) (st : Storage) :
  Forall active_tab_lost ws ->
  generateUrlHash (workspaceCapture (captureWorkspace service now ws st)) = "no-active-tab".
Proof.
  intros Hlost. unfold generateUrlHash, captureWorkspace. cbn [workspaceCapture windows].
  destruct (captureSteps_fold now ws
              {| captured := []; calls := []; written := []; capture_store := st |})
    as (H1 & _ & _).
  cbn [captured app] in H1. rewrite H1. clear H1.
  assert (Hnone : flat_map (fun window => List.filter isActive (tabs window))
                    (flat_map (kept now) ws) = []).
  { induction Hlost as [|w ws Hw _ IH]; [reflexivity|].
    cbn [flat_map]. rewrite flat_map_app, IH, app_nil_r.
    unfold kept, window_result. unfold active_tab_lost in Hw.
    destruct (window_tabs w) as [[|tab l]|]; try reflexivity.
    cbn [from_option Datatypes.id] in Hw.
    assert (Hf : List.filter isActive
                   (tabs (windowSnapshot (captureWindow now (window_id w) (tab :: l)))) = []).
    { destruct (captureTabs_no_active (tab :: l) Hw
                  {| windowId := window_id w; activeTabId := -1; tabs := [] |}) as [_ Hall].
      pose proof (filter_all_false _ Hall) as Hnil.
      destruct (captureWindow_tabs now (window_id w) (tab :: l)) as [-> | [f ->]];
        [exact Hnil|].
      apply (map_eq_nil tabId). rewrite set_active_screenshot_active_ids, Hnil. reflexivity. }
    destruct (tabs (windowSnapshot (captureWindow now (window_id w) (tab :: l))))
      as [|t ts] eqn:Et; [reflexivity|].
    cbn [flat_map]. rewrite Et, Hf. reflexivity. }
  now rewrite Hnone.
Qed.

End Capturing.

(** The only active tab of the only window fails extraction. *)
Lemma lost_active_tabs_send_sentinel_witness :
  Forall (active_tab_lost (browser := tab_11_fails)) [active_and_background] /\
  generateUrlHash
    (workspaceCapture (captureWorkspace (browser := tab_11_fails)
                         (closed_gate 1700000000000) 1700000000000
                         [active_and_background] empty_storage))
  = "no-active-tab".
Proof.
  assert (H : Forall (active_tab_lost (browser := tab_11_fails)) [active_and_background]).
  { apply Forall_singleton. unfold active_tab_lost. cbn.
    repeat constructor; vm_compute; congruence. }
  split; [exact H|].
  exact (lost_active_tabs_send_sentinel (browser := tab_11_fails)
           (closed_gate 1700000000000) 1700000000000 [active_and_background]
           empty_storage H).
Defined.

Lemma all_docs_bare : bare_pages (H := all_docs).
Proof.
  intros i p d k E Ed Es. cbn in E. injection E as <-.
  cbn in Ed. injection Ed as <-. discriminate Es.
Qed.

(** Two windows with a Google document each, captured and submitted, and
    swept eight days later. *)
Lemma expired_capture_is_swept_witness :
  let now := 1700000000000 in
  let r := captureWorkspace (browser := all_docs) (submitting_gate now) now two_windows
             empty_storage in
  let after := swept (cleanupExpiredSnapshots never_older (now + 8 * day) (persisted r)) in
  now < now + 8 * day - 7 * day /\
  map fst (screenshotBlobs r) = [blob_key now 11; blob_key now 21] /\
  entries after !! CaptureMore.workspace_key now = None /\
  Forall (fun b => entries after !! b.1 = None) (screenshotBlobs r).
Proof.
  intros now r after.
  assert (H : now < now + 8 * day - 7 * day) by (vm_compute; reflexivity).
  split; [exact H|]. split; [reflexivity|].
  exact (expired_capture_is_swept (browser := all_docs) never_older (submitting_gate now)
           now (now + 8 * day) two_windows empty_storage H).
Defined.

(** The same capture, deleted from the history page: with the gate
    closed the store is empty again; with the gate open and the POST
    accepted, what is left is the limiter's record of one submission. *)
Lemma capture_then_delete_restores_witness :
  let now := 1700000000000 in
  let quiet := captureWorkspace (browser := all_docs) (closed_gate now) now two_windows
                 empty_storage in
  let sent := captureWorkspace (browser := all_docs) (submitting_gate now) now two_windows
                empty_storage in
  bare_pages (H := all_docs) /\
  entries empty_storage !! CaptureMore.workspace_key now = None /\
  (forall tab, entries empty_storage !! blob_key now tab = None) /\
  gate_closed (closed_gate now) empty_storage /\
  deleteWorkspace true (Some (CaptureMore.workspace_key now)) (workspaceCapture quiet)
    (persisted quiet) = empty_storage /\
  deleteWorkspace true (Some (CaptureMore.workspace_key now)) (workspaceCapture sent)
    (persisted sent) = updateRateLimitCounters (now + 5) empty_storage.
Proof.
  intros now quiet sent.
  assert (H1 : entries empty_storage !! CaptureMore.workspace_key now = None)
    by apply lookup_empty.
  assert (H2 : forall tab, entries empty_storage !! blob_key now tab = None)
    by (intros tab; apply lookup_empty).
  assert (H3 : gate_closed (closed_gate now) empty_storage) by (right; left; reflexivity).
  split; [exact all_docs_bare|]. split; [exact H1|]. split; [exact H2|].
  split; [exact H3|]. split.
  - exact (proj2 (proj2 (capture_then_delete_restores (browser := all_docs) (closed_gate now)
                           now two_windows empty_storage all_docs_bare H1 H2)) H3).
  - transitivity (gate_store (submitWorkspaceToAWS (submitting_gate now)
                                (workspaceCapture sent) empty_storage)).
    + exact (proj1 (proj2 (capture_then_delete_restores (browser := all_docs)
                             (submitting_gate now) now two_windows empty_storage
                             all_docs_bare H1 H2))).
    + reflexivity.
Defined.

(** The entries of another capture are not touched; with the gate closed
    nothing but the capture's own keys changes, and with the gate open and
    the POST accepted the limiter's counters change as well. *)
Lemma capture_touches_its_keys_only_witness :
  let now := 1700000000000 in
  let quiet := captureWorkspace (browser := all_docs) (closed_gate now) now two_windows
                 old_and_recent in
  let sent := captureWorkspace (browser := all_docs) (submitting_gate now) now two_windows
                old_and_recent in
  let k := Sweep.workspace_key six_days_ago in
  k <> CaptureMore.workspace_key now /\
  ~ In k (map fst (screenshotBlobs quiet)) /\
  gate_closed (closed_gate now) old_and_recent /\
  entries (persisted quiet) !! k = entries old_and_recent !! k /\
  persisted quiet = set_entries (entries (persisted quiet)) old_and_recent /\
  last_aws_submission (persisted sent) = Some (now + 5).
Proof.
  intros now quiet sent k.
  assert (H1 : k <> CaptureMore.workspace_key now) by (vm_compute; discriminate).
  assert (H2 : ~ In k (map fst (screenshotBlobs quiet))).
  { vm_compute. intros [E|[E|[]]]; discriminate E. }
  assert (H3 : gate_closed (closed_gate now) old_and_recent) by (right; left; reflexivity).
  destruct (capture_touches_its_keys_only (browser := all_docs) (closed_gate now) now
              two_windows old_and_recent) as (Hk & _ & _ & _ & Hclosed).
  split; [exact H1|]. split; [exact H2|]. split; [exact H3|].
  split; [exact (Hk k H1 H2)|]. split; [exact (Hclosed H3)|].
  reflexivity.
Defined.

(** The active tab 11 fails extraction and the background tab 12 is
    captured: [activeTabId] is [-1] and the snapshot holds no active
    tab. *)
Lemma active_tab_id_names_active_tab_witness :
  let l := [http_tab 11 true; http_tab 12 false] in
  let ws := windowSnapshot (captureWindow (browser := tab_11_fails) 1700000000000 1 l) in
  Forall (fun tab => usable_id tab <> Some (-1)) l /\
  activeTabId ws = -1 /\
  List.filter isActive (tabs ws) = [].
Proof.
  intros l ws.
  assert (H : Forall (fun tab => usable_id tab <> Some (-1)) l).
  { repeat constructor; vm_compute; discriminate. }
  assert (Hid : activeTabId ws = -1) by reflexivity.
  split; [exact H|]. split; [exact Hid|].
  exact (proj1 (proj2 (proj2 (active_tab_id_names_active_tab (browser := tab_11_fails)
                                1700000000000 1 l)) H) Hid).
Defined.

(** A captured active tab whose id is [-1] leaves [activeTabId] at [-1]
    although the snapshot holds an active tab. *)
Example active_tab_with_id_minus_one :
  let ws := windowSnapshot (captureWindow (browser := all_docs) 1700000000000 1
                              [http_tab (-1) true]) in
  activeTabId ws = -1 /\ map tabId (List.filter isActive (tabs ws)) = [-1].
Proof. split; reflexivity. Qed.

(** Three tabs with distinct ids, the second of which fails. *)
Lemma snapshot_tab_ids_unique_witness :
  let l := [http_tab 1 true; http_tab 2 false; http_tab 3 false] in
  NoDup (omap usable_id l) /\
  map tabId (tabs (windowSnapshot (captureWindow (browser := tab_2_fails) 1700000000000 1 l)))
    = [1; 3] /\
  NoDup (map tabId (tabs (windowSnapshot
                            (captureWindow (browser := tab_2_fails) 1700000000000 1 l)))).
Proof.
  intros l.
  assert (H : NoDup (omap usable_id l)).
  { apply (bool_decide_unpack (NoDup (omap usable_id l))). vm_compute. exact I. }
  split; [exact H|]. split; [reflexivity|].
  exact (snapshot_tab_ids_unique (browser := tab_2_fails) 1700000000000 1 l H).
Defined.

End PipelineSpec.

(** ** History page *)

Module HistorySpec.

Import AwsService Sweep SweepSpec History.

Lemma cleared_keys (m : gmap string Item) (x : string) :
  x ∈ List.filter history_key (map fst (map_to_list m)) <->
  history_key x = true /\ is_Some (m !! x).
Proof.
  rewrite list_elem_of_In, filter_In, in_map_iff. split.
  - intros [([k v] & <- & Hin) Hk]. split; [exact Hk|].
    apply list_elem_of_In, elem_of_map_to_list in Hin. cbn. eauto.
  - intros [Hk [v Hv]]. split; [|exact Hk].
    exists (x, v). split; [reflexivity|]. now apply list_elem_of_In, elem_of_map_to_list.
Qed.

(** X20.  [clearAllWorkspaces], once confirmed twice, removes every entry
    whose key starts with [workspace_] or [img_] and leaves every other
    entry alone; the retry queue, which holds whole workspaces, is not
    cleared; and a sweep on the cleared store makes no call of
    [chrome.storage.local.remove]. *)
Theorem clear_all_removes_history (st : Storage) :
  let st' := clearAllWorkspaces true true st in
  (forall k, history_key k = true -> entries st' !! k = None) /\
  (forall k, history_key k = false -> entries st' !! k = entries st !! k) /\
  retry_queue st' = retry_queue st /\
  (forall img_older_than now,
     removeCalls (cleanupExpiredSnapshots img_older_than now st') = []).
Proof.
  intros st'.
  assert (Hst' : st' = set_entries
                         (remove_keys (List.filter history_key
                                         (map fst (map_to_list (entries st)))) (entries st))
                         st).
  { unfold st', clearAllWorkspaces. cbn [negb]. apply remove_prefixed.
    apply List.Forall_forall. intros k Hk. now apply filter_In in Hk as [_ Hk]. }
  assert (H1 : forall k, history_key k = true -> entries st' !! k = None).
  { intros k Hk. rewrite Hst'. cbn [set_entries entries].
    destruct (entries st !! k) as [v|] eqn:E.
    - apply remove_keys_elem, cleared_keys. split; [exact Hk|]. rewrite E. eauto.
    - rewrite remove_keys_other; [exact E|].
      rewrite cleared_keys. intros [_ [v Hv]]. congruence. }
  split; [exact H1|]. split; [|split].
  - intros k Hk. rewrite Hst'. cbn [set_entries entries].
    apply remove_keys_other. rewrite cleared_keys. intros [Hk' _]. congruence.
  - now rewrite Hst'.
  - intros img_older_than now. unfold cleanupExpiredSnapshots.
    destruct (flat_map _ _) as [|x l] eqn:E; [reflexivity|exfalso].
    assert (Hx : x ∈ flat_map (marked img_older_than (now - retentionMs))
                   (map_to_list (entries st'))) by (rewrite E; apply list_elem_of_here).
    apply toBeDeleted_iff in Hx as (key & w & [Hl Hp] & _).
    rewrite H1 in Hl; [discriminate Hl|].
    unfold history_key. now rewrite Hp.
Qed.

(** Clearing the store that holds two snapshots and their screenshots. *)
Lemma clear_all_removes_history_witness :
  let st' := clearAllWorkspaces true true old_and_recent in
  history_key (img_key six_days_ago 5) = true /\
  entries st' !! img_key six_days_ago 5 = None /\
  entries st' = ∅.
Proof.
  intros st'.
  assert (H : history_key (img_key six_days_ago 5) = true) by reflexivity.
  split; [exact H|].
  split; [exact (proj1 (clear_all_removes_history old_and_recent) _ H)|].
  vm_compute. reflexivity.
Defined.

End HistorySpec.

(** ** Submission after a capture *)

Module SubmitterSpec.

Import RateLimiter AwsService Submitter RateLimiterSpec RateLimiterMoreSpec AwsServiceMoreSpec.

(** X21.  [submitWorkspaceToAWS] gives up silently at each of its three
    gates: when the limiter denies, when no user id is set, or when the
    health probe fails or answers anything but healthy, no POST is issued,
    no fetch is scheduled and the store is left as it was; in particular
    the workspace is not put on the retry queue. *)
Theorem closed_gate_is_silent (env : GateEnv) (w : WorkspaceCapture) (st : Storage) :
  shouldSubmitContext (gateNow env) st = false \/
  usable_user (settingsUserId env) = None \/
  checkHealth (health env) <> Some Healthy ->
  let r := submitWorkspaceToAWS env w st in
  gate_posted r = [] /\ scheduledFetch r = None /\ gate_store r = st.
Proof.
  unfold submitWorkspaceToAWS.
  destruct (shouldSubmitContext (gateNow env) st); cbn [negb]; [|auto].
  destruct (usable_user (settingsUserId env)) as [u|]; [|auto].
  destruct (checkHealth (health env)) as [[|]|]; auto.
  intros [H|[H|H]]; [discriminate H|discriminate H|now exfalso; apply H].
Qed.

(** An endpoint that reports itself unhealthy. *)
Lemma closed_gate_is_silent_witness :
  let env := {| gateNow := 12000; settingsUserId := Some "user_1";
                health := HealthResponds false;
                submitEnv := sample_env (Response 200 true) "a" |} in
  let r := submitWorkspaceToAWS env sample_workspace empty_storage in
  checkHealth (health env) <> Some Healthy /\
  gate_posted r = [] /\ scheduledFetch r = None /\ gate_store r = empty_storage.
Proof.
  intros env r.
  assert (H : checkHealth (health env) <> Some Healthy) by discriminate.
  split; [exact H|].
  exact (closed_gate_is_silent env sample_workspace empty_storage (or_intror (or_intror H))).
Defined.

(** X22.  When the first check admits, a user id is set, the endpoint is
    healthy and the clock does not run backwards between the two checks,
    the check that [submitContext] repeats admits too: the call is exactly
    [submitContext] with reason [idle] (whatever triggered the capture),
    and for a workspace with a valid timestamp one POST is issued, with
    event [idle_capture]. *)
Theorem open_gate_submits_as_idle (env : GateEnv) (w : WorkspaceCapture) (st : Storage)
    (u : string) :
  shouldSubmitContext (gateNow env) st = true ->
  gateNow env <= checkNow (submitEnv env) ->
  usable_user (settingsUserId env) = Some u ->
  checkHealth (health env) = Some Healthy ->
  valid_time_value (timestamp w) = true ->
  let r := submitWorkspaceToAWS env w st in
  let res := submitContext (submitEnv env) w u Idle st in
  gate_store r = store res /\
  scheduledFetch r = truthy_context_id (returned res) /\
  gate_posted r = [contextData ("c-" +:+ correlationSuffix (submitEnv env)) w u Idle] /\
  Forall (fun body => event body = "idle_capture" /\ idle_sec body = 15) (gate_posted r).
Proof.
  intros Hadm Hclock Hu Hh Hvalid.
  pose proof (admitted_later st _ _ Hclock Hadm) as Hadm2.
  unfold submitWorkspaceToAWS. rewrite Hadm, Hu, Hh. cbn [negb].
  cbn [gate_store scheduledFetch gate_posted].
  assert (Hposted : posted (submitContext (submitEnv env) w u Idle st)
                    = [contextData ("c-" +:+ correlationSuffix (submitEnv env)) w u Idle]).
  { unfold submitContext. rewrite Hadm2, Hvalid. cbn [negb].
    destruct (post (submitEnv env)) as [|status json]; cbn; [reflexivity|].
    destruct (response_ok status); cbn; [|reflexivity].
    destruct json; reflexivity. }
  rewrite Hposted. repeat split. repeat constructor.
Qed.

(** A first submission through an open gate. *)
Lemma open_gate_submits_as_idle_witness :
  let env := open_gate 12000 (sample_env (Response 200 true) "a") in
  let r := submitWorkspaceToAWS env sample_workspace empty_storage in
  gateNow env <= checkNow (submitEnv env) /\
  scheduledFetch r = Some "c-a" /\
  map event (gate_posted r) = ["idle_capture"].
Proof.
  intros env r.
  assert (H1 : shouldSubmitContext (gateNow env) empty_storage = true) by reflexivity.
  assert (H2 : gateNow env <= checkNow (submitEnv env)) by (cbn; lia).
  assert (H3 : usable_user (settingsUserId env) = Some "user_1") by reflexivity.
  assert (H4 : checkHealth (health env) = Some Healthy) by reflexivity.
  assert (H5 : valid_time_value (timestamp sample_workspace) = true) by reflexivity.
  destruct (open_gate_submits_as_idle env sample_workspace empty_storage "user_1"
              H1 H2 H3 H4 H5) as (_ & Hf & Hp & _).
  split; [exact H2|]. split.
  - unfold r. rewrite Hf. reflexivity.
  - unfold r. rewrite Hp. reflexivity.
Defined.

End SubmitterSpec.

(** ** Start-up *)

Module StartupSpec.

Import Startup.



End StartupSpec.

(** ** Idle monitor *)

Module IdleMonitorMoreSpec.

Import IdleMonitor IdleMonitorSpec.

(** X24.  On the manual path the flag is tested and set in one turn:
    whatever the order in which manual triggers arrive and captures resume
    and complete, at most one capture is in flight as long as no idle
    transition and no [toggleCapture] message is involved. *)
Theorem manual_path_is_single_flight (es : list Event) :
  forallb manual_only es = true -> (in_flight (run es) <= 1)%nat.
Proof. apply manual_triggers_single_flight. Qed.

(** Two manual triggers in a row, the first capture still running. *)
Lemma manual_path_is_single_flight_witness :
  let es := [Arrive ManualCapture; Arrive ManualCapture; Resume 0; Complete 0;
             Arrive ManualCapture] in
  forallb manual_only es = true /\
  tasks (run es) = [Finished; Finished; InCapture] /\
  (in_flight (run es) <= 1)%nat.
Proof.
  intros es.
  assert (H : forallb manual_only es = true) by reflexivity.
  split; [exact H|]. split; [reflexivity|].
  exact (manual_path_is_single_flight es H).
Defined.

End IdleMonitorMoreSpec.
